(** * shr: the race server (server.js)

    A shallow embedding of the authoritative game server: the shared
    [gameState] object, the per-connection message and close handlers and
    the 50 ms game loop, followed by the properties of the session state
    machine and of the race simulation.

    Modelling conventions.
    - In the model of the handlers and of the session, the numbers that
      carry shake intensities, speeds and positions are rationals ([Q]);
      what is proved there is which value is stored, sent or compared, not
      its arithmetic.  The arithmetic of the game loop is modelled apart,
      in module [B64], on IEEE-754 binary64 numbers as JavaScript computes
      them; what depends on how a number is rounded is stated there.
      Timestamps and the integer settings are [Z].  Payload fields are
      taken at these types, so non-numeric JSON values for them are
      outside the model.
    - Team objects live in a store [objs]; [gameState.teams] and
      [gameState.winner] hold references into it, as the source shares one
      mutable object between the two.
    - Team keys are integers; a [teamId] that names a property inherited
      from [Object.prototype] is outside the model.
    - [Date.now()] and the random suffix of a player id are inputs of the
      handlers; the two readings of the clock inside one registration are
      taken to be equal.
    - [sockets] holds, for every open connection, the closure variables
      [clientType] and [playerId] of its handlers. *)

From Stdlib Require Import ZArith QArith Qpower Qminmax Lqa SpecFloat.
From stdpp Require Import gmap strings list fin_maps pretty.

Local Open Scope Z_scope.

(** ** Data model *)

(** References to team objects, and sockets. *)
Abbreviation ref := nat (only parsing).
Abbreviation conn := nat (only parsing).

Inductive Status := registration | racing | finished.
Inductive ClientType := display | admin | player.

#[global] Instance Status_eq_dec : EqDecision Status.
Proof. solve_decision. Defined.
#[global] Instance ClientType_eq_dec : EqDecision ClientType.
Proof. solve_decision. Defined.

Record Settings := mkSettings {
  numTeams : Z;
  maxPlayers : Z;
  minTeams : Z;
  speedCoef : Q;
  baseSpeed : Q
}.

Record Team := mkTeam {
  t_id : Z;
  t_name : string;
  t_players : list string;
  t_position : Q;
  t_shakeIntensity : Q
}.

Record Player := mkPlayer {
  p_id : string;
  p_teamId : Z;
  p_shakeIntensity : Q;
  p_lastShake : Z
}.

(** [gameState], together with the store of the team objects it refers to.
    [teams] lists the own keys of [gameState.teams] in iteration order
    (ascending integer keys, which is also the order of insertion). *)
Record GameState := mkGameState {
  objs : gmap ref Team;
  nextRef : ref;
  settings : Settings;
  teams : list (Z * ref);
  players : gmap string Player;
  gameStatus : Status;
  raceStartTime : option Z;
  winner : option ref
}.

(** The closure variables of one connection. *)
Record Local := mkLocal {
  clientType : option ClientType;
  playerId : option string
}.

Record Server := mkServer {
  gameState : GameState;
  clients : gmap string conn;
  displayClients : gset conn;
  adminClients : gset conn;
  sockets : gmap conn Local
}.

(** Parsed inbound record: the [type] discriminator and the fields the
    handlers destructure. *)
Record Data := mkData {
  type : string;
  d_teamId : option Z;
  d_teamName : option string;
  d_intensity : Q;
  d_numTeams : option Z;
  d_maxPlayers : option Z;
  d_minTeams : option Z;
  d_speedCoef : option Q
}.

(** A raw message either fails in [JSON.parse] or yields a record. *)
Inductive Inbound := Malformed | Parsed (data : Data).

Record TeamSummary := mkSummary {
  s_id : Z;
  s_name : string;
  s_position : Q;
  s_shakeIntensity : Q;
  s_playerCount : nat
}.

Inductive OutMsg :=
  | game_state (state : GameState)
  | player_registered (pid : string) (teamId : Z) (teamName : string)
  | settings_updated (state : GameState)
  | game_reset (state : GameState)
  | race_started (state : GameState)
  | race_update (summary : list TeamSummary) (winnerId : option Z)
  | race_finished (winnerTeam : option Team)
  | error_msg (text : string).

(** [ws.send], [broadcast] and [broadcastToDisplays]. *)
Inductive Dest := ToSocket (ws : conn) | ToAll | ToDisplays.

Definition Output : Type := Dest * OutMsg.

(** ** Record updates *)

Definition set_objs (o : gmap ref Team) (g : GameState) : GameState :=
  mkGameState o (nextRef g) (settings g) (teams g) (players g)
              (gameStatus g) (raceStartTime g) (winner g).

Definition set_settings (st : Settings) (g : GameState) : GameState :=
  mkGameState (objs g) (nextRef g) st (teams g) (players g)
              (gameStatus g) (raceStartTime g) (winner g).

Definition set_players (ps : gmap string Player) (g : GameState) : GameState :=
  mkGameState (objs g) (nextRef g) (settings g) (teams g) ps
              (gameStatus g) (raceStartTime g) (winner g).

Definition set_gameStatus (st : Status) (g : GameState) : GameState :=
  mkGameState (objs g) (nextRef g) (settings g) (teams g) (players g)
              st (raceStartTime g) (winner g).

Definition set_raceStartTime (t : option Z) (g : GameState) : GameState :=
  mkGameState (objs g) (nextRef g) (settings g) (teams g) (players g)
              (gameStatus g) t (winner g).

Definition set_winner (w : option ref) (g : GameState) : GameState :=
  mkGameState (objs g) (nextRef g) (settings g) (teams g) (players g)
              (gameStatus g) (raceStartTime g) w.

Definition set_gameState (g : GameState) (s : Server) : Server :=
  mkServer g (clients s) (displayClients s) (adminClients s) (sockets s).

Definition set_clients (c : gmap string conn) (s : Server) : Server :=
  mkServer (gameState s) c (displayClients s) (adminClients s) (sockets s).

Definition set_local (ws : conn) (l : Local) (s : Server) : Server :=
  mkServer (gameState s) (clients s) (displayClients s) (adminClients s)
           (<[ws := l]> (sockets s)).

(** ** JavaScript helpers *)

(** Truthiness of a string-valued variable that may be [null]. *)
Definition truthy_str (o : option string) : bool :=
  match o with
  | Some s => negb (String.eqb s EmptyString)
  | None => false
  end.

(** Truthiness of an optional integer field ([undefined], [null], [0]). *)
Definition truthy_Z (o : option Z) : option Z :=
  match o with
  | Some z => if (z =? 0) then None else Some z
  | None => None
  end.

Definition truthy_Q (o : option Q) : option Q :=
  match o with
  | Some q => if Qeq_bool q 0 then None else Some q
  | None => None
  end.

Definition Math_max (a b : Q) : Q := if Qle_bool a b then b else a.

(** [gameState.teams[k]]: the reference stored under key [k]. *)
Definition team_ref (g : GameState) (k : Z) : option ref :=
  snd <$> List.find (fun kr => fst kr =? k) (teams g).

(** [gameState.teams[teamId]] for a payload field that may be missing:
    the key, the reference found under it and the object referred to. *)
Definition get_team (g : GameState) (teamId : option Z) : option (Z * ref * Team) :=
  match teamId with
  | None => None
  | Some k =>
      match team_ref g k with
      | None => None
      | Some r =>
          match objs g !! r with
          | Some t => Some (k, r, t)
          | None => None
          end
      end
  end.

(** [Object.values(gameState.teams)], as references. *)
Definition team_values (g : GameState) : list ref := snd <$> teams g.

(** [Object.values(gameState.teams).filter(t => t.players.length > 0)]. *)
Definition has_members (o : gmap ref Team) (r : ref) : bool :=
  match o !! r with
  | Some t => negb (Nat.eqb (length (t_players t)) 0)
  | None => false
  end.

Definition active_teams (g : GameState) : list ref :=
  List.filter (has_members (objs g)) (team_values g).

(** [Date.now() + '-' + Math.random().toString(36).substr(2, 9)]. *)
Definition mk_player_id (now : Z) (rnd : string) : string :=
  pretty now +:+ "-" +:+ rnd.

(** ** initializeTeams *)

Definition new_team (i : Z) : Team := mkTeam i EmptyString [] 0%Q 0%Q.

Definition add_team (g : GameState) (i : Z) : GameState :=
  mkGameState (<[nextRef g := new_team i]> (objs g)) (S (nextRef g))
              (settings g) (teams g ++ [(i, nextRef g)]) (players g)
              (gameStatus g) (raceStartTime g) (winner g).

Definition clear_teams (g : GameState) : GameState :=
  mkGameState (objs g) (nextRef g) (settings g) [] (players g)
              (gameStatus g) (raceStartTime g) (winner g).

Definition initializeTeams (g : GameState) : GameState :=
  fold_left add_team (seqZ 1 (numTeams (settings g))) (clear_teams g).

(** The module-level initial state. *)
Definition gameState0 : GameState :=
  initializeTeams
    (mkGameState ∅ O (mkSettings 7 3 1 1%Q (1000 # 330)%Q) [] ∅
                 registration None None).

Definition server0 : Server := mkServer gameState0 ∅ ∅ ∅ ∅.

(** ** The message handler *)

Definition is_operator (l : Local) : bool :=
  match clientType l with
  | Some admin | Some display => true
  | _ => false
  end.

Definition set_name (n : string) (t : Team) : Team :=
  mkTeam (t_id t) n (t_players t) (t_position t) (t_shakeIntensity t).

Definition set_team_players (ps : list string) (t : Team) : Team :=
  mkTeam (t_id t) (t_name t) ps (t_position t) (t_shakeIntensity t).

(** The team object written back by a successful registration: the name is
    set when the list is empty and a truthy name is proposed, then the id is
    pushed. *)
Definition joined (pid : string) (teamName : option string) (team : Team) : Team :=
  let team1 :=
    if Nat.eqb (length (t_players team)) 0 && truthy_str teamName
    then set_name (default EmptyString teamName) team
    else team in
  set_team_players (t_players team1 ++ [pid]) team1.

(** [case 'register_player'] *)
Definition register_player (ws : conn) (now : Z) (rnd : string) (data : Data)
    (s : Server) : Server * list Output :=
  let g := gameState s in
  match get_team g (d_teamId data) with
  | None => (s, [(ToSocket ws, error_msg "Invalid team")])
  | Some (teamId, r, team) =>
      if (maxPlayers (settings g) <=? Z.of_nat (length (t_players team)))
      then (s, [(ToSocket ws, error_msg "Team is full")])
      else
        let pid := mk_player_id now rnd in
        let rec := mkPlayer pid teamId 0%Q now in
        let team2 := joined pid (d_teamName data) team in
        let g' := set_objs (<[r := team2]> (objs g))
                    (set_players (<[pid := rec]> (players g)) g) in
        let s' := set_local ws (mkLocal (Some player) (Some pid))
                    (set_clients (<[pid := ws]> (clients s))
                       (set_gameState g' s)) in
        (s', [(ToSocket ws, player_registered pid teamId (t_name team2));
              (ToAll, game_state g')])
  end.

(** [case 'update_shake'] *)
Definition update_shake (now : Z) (data : Data) (l : Local) (s : Server)
    : Server * list Output :=
  let g := gameState s in
  match playerId l with
  | Some pid =>
      if truthy_str (Some pid) then
        match players g !! pid with
        | Some p =>
            let p' := mkPlayer (p_id p) (p_teamId p) (d_intensity data) now in
            (set_gameState (set_players (<[pid := p']> (players g)) g) s, [])
        | None => (s, [])
        end
      else (s, [])
  | None => (s, [])
  end.

Definition reset_position (t : Team) : Team :=
  mkTeam (t_id t) (t_name t) (t_players t) 0%Q 0%Q.

(** [case 'start_race'] *)
Definition start_race (now : Z) (l : Local) (s : Server)
    : Server * list Output :=
  let g := gameState s in
  if is_operator l then
    let registeredCount := length (active_teams g) in
    if (minTeams (settings g) <=? Z.of_nat registeredCount) then
      let g1 := set_winner None
                  (set_raceStartTime (Some now) (set_gameStatus racing g)) in
      let o := fold_left (fun o r => alter reset_position r o)
                         (team_values g1) (objs g1) in
      let g' := set_objs o g1 in
      (set_gameState g' s, [(ToAll, race_started g')])
    else (s, [])
  else (s, []).

Definition apply_settings (data : Data) (st : Settings) : Settings :=
  mkSettings (default (numTeams st) (truthy_Z (d_numTeams data)))
             (default (maxPlayers st) (truthy_Z (d_maxPlayers data)))
             (default (minTeams st) (truthy_Z (d_minTeams data)))
             (default (speedCoef st) (truthy_Q (d_speedCoef data)))
             (baseSpeed st).

(** [case 'update_settings'] *)
Definition update_settings (data : Data) (l : Local) (s : Server)
    : Server * list Output :=
  let g := gameState s in
  match clientType l with
  | Some admin =>
      let g' := initializeTeams (set_settings (apply_settings data (settings g)) g) in
      (set_gameState g' s, [(ToAll, settings_updated g')])
  | _ => (s, [])
  end.

(** [case 'reset_game'] *)
Definition reset_game (l : Local) (s : Server) : Server * list Output :=
  let g := gameState s in
  if is_operator l then
    let g1 := set_players ∅
                (set_winner None
                   (set_raceStartTime None (set_gameStatus registration g))) in
    let g' := initializeTeams g1 in
    (set_clients ∅ (set_gameState g' s), [(ToAll, game_reset g')])
  else (s, []).

(** The body of the [try] block for a parsed record. *)
Definition handle (ws : conn) (now : Z) (rnd : string) (data : Data)
    (l : Local) (s : Server) : Server * list Output :=
  let ty := type data in
  if String.eqb ty "request_state" && bool_decide (clientType l = None) then
    (s, [(ToSocket ws, game_state (gameState s))])
  else if String.eqb ty "register_display" then
    (mkServer (gameState s) (clients s) ({[ws]} ∪ displayClients s)
              (adminClients s)
              (<[ws := mkLocal (Some display) (playerId l)]> (sockets s)),
     [(ToSocket ws, game_state (gameState s))])
  else if String.eqb ty "register_admin" then
    (mkServer (gameState s) (clients s) (displayClients s)
              ({[ws]} ∪ adminClients s)
              (<[ws := mkLocal (Some admin) (playerId l)]> (sockets s)),
     [(ToSocket ws, game_state (gameState s))])
  else if String.eqb ty "register_player" then register_player ws now rnd data s
  else if String.eqb ty "update_shake" then update_shake now data l s
  else if String.eqb ty "start_race" then start_race now l s
  else if String.eqb ty "update_settings" then update_settings data l s
  else if String.eqb ty "reset_game" then reset_game l s
  else (s, []).

(** [ws.on('message')]: a parse failure is caught and answered with the
    generic error; a socket without an entry has no handler installed. *)
Definition on_message (ws : conn) (now : Z) (rnd : string) (message : Inbound)
    (s : Server) : Server * list Output :=
  match sockets s !! ws with
  | None => (s, [])
  | Some l =>
      match message with
      | Malformed => (s, [(ToSocket ws, error_msg "Server error")])
      | Parsed data => handle ws now rnd data l s
      end
  end.

(** ** The close handler *)

Definition remove_player (pid : string) (g : GameState) : GameState :=
  match players g !! pid with
  | Some p =>
      let o :=
        match get_team g (Some (p_teamId p)) with
        | Some (_, r, team) =>
            <[r := set_team_players
                     (List.filter (fun i => negb (String.eqb i pid)) (t_players team))
                     team]> (objs g)
        | None => objs g
        end in
      set_players (delete pid (players g)) (set_objs o g)
  | None => g
  end.

Definition drop_socket (ws : conn) (s : Server) : Server :=
  mkServer (gameState s) (clients s) (displayClients s) (adminClients s)
           (delete ws (sockets s)).

Definition on_close (ws : conn) (s : Server) : Server * list Output :=
  match sockets s !! ws with
  | None => (s, [])
  | Some l =>
      match clientType l with
      | Some display =>
          (drop_socket ws
             (mkServer (gameState s) (clients s) (displayClients s ∖ {[ws]})
                       (adminClients s) (sockets s)), [])
      | Some admin =>
          (drop_socket ws
             (mkServer (gameState s) (clients s) (displayClients s)
                       (adminClients s ∖ {[ws]}) (sockets s)), [])
      | Some player =>
          match playerId l with
          | Some pid =>
              if truthy_str (Some pid) then
                let g' := remove_player pid (gameState s) in
                (drop_socket ws
                   (set_clients (delete pid (clients s)) (set_gameState g' s)),
                 [(ToAll, game_state g')])
              else (drop_socket ws s, [])
          | None => (drop_socket ws s, [])
          end
      | None => (drop_socket ws s, [])
      end
  end.

(** [wss.on('connection')] *)
Definition on_connection (ws : conn) (s : Server) : Server :=
  set_local ws (mkLocal None None) s.

(** ** The game loop *)

Definition trackWidth : Q := 1000%Q.

(** [team.players.forEach(...)]: the sum of the members' intensities,
    skipping ids without a record. *)
Definition total_intensity (ps : gmap string Player) (members : list string) : Q :=
  fold_left (fun acc pid =>
               match ps !! pid with
               | Some p => (acc + p_shakeIntensity p)%Q
               | None => acc
               end) members 0%Q.

Definition advance (st : Settings) (total : Q) (t : Team) : Team :=
  let speed := (total * speedCoef st * baseSpeed st)%Q in
  mkTeam (t_id t) (t_name t) (t_players t)
         (t_position t + speed * (5 # 100))%Q total.

(** The body of [activeTeams.forEach]; the boolean is [hasWinner]. *)
Definition race_team (acc : GameState * bool) (r : ref) : GameState * bool :=
  let '(g, hasWinner) := acc in
  match objs g !! r with
  | None => acc
  | Some team =>
      let team' := advance (settings g)
                     (total_intensity (players g) (t_players team)) team in
      let g1 := set_objs (<[r := team']> (objs g)) g in
      if Qle_bool trackWidth (t_position team') && bool_decide (winner g1 = None)
      then (set_gameStatus finished (set_winner (Some r) g1), true)
      else (g1, hasWinner)
  end.

Definition summary (o : gmap ref Team) (r : ref) : option TeamSummary :=
  (fun t => mkSummary (t_id t) (t_name t) (t_position t) (t_shakeIntensity t)
                      (length (t_players t))) <$> o !! r.

Definition winner_team (g : GameState) : option Team :=
  match winner g with
  | Some r => objs g !! r
  | None => None
  end.

(** [if (gameState.gameStatus === 'racing') { ... }] *)
Definition race (g : GameState) : GameState * list Output :=
  match gameStatus g with
  | racing =>
      let activeTeams := active_teams g in
      let '(g', hasWinner) := fold_left race_team activeTeams (g, false) in
      let upd := (ToDisplays,
                  race_update (omap (summary (objs g')) activeTeams)
                              (t_id <$> winner_team g')) in
      (g', if hasWinner then [upd; (ToAll, race_finished (winner_team g'))]
           else [upd])
  | _ => (g, [])
  end.

(** [// Decay shake intensity] *)
Definition decay_player (now : Z) (p : Player) : Player :=
  if (200 <? now - p_lastShake p)
  then mkPlayer (p_id p) (p_teamId p)
                (Math_max 0 (p_shakeIntensity p - (1 # 2)))%Q (p_lastShake p)
  else p.

Definition decay (now : Z) (g : GameState) : GameState :=
  set_players (decay_player now <$> players g) g.

(** The [setInterval] callback. *)
Definition tick (now : Z) (g : GameState) : GameState * list Output :=
  let '(g1, out) := race g in
  (decay now g1, out).

(** ** Events *)

Inductive Event :=
  | Connection (ws : conn)
  | Message (ws : conn) (now : Z) (rnd : string) (message : Inbound)
  | Close (ws : conn)
  | Interval (now : Z).

Definition step (s : Server) (e : Event) : Server * list Output :=
  match e with
  | Connection ws => (on_connection ws s, [])
  | Message ws now rnd message => on_message ws now rnd message s
  | Close ws => on_close ws s
  | Interval now =>
      let '(g, out) := tick now (gameState s) in (set_gameState g s, out)
  end.

Definition run (s : Server) (es : list Event) : Server :=
  fold_left (fun s e => fst (step s e)) es s.

(** ** Vocabulary of the statements *)

(** Messages that carry only what their handler reads. *)
Definition plain (ty : string) : Data :=
  mkData ty None None 0%Q None None None None.

Definition join (k : Z) (n : string) : Data :=
  mkData "register_player" (Some k) (Some n) 0%Q None None None None.

Definition shake (q : Q) : Data :=
  mkData "update_shake" None None q None None None None.

(** The event is a parsed message with discriminator [ty]. *)
Definition is_type (ty : string) (e : Event) : bool :=
  match e with
  | Message _ _ _ (Parsed d) => String.eqb (type d) ty
  | _ => false
  end.

(** The [case] labels of the switch, and [request_state]. *)
Definition recognized (ty : string) : bool :=
  existsb (String.eqb ty)
    ["request_state"; "register_display"; "register_admin"; "register_player";
     "update_shake"; "start_race"; "update_settings"; "reset_game"].

(** The team object currently stored under key [k]. *)
Definition team_at (g : GameState) (k : Z) : option Team :=
  snd <$> get_team g (Some k).

Definition position_at (g : GameState) (k : Z) : option Q :=
  t_position <$> team_at g k.

Definition name_at (g : GameState) (k : Z) : option string :=
  t_name <$> team_at g k.

Definition members_at (g : GameState) (k : Z) : option (list string) :=
  t_players <$> team_at g k.

(** No team object reachable from [gameState.teams] has more members than
    [settings.maxPlayers]. *)
Definition within_capacity (g : GameState) : Prop :=
  ∀ k r t, (k, r) ∈ teams g → objs g !! r = Some t →
           Z.of_nat (length (t_players t)) ≤ maxPlayers (settings g).

(** Team membership lists and the player registry agree. *)
Definition consistent (g : GameState) : Prop :=
  (∀ pid p, players g !! pid = Some p →
            ∃ t, team_at g (p_teamId p) = Some t ∧ pid ∈ t_players t) ∧
  (∀ k r t pid, (k, r) ∈ teams g → objs g !! r = Some t →
                pid ∈ t_players t → is_Some (players g !! pid)).

(** Executable form of [within_capacity]. *)
Definition within_capacityb (g : GameState) : bool :=
  forallb (fun kr : Z * ref =>
             match objs g !! snd kr with
             | Some t => Z.of_nat (length (t_players t)) <=? maxPlayers (settings g)
             | None => true
             end) (teams g).

(** Executable form of [consistent]. *)
Definition consistentb (g : GameState) : bool :=
  forallb (fun ip : string * Player =>
             match team_at g (p_teamId (snd ip)) with
             | Some t => bool_decide (fst ip ∈ t_players t)
             | None => false
             end) (map_to_list (players g)) &&
  forallb (fun kr : Z * ref =>
             match objs g !! snd kr with
             | Some t => forallb (fun pid => bool_decide (is_Some (players g !! pid)))
                                 (t_players t)
             | None => true
             end) (teams g).

(** What [initializeTeams] guarantees about the roster it builds. *)
Definition fresh_roster (g : GameState) : Prop :=
  NoDup (team_values g) ∧
  ∀ k r, (k, r) ∈ teams g → (r < nextRef g)%nat ∧ objs g !! r = Some (new_team k).

(** The team object at [r] survives with the same position. *)
Definition keeps_position (o o' : gmap ref Team) (r : ref) (t : Team) : Prop :=
  ∃ t', o' !! r = Some t' ∧ t_position t' = t_position t.

(** The sender of [start_race] passes both guards of the handler. *)
Definition start_accepted (l : Local) (g : GameState) : bool :=
  is_operator l && (minTeams (settings g) <=? Z.of_nat (length (active_teams g))).

(** The event is a [start_race] that passes the guards in state [s]. *)
Definition accepted_start (s : Server) (e : Event) : bool :=
  match e with
  | Message ws _ _ (Parsed d) =>
      String.eqb (type d) "start_race" &&
      match sockets s !! ws with
      | Some l => start_accepted l (gameState s)
      | None => false
      end
  | _ => false
  end.

(** No event of the run is a [reset_game] or an accepted [start_race]. *)
Fixpoint same_race (s : Server) (es : list Event) : bool :=
  match es with
  | [] => true
  | e :: es' =>
      negb (is_type "reset_game" e) && negb (accepted_start s e) &&
      same_race (fst (step s e)) es'
  end.

(** ** Scenarios *)

(** Two players on teams 1 and 2, an admin starts the race, team 1 shakes
    hard enough to cross the line in one tick. *)
Definition first_race : list Event :=
  [Connection 1%nat; Message 1%nat 1000 "a" (Parsed (join 1 "Red"));
   Connection 2%nat; Message 2%nat 1001 "b" (Parsed (join 2 "Blue"));
   Connection 3%nat; Message 3%nat 1002 EmptyString (Parsed (plain "register_admin"));
   Message 3%nat 1003 EmptyString (Parsed (plain "start_race"));
   Message 1%nat 1010 EmptyString (Parsed (shake 10000));
   Interval 1050].

(** Without any reset, the admin starts again and team 2 shakes. *)
Definition second_race : list Event :=
  [Message 3%nat 1100 EmptyString (Parsed (plain "start_race"));
   Message 1%nat 1110 EmptyString (Parsed (shake 0));
   Message 2%nat 1120 EmptyString (Parsed (shake 10000));
   Interval 1150].

(** Four sockets waiting in the lobby, and three players joining team 1. *)
Definition lobby : Server :=
  run server0 [Connection 1%nat; Connection 2%nat; Connection 3%nat; Connection 4%nat].

Definition three_joins : list Event :=
  [Message 1%nat 1000 "a" (Parsed (join 1 "Red"));
   Message 2%nat 1001 "b" (Parsed (join 1 "Blue"));
   Message 3%nat 1002 "c" (Parsed (join 1 "Green"))].

(** The race is on and team 1 has moved forward. *)
Definition mid_race : list Event :=
  [Connection 1%nat; Message 1%nat 1000 "a" (Parsed (join 1 "Red"));
   Connection 2%nat; Message 2%nat 1001 "b" (Parsed (join 2 "Blue"));
   Connection 3%nat; Message 3%nat 1002 EmptyString (Parsed (plain "register_admin"));
   Message 3%nat 1003 EmptyString (Parsed (plain "start_race"));
   Message 1%nat 1010 EmptyString (Parsed (shake 100));
   Interval 1050].

(** The race is on and the only player reports a negative intensity. *)
Definition backwards : list Event :=
  [Connection 1%nat; Message 1%nat 1000 "a" (Parsed (join 1 "Red"));
   Connection 3%nat; Message 3%nat 1002 EmptyString (Parsed (plain "register_admin"));
   Message 3%nat 1003 EmptyString (Parsed (plain "start_race"));
   Message 1%nat 1010 EmptyString (Parsed (shake (-10)))].

(** The race is on and the only player reported intensity 1 long ago. *)
Definition stale_race : list Event :=
  [Connection 1%nat; Message 1%nat 1000 "a" (Parsed (join 1 "Red"));
   Connection 3%nat; Message 3%nat 1002 EmptyString (Parsed (plain "register_admin"));
   Message 3%nat 1003 EmptyString (Parsed (plain "start_race"));
   Message 1%nat 1010 EmptyString (Parsed (shake 1))].

(** The tick in the order the specification describes: decay pass first,
    position integration second. *)
Definition tick_decay_first (now : Z) (g : GameState) : GameState * list Output :=
  race (decay now g).

(** A player names team 1 and leaves; the next player proposes another name. *)
Definition rename : list Event :=
  [Connection 1%nat; Message 1%nat 1000 "a" (Parsed (join 1 "Red"));
   Close 1%nat;
   Connection 2%nat; Message 2%nat 2000 "b" (Parsed (join 1 "Blue"))].

(** A player joins team 1, then an admin submits a settings form that
    changes nothing. *)
Definition settings_change : list Event :=
  [Connection 1%nat; Message 1%nat 1000 "a" (Parsed (join 1 "Red"));
   Connection 2%nat; Message 2%nat 1001 EmptyString (Parsed (plain "register_admin"));
   Message 2%nat 1002 EmptyString (Parsed (plain "update_settings"))].

(** A player registers on team 1 and then, on the same socket, on team 2. *)
Definition twice : list Event :=
  [Connection 1%nat; Message 1%nat 1000 "a" (Parsed (join 1 "Red"))].

(** ** Vocabulary of the further properties *)

(** [teamId] is one of the keys 1..numTeams. *)
Definition in_range (g : GameState) (k : Z) : bool :=
  (1 <=? k) && (k <=? numTeams (settings g)).

(** The roster has the keys 1..numTeams, in order, and every key refers to
    an existing team object that carries the key as its [id]. *)
Definition roster_ok (g : GameState) : Prop :=
  fst <$> teams g = seqZ 1 (numTeams (settings g)) ∧
  ∀ k r, (k, r) ∈ teams g →
         (r < nextRef g)%nat ∧ ∃ t, objs g !! r = Some t ∧ t_id t = k.

(** Every team object of [o] is still there in [o'], with the same [id]. *)
Definition same_ids (o o' : gmap ref Team) : Prop :=
  ∀ r t, o !! r = Some t → ∃ t', o' !! r = Some t' ∧ t_id t' = t_id t.

(** The step kept the roster, the allocation pointer and the settings, and
    every team object kept its [id]. *)
Definition static (g g' : GameState) : Prop :=
  teams g' = teams g ∧ nextRef g' = nextRef g ∧ settings g' = settings g ∧
  same_ids (objs g) (objs g').

(** A winner is recorded exactly when the status is [finished], and it
    refers to an existing team object. *)
Definition winner_ok (g : GameState) : Prop :=
  (is_Some (winner g) ↔ gameStatus g = finished) ∧
  ∀ r, winner g = Some r → is_Some (objs g !! r).


(** What [JSON.stringify(gameState)] puts on the wire: the teams and the
    winner by value, without the references. *)
Record Snapshot := mkSnapshot {
  sn_settings : Settings;
  sn_teams : list (Z * option Team);
  sn_players : gmap string Player;
  sn_gameStatus : Status;
  sn_raceStartTime : option Z;
  sn_winner : option Team
}.

Definition snapshot (g : GameState) : Snapshot :=
  mkSnapshot (settings g)
             ((fun kr : Z * ref => (fst kr, objs g !! snd kr)) <$> teams g)
             (players g) (gameStatus g) (raceStartTime g) (winner_team g).

(** The event rebuilds the roster when it is accepted. *)
Definition rebuilds (e : Event) : bool :=
  is_type "reset_game" e || is_type "update_settings" e.

(** Both teams are about to cross the line in the same tick; team 2 shakes
    harder and reported first. *)
Definition photo_finish : list Event :=
  [Connection 1%nat; Message 1%nat 1000 "a" (Parsed (join 1 "Red"));
   Connection 2%nat; Message 2%nat 1001 "b" (Parsed (join 2 "Blue"));
   Connection 3%nat; Message 3%nat 1002 "c" (Parsed (plain "register_admin"));
   Message 3%nat 1003 "c" (Parsed (plain "start_race"));
   Message 2%nat 1010 "b" (Parsed (shake 20000));
   Message 1%nat 1011 "a" (Parsed (shake 10000))].

(** ** The game loop in double precision

    The arithmetic of the game loop as JavaScript performs it: every number
    is an IEEE-754 binary64 value ([spec_float] at precision 53, with the
    infinities at exponent 1024), operations round to nearest, ties to even.
    The intensity stored in a player record is a number or [undefined] (an
    [update_shake] without the field stores [undefined]); values of other
    JSON types are outside the model. The roster, the registry and the
    control flow are those of the loop above. *)

Module B64.

Abbreviation float := spec_float (only parsing).

Definition add : float -> float -> float := SFadd 53 1024.
Definition sub : float -> float -> float := SFsub 53 1024.
Definition mul : float -> float -> float := SFmul 53 1024.
Definition div : float -> float -> float := SFdiv 53 1024.
Definition ltb : float -> float -> bool := SFltb.
Definition leb : float -> float -> bool := SFleb.

(** The number is one of the binary64 values. *)
Definition valid : float -> bool := valid_binary 53 1024.

(** An integer literal. *)
Definition of_Z (z : Z) : float := binary_normalize 53 1024 z 0 false.

Definition zero : float := S754_zero false.

(** The literals [0.5] and [0.05]. *)
Definition half : float := S754_finite false 4503599627370496 (-53).
Definition tick_seconds : float := S754_finite false 7205759403792794 (-57).

Definition trackWidth : float := of_Z 1000.

(** [1000 / 330] *)
Definition baseSpeed0 : float := div (of_Z 1000) (of_Z 330).

(** [Math.max] of two numbers: NaN if either is, and [+0] above [-0]. *)
Definition Math_max (a b : float) : float :=
  match a, b with
  | S754_nan, _ | _, S754_nan => S754_nan
  | _, _ =>
      if ltb a b then b
      else if ltb b a then a
      else match a with
           | S754_zero true => b
           | _ => a
           end
  end.

(** A stored intensity, and its value in arithmetic ([ToNumber]). *)
Inductive jsnum := JNum (f : float) | JUndefined.

Definition to_number (v : jsnum) : float :=
  match v with
  | JNum f => f
  | JUndefined => S754_nan
  end.

Record Settings := mkSettings {
  numTeams : Z;
  maxPlayers : Z;
  minTeams : Z;
  speedCoef : float;
  baseSpeed : float
}.

Record Team := mkTeam {
  t_id : Z;
  t_name : string;
  t_players : list string;
  t_position : float;
  t_shakeIntensity : float
}.

Record Player := mkPlayer {
  p_id : string;
  p_teamId : Z;
  p_shakeIntensity : jsnum;
  p_lastShake : Z
}.

Record GameState := mkGameState {
  objs : gmap ref Team;
  settings : Settings;
  teams : list (Z * ref);
  players : gmap string Player;
  gameStatus : Status;
  raceStartTime : option Z;
  winner : option ref
}.

Record TeamSummary := mkSummary {
  s_id : Z;
  s_name : string;
  s_position : float;
  s_shakeIntensity : float;
  s_playerCount : nat
}.

(** The two messages the loop sends. *)
Inductive OutMsg :=
  | race_update (summary : list TeamSummary) (winnerId : option Z)
  | race_finished (winnerTeam : option Team).

Definition Output : Type := Dest * OutMsg.

Definition team_values (g : GameState) : list ref := snd <$> teams g.

Definition has_members (o : gmap ref Team) (r : ref) : bool :=
  match o !! r with
  | Some t => negb (Nat.eqb (length (t_players t)) 0)
  | None => false
  end.

Definition active_teams (g : GameState) : list ref :=
  List.filter (has_members (objs g)) (team_values g).

(** [let totalIntensity = 0; team.players.forEach(...)] *)
Definition total_intensity (ps : gmap string Player) (members : list string) : float :=
  fold_left (fun acc pid =>
               match ps !! pid with
               | Some p => add acc (to_number (p_shakeIntensity p))
               | None => acc
               end) members zero.

(** [speed * 0.05] for [speed = totalIntensity * speedCoef * baseSpeed]. *)
Definition increment (st : Settings) (total : float) : float :=
  mul (mul (mul total (speedCoef st)) (baseSpeed st)) tick_seconds.

Definition advance (st : Settings) (total : float) (t : Team) : Team :=
  mkTeam (t_id t) (t_name t) (t_players t)
         (add (t_position t) (increment st total)) total.

Definition set_objs (o : gmap ref Team) (g : GameState) : GameState :=
  mkGameState o (settings g) (teams g) (players g)
              (gameStatus g) (raceStartTime g) (winner g).

Definition set_players (ps : gmap string Player) (g : GameState) : GameState :=
  mkGameState (objs g) (settings g) (teams g) ps
              (gameStatus g) (raceStartTime g) (winner g).

Definition finish (r : ref) (g : GameState) : GameState :=
  mkGameState (objs g) (settings g) (teams g) (players g)
              finished (raceStartTime g) (Some r).

(** The body of [activeTeams.forEach]; the boolean is [hasWinner]. *)
Definition race_team (acc : GameState * bool) (r : ref) : GameState * bool :=
  let '(g, hasWinner) := acc in
  match objs g !! r with
  | None => acc
  | Some team =>
      let team' := advance (settings g)
                     (total_intensity (players g) (t_players team)) team in
      let g1 := set_objs (<[r := team']> (objs g)) g in
      if leb trackWidth (t_position team') && bool_decide (winner g1 = None)
      then (finish r g1, true)
      else (g1, hasWinner)
  end.

Definition summary (o : gmap ref Team) (r : ref) : option TeamSummary :=
  (fun t => mkSummary (t_id t) (t_name t) (t_position t) (t_shakeIntensity t)
                      (length (t_players t))) <$> o !! r.

Definition winner_team (g : GameState) : option Team :=
  match winner g with
  | Some r => objs g !! r
  | None => None
  end.

Definition race (g : GameState) : GameState * list Output :=
  match gameStatus g with
  | racing =>
      let activeTeams := active_teams g in
      let '(g', hasWinner) := fold_left race_team activeTeams (g, false) in
      let upd := (ToDisplays,
                  race_update (omap (summary (objs g')) activeTeams)
                              (t_id <$> winner_team g')) in
      (g', if hasWinner then [upd; (ToAll, race_finished (winner_team g'))]
           else [upd])
  | _ => (g, [])
  end.

(** [Math.max(0, player.shakeIntensity - 0.5)] for an idle player. *)
Definition decayed (v : jsnum) : float :=
  Math_max zero (sub (to_number v) half).

Definition decay_player (now : Z) (p : Player) : Player :=
  if (200 <? now - p_lastShake p)
  then mkPlayer (p_id p) (p_teamId p) (JNum (decayed (p_shakeIntensity p)))
                (p_lastShake p)
  else p.

Definition decay (now : Z) (g : GameState) : GameState :=
  set_players (decay_player now <$> players g) g.

(** The [setInterval] callback. *)
Definition tick (now : Z) (g : GameState) : GameState * list Output :=
  let '(g1, out) := race g in
  (decay now g1, out).

(** [case 'update_shake'] on the socket of [playerId]: the field is stored
    as it arrived, a number or [undefined]. *)
Definition update_shake (playerId : option string) (intensity : jsnum)
    (now : Z) (g : GameState) : GameState :=
  match playerId with
  | Some pid =>
      if truthy_str (Some pid) then
        match players g !! pid with
        | Some p =>
            set_players (<[pid := mkPlayer (p_id p) (p_teamId p) intensity now]>
                           (players g)) g
        | None => g
        end
      else g
  | None => g
  end.


(** The number carries the sign [s]; NaN carries none. *)
Definition signed (s : bool) (r : float) : Prop :=
  match r with
  | S754_zero s' | S754_infinity s' | S754_finite s' _ _ => s' = s
  | S754_nan => False
  end.

Definition neg_infinity : float := S754_infinity true.

(** [2^52]: up to here a step of one half is exact. *)
Definition exact_bound : float := of_Z 4503599627370496.

(** The exact value of a finite number, and whether the number is not
    negative (NaN is not). *)
Definition value (f : float) : Q :=
  match f with
  | S754_finite s m e =>
      (inject_Z (cond_Zopp s (Zpos m)) * (2 # 1) ^ e)%Q
  | _ => 0%Q
  end.

Definition nonneg (f : float) : bool := negb (ltb f zero).

(** One team with one player, in a race. *)
Definition one_player (intensity : jsnum) (lastShake : Z) (position : float)
    : GameState :=
  mkGameState {[ 0%nat := mkTeam 1 "Red" ["1000-a"] position zero ]}
              (mkSettings 7 3 1 (of_Z 1) baseSpeed0)
              [(1, 0%nat)]
              {[ "1000-a" := mkPlayer "1000-a" 1 intensity lastShake ]}
              racing (Some 1003) None.

End B64.

(** ** Proof automation *)

(** Case analysis over the dispatch of [handle]. *)
Ltac by_dispatch :=
  unfold handle; cbv zeta;
  repeat match goal with
         | |- context [if ?b then _ else _] =>
             match b with
             | context [String.eqb] => destruct b eqn:?
             end
         end.

(** ** Properties of the game loop *)

Lemma race_team_objs g b r :
  objs (fst (race_team (g, b) r)) =
    match objs g !! r with
    | Some team =>
        <[r := advance (settings g)
                 (total_intensity (players g) (t_players team)) team]> (objs g)
    | None => objs g
    end.
Proof.
  unfold race_team. destruct (objs g !! r) as [team|]; [|done].
  cbv zeta. by case (_ && _).
Qed.

Lemma race_team_frame g b r :
  players (fst (race_team (g, b) r)) = players g ∧
  settings (fst (race_team (g, b) r)) = settings g ∧
  teams (fst (race_team (g, b) r)) = teams g ∧
  nextRef (fst (race_team (g, b) r)) = nextRef g ∧
  raceStartTime (fst (race_team (g, b) r)) = raceStartTime g.
Proof.
  unfold race_team. destruct (objs g !! r) as [team|]; [|done].
  cbv zeta. by case (_ && _).
Qed.

Lemma race_fold_frame l : ∀ g b,
  players (fst (fold_left race_team l (g, b))) = players g ∧
  settings (fst (fold_left race_team l (g, b))) = settings g ∧
  teams (fst (fold_left race_team l (g, b))) = teams g.
Proof.
  induction l as [|r l IH]; intros g b; [done|].
  cbn [fold_left]. destruct (race_team (g, b) r) as [g1 b1] eqn:E.
  destruct (IH g1 b1) as (-> & -> & ->).
  pose proof (race_team_frame g b r) as F. rewrite E in F. cbn in F. tauto.
Qed.

Lemma race_players g : players (fst (race g)) = players g.
Proof.
  unfold race. destruct (gameStatus g); try done.
  destruct (fold_left race_team (active_teams g) (g, false)) as [g' hw] eqn:E.
  pose proof (race_fold_frame (active_teams g) g false) as F.
  rewrite E in F. cbn in F. tauto.
Qed.

Lemma tick_players now g :
  players (fst (tick now g)) = decay_player now <$> players g.
Proof.
  unfold tick. destruct (race g) as [g1 out] eqn:E. cbn.
  change g1 with (fst (g1, out)). by rewrite <- E, race_players.
Qed.

(** ** Frame properties of the handlers *)

Lemma add_team_frame l : ∀ g,
  let g' := fold_left add_team l g in
  settings g' = settings g ∧ players g' = players g ∧
  gameStatus g' = gameStatus g ∧ raceStartTime g' = raceStartTime g ∧
  winner g' = winner g.
Proof.
  induction l as [|i l IH]; intros g; [done|].
  cbn [fold_left]. cbv zeta. destruct (IH (add_team g i)) as (-> & -> & -> & -> & ->).
  done.
Qed.

Lemma initializeTeams_frame g :
  settings (initializeTeams g) = settings g ∧
  players (initializeTeams g) = players g ∧
  gameStatus (initializeTeams g) = gameStatus g ∧
  raceStartTime (initializeTeams g) = raceStartTime g ∧
  winner (initializeTeams g) = winner g.
Proof. unfold initializeTeams. apply (add_team_frame _ (clear_teams g)). Qed.

Lemma remove_player_frame pid g :
  settings (remove_player pid g) = settings g ∧
  teams (remove_player pid g) = teams g ∧
  gameStatus (remove_player pid g) = gameStatus g ∧
  raceStartTime (remove_player pid g) = raceStartTime g ∧
  winner (remove_player pid g) = winner g.
Proof. unfold remove_player. by destruct (players g !! pid). Qed.

Lemma race_team_winner_kept g b r w :
  winner g = Some w → winner (fst (race_team (g, b) r)) = Some w.
Proof.
  intros Hw. unfold race_team. destruct (objs g !! r) as [team|]; [|done].
  cbv zeta. cbn [winner set_objs]. rewrite Hw.
  rewrite bool_decide_eq_false_2 by done. by rewrite andb_false_r.
Qed.

Lemma race_fold_winner_kept l : ∀ g b w,
  winner g = Some w → winner (fst (fold_left race_team l (g, b))) = Some w.
Proof.
  induction l as [|r l IH]; intros g b w Hw; [done|].
  cbn [fold_left]. destruct (race_team (g, b) r) as [g1 b1] eqn:E.
  apply IH. change g1 with (fst (g1, b1)). rewrite <- E.
  by apply race_team_winner_kept.
Qed.

Lemma tick_winner_kept now g w :
  winner g = Some w → winner (fst (tick now g)) = Some w.
Proof.
  intros Hw. unfold tick, race. destruct (gameStatus g); try done.
  destruct (fold_left race_team (active_teams g) (g, false)) as [g' hw] eqn:E.
  cbn. change g' with (fst (g', hw)). rewrite <- E.
  by apply race_fold_winner_kept.
Qed.

Lemma register_player_frame ws now rnd d s :
  let g' := gameState (fst (register_player ws now rnd d s)) in
  settings g' = settings (gameState s) ∧ teams g' = teams (gameState s) ∧
  gameStatus g' = gameStatus (gameState s) ∧
  raceStartTime g' = raceStartTime (gameState s) ∧
  winner g' = winner (gameState s).
Proof.
  unfold register_player. cbv zeta.
  destruct (get_team _ _) as [[[k r] team]|]; [|done].
  by destruct (_ <=? _).
Qed.

Lemma update_shake_frame now d l s :
  let g' := gameState (fst (update_shake now d l s)) in
  objs g' = objs (gameState s) ∧
  settings g' = settings (gameState s) ∧ teams g' = teams (gameState s) ∧
  gameStatus g' = gameStatus (gameState s) ∧
  raceStartTime g' = raceStartTime (gameState s) ∧
  winner g' = winner (gameState s).
Proof.
  unfold update_shake. cbv zeta.
  destruct (playerId l) as [pid|]; [|done].
  destruct (truthy_str _); [|done].
  by destruct (players _ !! pid).
Qed.

Lemma update_settings_frame d l s :
  let g' := gameState (fst (update_settings d l s)) in
  players g' = players (gameState s) ∧
  gameStatus g' = gameStatus (gameState s) ∧
  raceStartTime g' = raceStartTime (gameState s) ∧
  winner g' = winner (gameState s).
Proof.
  unfold update_settings. cbv zeta.
  destruct (clientType l) as [[]|]; try done.
  cbn [fst gameState set_gameState].
  destruct (initializeTeams_frame
              (set_settings (apply_settings d (settings (gameState s))) (gameState s)))
    as (_ & -> & -> & -> & ->). done.
Qed.

Lemma handle_winner_kept ws now rnd d l s :
  String.eqb (type d) "start_race" = false →
  String.eqb (type d) "reset_game" = false →
  winner (gameState (fst (handle ws now rnd d l s))) = winner (gameState s).
Proof.
  intros H1 H2. by_dispatch; try done; try congruence.
  - apply register_player_frame.
  - apply update_shake_frame.
  - apply update_settings_frame.
Qed.

Lemma on_close_winner_kept ws s :
  winner (gameState (fst (on_close ws s))) = winner (gameState s).
Proof.
  unfold on_close. destruct (sockets s !! ws) as [l|]; [|done].
  destruct (clientType l) as [[]|]; try done.
  destruct (playerId l) as [pid|]; [|done].
  destruct (truthy_str _); [|done].
  cbn. apply remove_player_frame.
Qed.

Lemma step_winner_kept s e w :
  winner (gameState s) = Some w →
  is_type "start_race" e = false → is_type "reset_game" e = false →
  winner (gameState (fst (step s e))) = Some w.
Proof.
  intros Hw H1 H2. destruct e as [ws|ws now rnd [|d]|ws|now]; cbn [step].
  - done.
  - unfold on_message. by destruct (sockets s !! ws).
  - unfold on_message. destruct (sockets s !! ws) as [l|]; [|done].
    rewrite <- Hw. by apply handle_winner_kept.
  - by rewrite on_close_winner_kept.
  - destruct (tick now (gameState s)) as [g out] eqn:E. cbn.
    change g with (fst (g, out)). rewrite <- E. by apply tick_winner_kept.
Qed.

Lemma start_race_rejected now l s :
  start_accepted l (gameState s) = false → start_race now l s = (s, []).
Proof.
  unfold start_accepted, start_race. cbv zeta.
  destruct (is_operator l); [|done]. cbn. by intros ->.
Qed.

Lemma start_race_accepted now l s :
  start_accepted l (gameState s) = true →
  let g' := gameState (fst (start_race now l s)) in
  gameStatus g' = racing ∧ winner g' = None ∧ raceStartTime g' = Some now.
Proof.
  unfold start_accepted, start_race. cbv zeta.
  destruct (is_operator l); [|done]. cbn [andb]. by intros ->.
Qed.

Lemma handle_start_race ws now rnd d l s :
  String.eqb (type d) "start_race" = true →
  handle ws now rnd d l s = start_race now l s.
Proof.
  intros H. apply String.eqb_eq in H. unfold handle. cbv zeta. by rewrite H.
Qed.

Lemma step_same_race_winner s e w :
  winner (gameState s) = Some w →
  is_type "reset_game" e = false → accepted_start s e = false →
  winner (gameState (fst (step s e))) = Some w.
Proof.
  intros Hw H1 H2. destruct (is_type "start_race" e) eqn:H3.
  - destruct e as [ws|ws now rnd [|d]|ws|now]; try done.
    cbn in H3, H2. rewrite H3 in H2. cbn [step]. unfold on_message.
    destruct (sockets s !! ws) as [l|]; [|done].
    cbn in H2. by rewrite handle_start_race, start_race_rejected.
  - by apply step_winner_kept.
Qed.

(** C1, as amended. Once a winner is set, no tick, connection, disconnection
    or inbound message changes it until a [reset_game] is processed or a
    [start_race] is accepted; an accepted [start_race] clears it. *)
Theorem winner_immutable_within_race (s : Server) (es : list Event) (w : ref) :
  winner (gameState s) = Some w →
  same_race s es = true →
  winner (gameState (run s es)) = Some w ∧
  ∀ e, accepted_start (run s es) e = true →
       winner (gameState (fst (step (run s es) e))) = None.
Proof.
  intros Hw Hs. split.
  - revert s Hw Hs. induction es as [|e es IH]; intros s Hw Hs; [done|].
    cbn in Hs. apply andb_prop in Hs as [Hs Hr]. apply andb_prop in Hs as [Ha Hb].
    cbn. apply IH; [|done].
    apply step_same_race_winner; [done| |];
      by destruct (is_type _ _), (accepted_start _ _).
  - intros e He. destruct e as [ws|ws now rnd [|d]|ws|now]; try done.
    cbn in He. apply andb_prop in He as [Ht Ha]. cbn [step]. unfold on_message.
    destruct (sockets _ !! ws) as [l|]; [|done].
    rewrite handle_start_race by done. by apply start_race_accepted.
Qed.

Lemma winner_immutable_within_race_witness :
  winner (gameState (run server0 first_race)) = Some 0%nat ∧
  winner (gameState (run (run server0 first_race)
                         [Interval 1100; Message 1%nat 1110 EmptyString (Parsed (shake 5));
                          Message 2%nat 1111 "c" (Parsed (join 1 "Green"));
                          Close 2%nat; Interval 1150])) = Some 0%nat.
Proof.
  split; [vm_compute; reflexivity|].
  refine (proj1 (winner_immutable_within_race (run server0 first_race) _ 0%nat _ _));
    vm_compute; reflexivity.
Defined.

(** C1, counterexample. After a tick has set team 1 as the winner, a
    [start_race] clears the winner and a later tick sets team 2, with no
    [reset_game] in between. *)
Lemma winner_reassigned_without_reset :
  winner (gameState (run server0 first_race)) = Some 0%nat ∧
  forallb (fun e => negb (is_type "reset_game" e)) second_race = true ∧
  winner (gameState (run (run server0 first_race) (take 1 second_race))) = None ∧
  winner (gameState (run (run server0 first_race) second_race)) = Some 1%nat ∧
  t_id <$> winner_team (gameState (run server0 first_race)) = Some 1 ∧
  t_id <$> winner_team (gameState (run (run server0 first_race) second_race)) = Some 2.
Proof. vm_compute. repeat split; reflexivity. Qed.

(** ** Registration *)

Lemma handle_register_player ws now rnd d l s :
  String.eqb (type d) "register_player" = true →
  handle ws now rnd d l s = register_player ws now rnd d s.
Proof.
  intros H. apply String.eqb_eq in H. unfold handle. cbv zeta. by rewrite H.
Qed.

Lemma get_team_Some g teamId k r t :
  get_team g teamId = Some (k, r, t) →
  teamId = Some k ∧ team_ref g k = Some r ∧ objs g !! r = Some t.
Proof.
  unfold get_team. destruct teamId as [k'|]; [|done].
  destruct (team_ref g k') as [r'|] eqn:R; [|done].
  destruct (objs g !! r') as [t'|] eqn:E; [|done].
  intros [= <- <- <-]. done.
Qed.

Lemma joined_players pid n team :
  t_players (joined pid n team) = t_players team ++ [pid].
Proof. unfold joined. by destruct (_ && _). Qed.

Lemma joined_position pid n team :
  t_position (joined pid n team) = t_position team.
Proof. unfold joined. by destruct (_ && _). Qed.

Lemma register_player_cases ws now rnd d s :
  let g := gameState s in
  match get_team g (d_teamId d) with
  | None => register_player ws now rnd d s =
              (s, [(ToSocket ws, error_msg "Invalid team")])
  | Some (k, r, team) =>
      if (maxPlayers (settings g) <=? Z.of_nat (length (t_players team)))
      then register_player ws now rnd d s =
             (s, [(ToSocket ws, error_msg "Team is full")])
      else
        let pid := mk_player_id now rnd in
        let g' := gameState (fst (register_player ws now rnd d s)) in
        objs g' = <[r := joined pid (d_teamName d) team]> (objs g) ∧
        players g' = <[pid := mkPlayer pid k 0%Q now]> (players g) ∧
        teams g' = teams g ∧ settings g' = settings g ∧
        sockets (fst (register_player ws now rnd d s)) =
          <[ws := mkLocal (Some player) (Some pid)]> (sockets s) ∧
        clients (fst (register_player ws now rnd d s)) = <[pid := ws]> (clients s)
  end.
Proof.
  unfold register_player. cbv zeta.
  destruct (get_team _ _) as [[[k r] team]|]; [|done].
  by destruct (_ <=? _).
Qed.

Lemma register_player_capacity ws now rnd d s :
  within_capacity (gameState s) →
  within_capacity (gameState (fst (register_player ws now rnd d s))).
Proof.
  intros Hc. pose proof (register_player_cases ws now rnd d s) as C.
  cbv zeta in C.
  destruct (get_team _ _) as [[[k r] team]|] eqn:G; [|by rewrite C].
  destruct (_ <=? _) eqn:L; [by rewrite C|].
  destruct C as (Ho & _ & Ht & Hs & _). apply Z.leb_gt in L.
  intros k' r' t' Hin Hl. rewrite Ht in Hin. rewrite Hs. rewrite Ho in Hl.
  destruct (decide (r = r')) as [<-|Hne].
  - rewrite lookup_insert_eq in Hl. injection Hl as <-.
    rewrite joined_players, length_app. cbn. lia.
  - rewrite lookup_insert_ne in Hl by done. by eapply Hc.
Qed.

Lemma step_register_capacity s e :
  within_capacity (gameState s) → is_type "register_player" e = true →
  within_capacity (gameState (fst (step s e))).
Proof.
  intros Hc He. destruct e as [ws|ws now rnd [|d]|ws|now]; try done.
  cbn in He. cbn [step]. unfold on_message.
  destruct (sockets s !! ws) as [l|]; [|done].
  rewrite handle_register_player by done. by apply register_player_capacity.
Qed.

(** C2. Along every sequence of [register_player] messages no team exceeds
    [maxPlayers]; registering on a team that already has [maxPlayers]
    members (or more) sends "Team is full" to the sender only and leaves the
    whole server state unchanged. *)
Theorem capacity_never_exceeded (s : Server) (es : list Event) :
  within_capacity (gameState s) →
  forallb (is_type "register_player") es = true →
  within_capacity (gameState (run s es)) ∧
  ∀ ws now rnd d l k r t,
    sockets (run s es) !! ws = Some l →
    type d = "register_player" →
    get_team (gameState (run s es)) (d_teamId d) = Some (k, r, t) →
    maxPlayers (settings (gameState (run s es))) ≤ Z.of_nat (length (t_players t)) →
    step (run s es) (Message ws now rnd (Parsed d)) =
      (run s es, [(ToSocket ws, error_msg "Team is full")]).
Proof.
  intros Hc Hes. split.
  - revert s Hc Hes. induction es as [|e es IH]; intros s Hc Hes; [done|].
    cbn in Hes. apply andb_prop in Hes as [He Hes]. cbn. apply IH; [|done].
    by apply step_register_capacity.
  - intros ws now rnd d l k r t Hl Hty Hg Hfull. cbn [step]. unfold on_message.
    rewrite Hl. rewrite handle_register_player by (by rewrite Hty).
    pose proof (register_player_cases ws now rnd d (run s es)) as C.
    cbv zeta in C. rewrite Hg in C.
    apply Z.leb_le in Hfull. by rewrite Hfull in C.
Qed.

Lemma within_capacityb_true g : within_capacityb g = true → within_capacity g.
Proof.
  unfold within_capacityb, within_capacity. rewrite forallb_forall.
  intros H k r t Hin Hl. apply list_elem_of_In in Hin.
  specialize (H _ Hin). cbn in H. rewrite Hl in H. by apply Z.leb_le.
Qed.

Lemma capacity_never_exceeded_witness :
  within_capacity (gameState (run lobby three_joins)) ∧
  step (run lobby three_joins) (Message 4%nat 1003 "d" (Parsed (join 1 "Pink"))) =
    (run lobby three_joins, [(ToSocket 4%nat, error_msg "Team is full")]).
Proof.
  destruct (capacity_never_exceeded lobby three_joins) as [H1 H2].
  - apply within_capacityb_true. vm_compute. reflexivity.
  - vm_compute. reflexivity.
  - split; [exact H1|].
    eapply H2;
      [vm_compute; reflexivity | reflexivity | vm_compute; reflexivity
      | vm_compute; congruence].
Defined.

(** ** The status machine *)

Lemma race_team_status g b r :
  gameStatus (fst (race_team (g, b) r)) = gameStatus g ∨
  gameStatus (fst (race_team (g, b) r)) = finished.
Proof.
  unfold race_team. destruct (objs g !! r) as [team|]; [|by left].
  cbv zeta. case (_ && _); [by right|by left].
Qed.

Lemma race_fold_status l : ∀ g b,
  gameStatus (fst (fold_left race_team l (g, b))) = gameStatus g ∨
  gameStatus (fst (fold_left race_team l (g, b))) = finished.
Proof.
  induction l as [|r l IH]; intros g b; [by left|].
  cbn [fold_left]. destruct (race_team (g, b) r) as [g1 b1] eqn:E.
  destruct (IH g1 b1) as [->| ->]; [|by right].
  change g1 with (fst (g1, b1)). rewrite <- E. apply race_team_status.
Qed.

Lemma tick_status now g :
  gameStatus (fst (tick now g)) = gameStatus g ∨
  (gameStatus g = racing ∧ gameStatus (fst (tick now g)) = finished).
Proof.
  unfold tick, race. destruct (gameStatus g) eqn:S; cbn; try (by left).
  destruct (fold_left race_team (active_teams g) (g, false)) as [g' hw] eqn:E.
  cbn. change g' with (fst (g', hw)). rewrite <- E.
  destruct (race_fold_status (active_teams g) g false) as [->| ->];
    [by left|by right].
Qed.

Lemma handle_status_kept ws now rnd d l s :
  String.eqb (type d) "start_race" = false →
  String.eqb (type d) "reset_game" = false →
  gameStatus (gameState (fst (handle ws now rnd d l s))) = gameStatus (gameState s).
Proof.
  intros H1 H2. by_dispatch; try done; try congruence.
  - apply register_player_frame.
  - apply update_shake_frame.
  - apply update_settings_frame.
Qed.

Lemma on_close_status_kept ws s :
  gameStatus (gameState (fst (on_close ws s))) = gameStatus (gameState s).
Proof.
  unfold on_close. destruct (sockets s !! ws) as [l|]; [|done].
  destruct (clientType l) as [[]|]; try done.
  destruct (playerId l) as [pid|]; [|done].
  destruct (truthy_str _); [|done].
  cbn. apply remove_player_frame.
Qed.

Lemma step_start_race_rejected s e :
  is_type "start_race" e = true → accepted_start s e = false →
  step s e = (s, []).
Proof.
  intros H3 H2. destruct e as [ws|ws now rnd [|d]|ws|now]; try done.
  cbn in H3, H2. rewrite H3 in H2. cbn [step]. unfold on_message.
  destruct (sockets s !! ws) as [l|]; [|done].
  cbn in H2. by rewrite handle_start_race, start_race_rejected.
Qed.

Lemma step_start_race_accepted s e :
  accepted_start s e = true →
  gameStatus (gameState (fst (step s e))) = racing.
Proof.
  intros He. destruct e as [ws|ws now rnd [|d]|ws|now]; try done.
  cbn in He. apply andb_prop in He as [Ht Ha]. cbn [step]. unfold on_message.
  destruct (sockets _ !! ws) as [l|]; [|done].
  rewrite handle_start_race by done. by apply start_race_accepted.
Qed.

Lemma step_status s e :
  is_type "reset_game" e = false → accepted_start s e = false →
  gameStatus (gameState (fst (step s e))) = gameStatus (gameState s) ∨
  (gameStatus (gameState s) = racing ∧
   gameStatus (gameState (fst (step s e))) = finished).
Proof.
  intros H1 H2. destruct (is_type "start_race" e) eqn:H3.
  { left. by rewrite step_start_race_rejected. }
  destruct e as [ws|ws now rnd [|d]|ws|now]; cbn [step].
  - by left.
  - left. unfold on_message. by destruct (sockets s !! ws).
  - left. unfold on_message. destruct (sockets s !! ws) as [l|]; [|done].
    by apply handle_status_kept.
  - left. apply on_close_status_kept.
  - destruct (tick now (gameState s)) as [g out] eqn:E. cbn.
    change g with (fst (g, out)). rewrite <- E. apply tick_status.
Qed.

(** C3, as amended. From [finished] no event other than a [reset_game] or an
    accepted [start_race] changes the status; a rejected [start_race] leaves
    the whole state unchanged, an accepted one sets the status to [racing]
    from any status; only [reset_game] leads back to [registration]. *)
Theorem status_transitions (s : Server) (e : Event) :
  (gameStatus (gameState s) = finished →
   is_type "reset_game" e = false → accepted_start s e = false →
   gameStatus (gameState (fst (step s e))) = finished) ∧
  (is_type "start_race" e = true → accepted_start s e = false →
   step s e = (s, [])) ∧
  (accepted_start s e = true →
   gameStatus (gameState (fst (step s e))) = racing) ∧
  (gameStatus (gameState s) ≠ registration →
   gameStatus (gameState (fst (step s e))) = registration →
   is_type "reset_game" e = true).
Proof.
  split; [|split; [|split]].
  - intros Hf H1 H2. destruct (step_status s e H1 H2) as [->|[? ?]]; congruence.
  - apply step_start_race_rejected.
  - apply step_start_race_accepted.
  - intros Hn Hr. destruct (is_type "reset_game" e) eqn:H1; [done|].
    destruct (accepted_start s e) eqn:H2.
    + rewrite step_start_race_accepted in Hr by done. done.
    + destruct (step_status s e H1 H2) as [E|[? E]]; congruence.
Qed.

Lemma status_transitions_witness :
  gameStatus (gameState (fst (step (run server0 first_race)
     (Message 1%nat 1100 EmptyString (Parsed (shake 5)))))) = finished ∧
  step (run server0 first_race) (Message 1%nat 1100 EmptyString (Parsed (plain "start_race")))
    = (run server0 first_race, []) ∧
  gameStatus (gameState (fst (step (run server0 first_race)
     (Message 3%nat 1100 EmptyString (Parsed (plain "start_race")))))) = racing ∧
  is_type "reset_game" (Message 3%nat 1100 EmptyString (Parsed (plain "reset_game"))) = true.
Proof.
  split; [|split; [|split]].
  - apply (proj1 (status_transitions (run server0 first_race)
                    (Message 1%nat 1100 EmptyString (Parsed (shake 5)))));
      vm_compute; reflexivity.
  - apply (proj1 (proj2 (status_transitions (run server0 first_race)
                    (Message 1%nat 1100 EmptyString (Parsed (plain "start_race"))))));
      vm_compute; reflexivity.
  - apply (proj1 (proj2 (proj2 (status_transitions (run server0 first_race)
                    (Message 3%nat 1100 EmptyString (Parsed (plain "start_race")))))));
      vm_compute; reflexivity.
  - apply (proj2 (proj2 (proj2 (status_transitions (run server0 first_race)
                    (Message 3%nat 1100 EmptyString (Parsed (plain "reset_game")))))));
      vm_compute; [congruence|reflexivity].
Defined.

(** C3, counterexample. With the race finished, a [start_race] from the admin
    moves the status to [racing]; during a race it rewinds the positions. *)
Lemma start_race_leaves_finished :
  gameStatus (gameState (run server0 first_race)) = finished ∧
  is_type "reset_game" (Message 3%nat 1100 EmptyString (Parsed (plain "start_race"))) = false ∧
  gameStatus (gameState (fst (step (run server0 first_race)
     (Message 3%nat 1100 EmptyString (Parsed (plain "start_race")))))) = racing ∧
  gameStatus (gameState (run server0 mid_race)) = racing ∧
  (∃ q, position_at (gameState (run server0 mid_race)) 1 = Some q ∧ (0 < q)%Q) ∧
  position_at (gameState (fst (step (run server0 mid_race)
     (Message 3%nat 1100 EmptyString (Parsed (plain "start_race")))))) 1 = Some 0%Q.
Proof.
  do 4 (split; [vm_compute; reflexivity|]).
  split; [|vm_compute; reflexivity].
  eexists. split; vm_compute; reflexivity.
Qed.

(** ** Freshly built rosters *)

Lemma add_team_fresh g i : fresh_roster g → fresh_roster (add_team g i).
Proof.
  intros [Hnd Hall]. split.
  - unfold team_values, add_team. cbn [teams]. rewrite fmap_app. cbn.
    apply NoDup_app. split; [done|]. split; [|apply NoDup_singleton].
    intros r Hr Hr'. apply list_elem_of_singleton in Hr'. subst r.
    apply list_elem_of_fmap in Hr as ([k r] & Heq & Hin). cbn in Heq. subst r.
    destruct (Hall _ _ Hin) as [Hlt _]. lia.
  - intros k r Hin. unfold add_team in Hin |- *. cbn [teams nextRef objs] in *.
    apply elem_of_app in Hin as [Hin|Hin].
    + destruct (Hall _ _ Hin) as [Hlt Ho]. split; [lia|].
      rewrite lookup_insert_ne by lia. done.
    + apply list_elem_of_singleton in Hin. injection Hin as -> ->.
      split; [lia|]. by rewrite lookup_insert_eq.
Qed.

Lemma fold_add_team_fresh l : ∀ g,
  fresh_roster g → fresh_roster (fold_left add_team l g).
Proof.
  induction l as [|i l IH]; intros g H; [done|].
  cbn [fold_left]. by apply IH, add_team_fresh.
Qed.

Lemma initializeTeams_fresh g : fresh_roster (initializeTeams g).
Proof.
  unfold initializeTeams. apply fold_add_team_fresh. split.
  - cbn. apply NoDup_nil_2.
  - intros k r Hin. cbn in Hin. by apply elem_of_nil in Hin.
Qed.

(** ** The roster between rebuilds *)

Lemma tick_teams now g : teams (fst (tick now g)) = teams g.
Proof.
  unfold tick, race. destruct (gameStatus g); try done.
  destruct (fold_left race_team (active_teams g) (g, false)) as [g' hw] eqn:E.
  cbn. pose proof (race_fold_frame (active_teams g) g false) as F.
  rewrite E in F. cbn in F. tauto.
Qed.

Lemma start_race_teams now l s :
  teams (gameState (fst (start_race now l s))) = teams (gameState s).
Proof.
  unfold start_race. cbv zeta. destruct (is_operator l); [|done].
  by destruct (_ <=? _).
Qed.

Lemma step_teams_kept s e :
  is_type "reset_game" e = false → is_type "update_settings" e = false →
  teams (gameState (fst (step s e))) = teams (gameState s).
Proof.
  intros H1 H2. destruct e as [ws|ws now rnd [|d]|ws|now]; cbn [step].
  - done.
  - unfold on_message. by destruct (sockets s !! ws).
  - unfold on_message. destruct (sockets s !! ws) as [l|]; [|done].
    cbn in H1, H2. by_dispatch; try done; try congruence.
    + apply register_player_frame.
    + apply update_shake_frame.
    + apply start_race_teams.
  - unfold on_close. destruct (sockets s !! ws) as [l|]; [|done].
    destruct (clientType l) as [[]|]; try done.
    destruct (playerId l) as [pid|]; [|done].
    destruct (truthy_str _); [|done].
    cbn. apply remove_player_frame.
  - destruct (tick now (gameState s)) as [g out] eqn:E. cbn.
    change g with (fst (g, out)). rewrite <- E. apply tick_teams.
Qed.



(** The sibling path: an accepted [reset_game] empties the registry before
    it rebuilds the roster, and leaves the two in agreement. *)
Lemma reset_game_consistent l s :
  is_operator l = true → consistent (gameState (fst (reset_game l s))).
Proof.
  intros Hop. unfold reset_game. cbv zeta. rewrite Hop. cbn [fst gameState set_clients set_gameState].
  set (g1 := set_players _ _).
  destruct (initializeTeams_frame g1) as (_ & Hp & _).
  destruct (initializeTeams_fresh g1) as [_ Hall]. split.
  - intros pid p. rewrite Hp. unfold g1. cbn. by rewrite lookup_empty.
  - intros k r t pid Hin Hr Hm. destruct (Hall _ _ Hin) as [_ Ho].
    rewrite Ho in Hr. injection Hr as <-. cbn in Hm. by apply elem_of_nil in Hm.
Qed.

Lemma start_race_settings now l s :
  settings (gameState (fst (start_race now l s))) = settings (gameState s).
Proof.
  unfold start_race. cbv zeta. destruct (is_operator l); [|done].
  by destruct (_ <=? _).
Qed.

Lemma tick_settings now g : settings (fst (tick now g)) = settings g.
Proof.
  unfold tick, race. destruct (gameStatus g); try done.
  destruct (fold_left race_team (active_teams g) (g, false)) as [g' hw] eqn:E.
  cbn. pose proof (race_fold_frame (active_teams g) g false) as F.
  rewrite E in F. cbn in F. tauto.
Qed.

Lemma step_baseSpeed s e :
  baseSpeed (settings (gameState (fst (step s e)))) = baseSpeed (settings (gameState s)).
Proof.
  destruct e as [ws|ws now rnd [|d]|ws|now]; cbn [step].
  - done.
  - unfold on_message. by destruct (sockets s !! ws).
  - unfold on_message. destruct (sockets s !! ws) as [l|]; [|done].
    by_dispatch; try done.
    + f_equal. apply register_player_frame.
    + f_equal. apply update_shake_frame.
    + f_equal. apply start_race_settings.
    + unfold update_settings. cbv zeta. destruct (clientType l) as [[]|]; try done.
      cbn [fst gameState set_gameState].
      by destruct (initializeTeams_frame
              (set_settings (apply_settings d (settings (gameState s))) (gameState s)))
        as (-> & _).
    + unfold reset_game. cbv zeta. destruct (is_operator l); [|done].
      cbn [fst gameState set_gameState set_clients].
      by destruct (initializeTeams_frame
              (set_players ∅ (set_winner None (set_raceStartTime None
                 (set_gameStatus registration (gameState s))))))
        as (-> & _).
  - unfold on_close. destruct (sockets s !! ws) as [l|]; [|done].
    destruct (clientType l) as [[]|]; try done.
    destruct (playerId l) as [pid|]; [|done].
    destruct (truthy_str _); [|done].
    cbn. f_equal. apply remove_player_frame.
  - destruct (tick now (gameState s)) as [g out] eqn:E. cbn.
    change g with (fst (g, out)). by rewrite <- E, tick_settings.
Qed.

(** The intensity of a listed member with a record is a summand of the
    team's aggregate. *)
Lemma total_intensity_acc (ps : gmap string Player) members : ∀ acc,
  (fold_left (fun acc pid =>
                match ps !! pid with
                | Some p => (acc + p_shakeIntensity p)%Q
                | None => acc
                end) members acc
   == acc + total_intensity ps members)%Q.
Proof.
  unfold total_intensity.
  induction members as [|pid members IH]; intros acc; cbn [fold_left]; [lra|].
  destruct (ps !! pid) as [p|].
  - pose proof (IH (acc + p_shakeIntensity p)%Q).
    pose proof (IH (0 + p_shakeIntensity p)%Q). lra.
  - apply IH.
Qed.

Lemma member_contributes (ps : gmap string Player) members pid p :
  pid ∈ members → ps !! pid = Some p →
  ∃ l1 l2, members = l1 ++ pid :: l2 ∧
    (total_intensity ps members ==
     total_intensity ps l1 + p_shakeIntensity p + total_intensity ps l2)%Q.
Proof.
  intros Hin Hp. apply list_elem_of_split in Hin as (l1 & l2 & ->).
  exists l1, l2. split; [done|].
  unfold total_intensity at 1. rewrite fold_left_app. cbn [fold_left]. rewrite Hp.
  fold (total_intensity ps l1). apply total_intensity_acc.
Qed.

(** ** Positions *)

Lemma tick_objs_idle now g :
  gameStatus g ≠ racing → objs (fst (tick now g)) = objs g.
Proof. unfold tick, race. by destruct (gameStatus g). Qed.

Lemma race_team_finish g b r :
  winner g = None ∨ gameStatus g = finished →
  winner (fst (race_team (g, b) r)) = None ∨
  gameStatus (fst (race_team (g, b) r)) = finished.
Proof.
  unfold race_team. destruct (objs g !! r) as [team|]; [|done].
  cbv zeta. case (_ && _); [by right|done].
Qed.

Lemma race_fold_finish l : ∀ g b,
  winner g = None ∨ gameStatus g = finished →
  winner (fst (fold_left race_team l (g, b))) = None ∨
  gameStatus (fst (fold_left race_team l (g, b))) = finished.
Proof.
  induction l as [|r l IH]; intros g b H; [done|].
  cbn [fold_left]. destruct (race_team (g, b) r) as [g1 b1] eqn:E.
  apply IH. change g1 with (fst (g1, b1)). rewrite <- E.
  by apply race_team_finish.
Qed.

Lemma tick_finish now g :
  winner g = None → is_Some (winner (fst (tick now g))) →
  gameStatus (fst (tick now g)) = finished.
Proof.
  intros Hn. unfold tick, race. destruct (gameStatus g) eqn:S; cbn.
  1, 3: rewrite Hn; by intros [? ?].
  destruct (fold_left race_team (active_teams g) (g, false)) as [g' hw] eqn:E.
  cbn. intros [w Hw].
  destruct (race_fold_finish (active_teams g) g false (or_introl Hn)) as [H|H];
    rewrite E in H; cbn in H; congruence.
Qed.

Lemma keeps_position_refl o r t : o !! r = Some t → keeps_position o o r t.
Proof. intros H. by exists t. Qed.

Lemma register_player_position ws now rnd d s r t :
  objs (gameState s) !! r = Some t →
  keeps_position (objs (gameState s))
    (objs (gameState (fst (register_player ws now rnd d s)))) r t.
Proof.
  intros Hr. pose proof (register_player_cases ws now rnd d s) as C.
  cbv zeta in C.
  destruct (get_team _ _) as [[[k r0] team]|] eqn:G;
    [|rewrite C; by apply keeps_position_refl].
  destruct (_ <=? _); [rewrite C; by apply keeps_position_refl|].
  destruct C as (-> & _). apply get_team_Some in G as (_ & _ & G).
  destruct (decide (r0 = r)) as [->|Hne].
  - eexists. rewrite lookup_insert_eq. split; [done|].
    rewrite joined_position. congruence.
  - exists t. by rewrite lookup_insert_ne.
Qed.

Lemma remove_player_position pid g r t :
  objs g !! r = Some t →
  keeps_position (objs g) (objs (remove_player pid g)) r t.
Proof.
  intros Hr. unfold remove_player.
  destruct (players g !! pid) as [p|]; [|by apply keeps_position_refl].
  cbn [objs set_players set_objs].
  destruct (get_team g (Some (p_teamId p))) as [[[k r0] team]|] eqn:G;
    [|by apply keeps_position_refl].
  apply get_team_Some in G as (_ & _ & G).
  destruct (decide (r0 = r)) as [->|Hne].
  - eexists. rewrite lookup_insert_eq. split; [done|]. cbn. congruence.
  - exists t. by rewrite lookup_insert_ne.
Qed.

Lemma handle_position ws now rnd d l s r t :
  String.eqb (type d) "start_race" = false →
  String.eqb (type d) "update_settings" = false →
  String.eqb (type d) "reset_game" = false →
  objs (gameState s) !! r = Some t →
  keeps_position (objs (gameState s))
    (objs (gameState (fst (handle ws now rnd d l s)))) r t.
Proof.
  intros H1 H2 H3 Hr. by_dispatch; try congruence;
    try (by apply keeps_position_refl).
  - by apply register_player_position.
  - destruct (update_shake_frame now d l s) as (-> & _).
    by apply keeps_position_refl.
Qed.

Lemma on_close_position ws s r t :
  objs (gameState s) !! r = Some t →
  keeps_position (objs (gameState s)) (objs (gameState (fst (on_close ws s)))) r t.
Proof.
  intros Hr. unfold on_close.
  destruct (sockets s !! ws) as [l|]; [|by apply keeps_position_refl].
  destruct (clientType l) as [[]|]; try (by apply keeps_position_refl).
  destruct (playerId l) as [pid|]; [|by apply keeps_position_refl].
  destruct (truthy_str _); [|by apply keeps_position_refl].
  cbn. by apply remove_player_position.
Qed.

Lemma step_position s e r t :
  gameStatus (gameState s) ≠ racing →
  is_type "reset_game" e = false → is_type "update_settings" e = false →
  accepted_start s e = false →
  objs (gameState s) !! r = Some t →
  keeps_position (objs (gameState s)) (objs (gameState (fst (step s e)))) r t.
Proof.
  intros Hst H1 H2 H3 Hr. destruct (is_type "start_race" e) eqn:H4.
  { rewrite step_start_race_rejected by done. by apply keeps_position_refl. }
  destruct e as [ws|ws now rnd [|d]|ws|now]; cbn [step].
  - by apply keeps_position_refl.
  - unfold on_message. destruct (sockets s !! ws); by apply keeps_position_refl.
  - unfold on_message.
    destruct (sockets s !! ws) as [l|]; [|by apply keeps_position_refl].
    by apply handle_position.
  - by apply on_close_position.
  - destruct (tick now (gameState s)) as [g out] eqn:E. cbn.
    change g with (fst (g, out)). rewrite <- E, tick_objs_idle by done.
    by apply keeps_position_refl.
Qed.

(** C4, counterexample. A negative reported intensity moves the team
    backwards in a racing tick; and after a winner is set a [start_race],
    with no reset, rewinds the winning team from beyond the line to 0. *)
Lemma position_decreases_and_rewinds :
  gameStatus (gameState (run server0 backwards)) = racing ∧
  (∃ q q', position_at (gameState (run server0 backwards)) 1 = Some q ∧
           position_at (fst (tick 1050 (gameState (run server0 backwards)))) 1 = Some q' ∧
           (q' < q)%Q) ∧
  is_Some (winner (gameState (run server0 first_race))) ∧
  (∃ q, position_at (gameState (run server0 first_race)) 1 = Some q ∧
        (1000 <= q)%Q) ∧
  position_at (gameState (fst (step (run server0 first_race)
     (Message 3%nat 1100 EmptyString (Parsed (plain "start_race")))))) 1 = Some 0%Q.
Proof.
  split; [vm_compute; reflexivity|]. split.
  { do 2 eexists. split; [vm_compute; reflexivity|].
    split; [vm_compute; reflexivity|]. vm_compute. reflexivity. }
  split; [vm_compute; eauto|]. split.
  { eexists. split; [vm_compute; reflexivity|]. vm_compute. congruence. }
  vm_compute. reflexivity.
Qed.

(** ** Order of integration and decay *)

Lemma race_fold_untouched r l : ∀ g b,
  r ∉ l → objs (fst (fold_left race_team l (g, b))) !! r = objs g !! r.
Proof.
  induction l as [|r0 l IH]; intros g b Hn; [done|].
  apply not_elem_of_cons in Hn as [Hne Hn].
  cbn [fold_left]. destruct (race_team (g, b) r0) as [g1 b1] eqn:E.
  rewrite IH by done. pose proof (race_team_objs g b r0) as Ho.
  rewrite E in Ho. cbn [fst] in Ho. rewrite Ho.
  destruct (objs g !! r0); [|done]. by rewrite lookup_insert_ne.
Qed.

Lemma race_fold_advance r t l : ∀ g b,
  NoDup l → r ∈ l → objs g !! r = Some t →
  objs (fst (fold_left race_team l (g, b))) !! r =
    Some (advance (settings g) (total_intensity (players g) (t_players t)) t).
Proof.
  induction l as [|r0 l IH]; intros g b Hnd Hin Hr.
  { by apply elem_of_nil in Hin. }
  apply NoDup_cons in Hnd as [Hnotin Hnd].
  cbn [fold_left]. destruct (race_team (g, b) r0) as [g1 b1] eqn:E.
  pose proof (race_team_objs g b r0) as Ho.
  pose proof (race_team_frame g b r0) as (Hp & Hst & _).
  rewrite E in Ho, Hp, Hst. cbn [fst] in Ho, Hp, Hst.
  destruct (decide (r0 = r)) as [->|Hne].
  - rewrite race_fold_untouched by done. rewrite Ho, Hr.
    by rewrite lookup_insert_eq.
  - apply elem_of_cons in Hin as [->|Hin]; [done|].
    rewrite <- Hp, <- Hst. apply IH; [done|done|].
    rewrite Ho. destruct (objs g !! r0); [|done]. by rewrite lookup_insert_ne.
Qed.

Lemma active_teams_NoDup g : NoDup (team_values g) → NoDup (active_teams g).
Proof.
  rewrite !NoDup_ListNoDup. apply List.NoDup_filter.
Qed.

Lemma active_teams_elem g r t :
  r ∈ team_values g → objs g !! r = Some t → t_players t ≠ [] →
  r ∈ active_teams g.
Proof.
  intros Hin Hr Hne. apply list_elem_of_In, filter_In.
  split; [by apply list_elem_of_In|].
  unfold has_members. rewrite Hr. by destruct (t_players t).
Qed.

(** C5, as amended. In a racing tick the position integration runs first, on
    the intensities as they stand before the decay pass of that tick: every
    team with members advances by the sum of its members' not yet decayed
    intensities, and only then is the registry decayed. *)
Theorem integrate_then_decay (g : GameState) (now : Z) (r : ref) (t : Team) :
  gameStatus g = racing →
  NoDup (team_values g) → r ∈ team_values g →
  objs g !! r = Some t → t_players t ≠ [] →
  (∃ t', objs (fst (tick now g)) !! r = Some t' ∧
         t_shakeIntensity t' = total_intensity (players g) (t_players t) ∧
         t_position t' =
           (t_position t +
            total_intensity (players g) (t_players t)
              * speedCoef (settings g) * baseSpeed (settings g) * (5 # 100))%Q) ∧
  players (fst (tick now g)) = decay_player now <$> players g.
Proof.
  intros Hst Hnd Hin Hr Hne. split; [|apply tick_players].
  unfold tick, race. rewrite Hst.
  destruct (fold_left race_team (active_teams g) (g, false)) as [g' hw] eqn:E.
  cbn [fst decay objs set_players].
  change g' with (fst (g', hw)). rewrite <- E.
  rewrite (race_fold_advance r t (active_teams g) g false
             (active_teams_NoDup g Hnd) (active_teams_elem g r t Hin Hr Hne) Hr).
  eexists. split; [reflexivity|]. done.
Qed.

Lemma integrate_then_decay_witness :
  ∃ t', objs (fst (tick 2000 (gameState (run server0 stale_race)))) !! 0%nat = Some t' ∧
        t_shakeIntensity t' = (0 + 1)%Q.
Proof.
  pose (t := default (new_team 0) (objs (gameState (run server0 stale_race)) !! 0%nat)).
  assert (Ht : objs (gameState (run server0 stale_race)) !! 0%nat = Some t)
    by (vm_compute; reflexivity).
  destruct (integrate_then_decay (gameState (run server0 stale_race)) 2000 0%nat t)
    as [(t' & H1 & H2 & _) _].
  - vm_compute. reflexivity.
  - apply NoDup_ListNoDup. vm_compute. repeat constructor; cbn; lia.
  - apply list_elem_of_In. vm_compute. tauto.
  - exact Ht.
  - vm_compute. congruence.
  - exists t'. split; [exact H1|]. rewrite H2. vm_compute. reflexivity.
Defined.

(** C5, counterexample. The only player of team 1 reported intensity 1 long
    before the tick. The tick advances the team with intensity 1, to 5/33,
    and records 1 as the team's aggregate, although the player leaves the
    tick with intensity 1/2; decaying first would have advanced it to 5/66. *)
Lemma integration_uses_undecayed_intensity :
  gameStatus (gameState (run server0 stale_race)) = racing ∧
  (∃ q, position_at (fst (tick 2000 (gameState (run server0 stale_race)))) 1 = Some q ∧
        (q == 5 # 33)%Q) ∧
  (∃ q, position_at (fst (tick_decay_first 2000 (gameState (run server0 stale_race)))) 1
          = Some q ∧ (q == 5 # 66)%Q) ∧
  (∃ q, t_shakeIntensity <$> team_at (fst (tick 2000 (gameState (run server0 stale_race)))) 1
          = Some q ∧ (q == 1)%Q) ∧
  (∃ p, players (fst (tick 2000 (gameState (run server0 stale_race)))) !! "1000-a"
          = Some p ∧ (p_shakeIntensity p == 1 # 2)%Q).
Proof.
  split; [vm_compute; reflexivity|].
  repeat split; eexists; (split; [vm_compute; reflexivity|]); vm_compute; reflexivity.
Qed.

(** ** Team names *)

Lemma team_at_eq g k :
  team_at g k = match team_ref g k with
                | Some r => objs g !! r
                | None => None
                end.
Proof.
  unfold team_at, get_team. destruct (team_ref g k) as [r|]; [|done].
  by destruct (objs g !! r).
Qed.

Lemma team_ref_teams g g' k : teams g' = teams g → team_ref g' k = team_ref g k.
Proof. unfold team_ref. by intros ->. Qed.

Lemma team_at_get g k t :
  team_at g k = Some t → ∃ r, get_team g (Some k) = Some (k, r, t).
Proof.
  unfold team_at, get_team. destruct (team_ref g k) as [r|]; [|done].
  destruct (objs g !! r) as [t'|]; [|done]. cbn. intros [= ->]. by exists r.
Qed.

Lemma joined_name_populated pid n team :
  t_players team ≠ [] → t_name (joined pid n team) = t_name team.
Proof. unfold joined. by destruct (t_players team). Qed.

Lemma joined_name_first pid n team :
  t_players team = [] → n ≠ EmptyString → t_name (joined pid (Some n) team) = n.
Proof.
  unfold joined. intros -> Hn. cbn.
  destruct (String.eqb n EmptyString) eqn:E; [by apply String.eqb_eq in E|done].
Qed.

Lemma register_player_name ws now rnd d s k t :
  team_at (gameState s) k = Some t → t_players t ≠ [] →
  name_at (gameState (fst (register_player ws now rnd d s))) k = Some (t_name t).
Proof.
  intros Ht Hne. unfold name_at.
  pose proof (register_player_cases ws now rnd d s) as C. cbv zeta in C.
  destruct (get_team _ _) as [[[k0 r0] team]|] eqn:G;
    [|rewrite C; cbn [fst]; by rewrite Ht].
  destruct (_ <=? _); [rewrite C; cbn [fst]; by rewrite Ht|].
  destruct C as (Ho & _ & Hts & _).
  rewrite team_at_eq in Ht |- *. rewrite (team_ref_teams _ _ _ Hts).
  destruct (team_ref (gameState s) k) as [r|]; [|done].
  apply get_team_Some in G as (_ & _ & G). rewrite Ho.
  destruct (decide (r0 = r)) as [->|Hr].
  - rewrite lookup_insert_eq. rewrite G in Ht. injection Ht as ->.
    cbn [fmap option_fmap option_map]. by rewrite joined_name_populated.
  - rewrite lookup_insert_ne by done. by rewrite Ht.
Qed.

(** C6, as amended. A [register_player] never alters the name of a team that
    has at least one member at that moment, whatever name is proposed; on a
    team whose member list is empty, a registrant with a non-empty name sets
    the name. *)
Theorem name_kept_while_populated (s : Server) (e : Event) (k : Z) (t : Team) :
  is_type "register_player" e = true →
  team_at (gameState s) k = Some t →
  (t_players t ≠ [] →
   name_at (gameState (fst (step s e))) k = Some (t_name t)) ∧
  (∀ ws now rnd d l n,
     e = Message ws now rnd (Parsed d) → sockets s !! ws = Some l →
     d_teamId d = Some k → d_teamName d = Some n → n ≠ EmptyString →
     t_players t = [] → 0 < maxPlayers (settings (gameState s)) →
     name_at (gameState (fst (step s e))) k = Some n).
Proof.
  intros He Ht. split.
  - intros Hne. destruct e as [ws|ws now rnd [|d]|ws|now]; try done.
    cbn in He. cbn [step]. unfold on_message.
    destruct (sockets s !! ws) as [l|]; cbn [fst].
    + rewrite handle_register_player by done. by apply register_player_name.
    + unfold name_at. by rewrite Ht.
  - intros ws now rnd d l n -> Hl Hk Hn Hnn Hempty Hmax. cbn in He.
    cbn [step]. unfold on_message. rewrite Hl, handle_register_player by done.
    pose proof (register_player_cases ws now rnd d s) as C. cbv zeta in C.
    destruct (team_at_get _ _ _ Ht) as [r G]. rewrite Hk, G in C.
    rewrite Hempty in C. cbn [length] in C.
    destruct (_ <=? _) eqn:L; [apply Z.leb_le in L; cbn in L; lia|].
    destruct C as (Ho & _ & Hts & _).
    apply get_team_Some in G as (_ & G & _).
    unfold name_at. rewrite team_at_eq, (team_ref_teams _ _ _ Hts), G, Ho.
    rewrite lookup_insert_eq. cbn [fmap option_fmap option_map].
    rewrite Hn. by rewrite joined_name_first.
Qed.

Lemma name_kept_while_populated_witness :
  name_at (gameState (fst (step (run lobby (take 1 three_joins))
             (Message 2%nat 1001 "b" (Parsed (join 1 "Blue")))))) 1 = Some "Red" ∧
  name_at (gameState (fst (step lobby
             (Message 1%nat 1000 "a" (Parsed (join 1 "Red")))))) 1 = Some "Red".
Proof.
  split.
  - pose (t := default (new_team 0)
                 (team_at (gameState (run lobby (take 1 three_joins))) 1)).
    assert (Ht : team_at (gameState (run lobby (take 1 three_joins))) 1 = Some t)
      by (vm_compute; reflexivity).
    apply (proj1 (name_kept_while_populated (run lobby (take 1 three_joins))
                    (Message 2%nat 1001 "b" (Parsed (join 1 "Blue"))) 1 t
                    eq_refl Ht)).
    vm_compute. congruence.
  - pose (t := default (new_team 0) (team_at (gameState lobby) 1)).
    assert (Ht : team_at (gameState lobby) 1 = Some t) by (vm_compute; reflexivity).
    eapply (proj2 (name_kept_while_populated lobby
                    (Message 1%nat 1000 "a" (Parsed (join 1 "Red"))) 1 t
                    eq_refl Ht));
      [reflexivity | vm_compute; reflexivity | reflexivity | reflexivity
      | congruence | vm_compute; reflexivity | vm_compute; reflexivity].
Defined.

(** C6, counterexample. The first member names team 1 "Red" and disconnects;
    the next registrant proposes "Blue" and the name becomes "Blue". *)
Lemma name_overwritten_after_team_emptied :
  name_at (gameState (run server0 (take 2 rename))) 1 = Some "Red" ∧
  forallb (fun e => negb (is_type "reset_game" e) && negb (is_type "update_settings" e))
          rename = true ∧
  name_at (gameState (run server0 rename)) 1 = Some "Blue".
Proof. vm_compute. repeat split; reflexivity. Qed.

(** ** Roster and registry *)

Lemma consistentb_true g : consistentb g = true → consistent g.
Proof.
  unfold consistentb, consistent. intros H.
  apply andb_prop in H as [H1 H2]. rewrite forallb_forall in H1, H2. split.
  - intros pid p Hp. apply elem_of_map_to_list, list_elem_of_In in Hp.
    specialize (H1 _ Hp). cbn [fst snd] in H1.
    destruct (team_at g (p_teamId p)) as [t|]; [|done].
    exists t. split; [done|]. by apply bool_decide_eq_true in H1.
  - intros k r t pid Hin Hr Hm. apply list_elem_of_In in Hin.
    specialize (H2 _ Hin). cbn [fst snd] in H2. rewrite Hr in H2.
    rewrite forallb_forall in H2. apply list_elem_of_In in Hm.
    specialize (H2 _ Hm). by apply bool_decide_eq_true in H2.
Qed.

(** C7, failing input. A player has joined team 1 and roster and registry
    agree; after an admin's [update_settings] the registry still holds the
    player, with [teamId] 1, while the rebuilt team 1 has no members. *)
Theorem update_settings_orphans_players :
  consistent (gameState (run server0 (take 4 settings_change))) ∧
  players (gameState (run server0 settings_change)) !! "1000-a"
    = Some (mkPlayer "1000-a" 1 0%Q 1000) ∧
  members_at (gameState (run server0 settings_change)) 1 = Some [] ∧
  ¬ consistent (gameState (run server0 settings_change)).
Proof.
  split; [apply consistentb_true; vm_compute; reflexivity|].
  split; [vm_compute; reflexivity|].
  split; [vm_compute; reflexivity|].
  intros [H _].
  destruct (H "1000-a" (mkPlayer "1000-a" 1 0%Q 1000)) as (t & Ht & Hin);
    [vm_compute; reflexivity|].
  vm_compute in Ht. injection Ht as <-. cbn in Hin. by apply elem_of_nil in Hin.
Qed.

(** ** Unrecognized messages *)

(** C9, as amended. A parsed message whose type is not recognized changes
    nothing and sends nothing, so the sender gets no acknowledgment and its
    socket stays open; the generic "Server error" goes to the sender only
    when the message fails to parse, again without any change of state. *)
Theorem unrecognized_type_is_ignored
    (s : Server) (ws : conn) (now : Z) (rnd : string) (d : Data) :
  recognized (type d) = false →
  step s (Message ws now rnd (Parsed d)) = (s, []) ∧
  (∀ l, sockets s !! ws = Some l →
        step s (Message ws now rnd Malformed) =
          (s, [(ToSocket ws, error_msg "Server error")])).
Proof.
  intros H. split.
  - unfold recognized in H. cbn [existsb] in H.
    repeat (apply orb_false_iff in H as [? H]).
    cbn [step]. unfold on_message. destruct (sockets s !! ws) as [l|]; [|done].
    unfold handle. cbv zeta.
    repeat match goal with E : String.eqb _ _ = false |- _ => rewrite E; clear E end.
    done.
  - intros l Hl. cbn [step]. unfold on_message. by rewrite Hl.
Qed.

Lemma unrecognized_type_is_ignored_witness :
  step lobby (Message 1%nat 1000 EmptyString (Parsed (plain "dance"))) = (lobby, []) ∧
  step lobby (Message 1%nat 1000 EmptyString Malformed) =
    (lobby, [(ToSocket 1%nat, error_msg "Server error")]).
Proof.
  destruct (unrecognized_type_is_ignored lobby 1%nat 1000 EmptyString (plain "dance"))
    as [H1 H2]; [reflexivity|].
  split; [exact H1|]. eapply H2. vm_compute. reflexivity.
Defined.

(** C9, counterexample. An open socket sends a message of type "dance": the
    handler produces no output at all, hence no "Server error". *)
Lemma unknown_type_gets_no_acknowledgment :
  is_Some (sockets lobby !! 1%nat) ∧ recognized "dance" = false ∧
  snd (step lobby (Message 1%nat 1000 EmptyString (Parsed (plain "dance")))) = [] ∧
  (ToSocket 1%nat, error_msg "Server error")
    ∉ snd (step lobby (Message 1%nat 1000 EmptyString (Parsed (plain "dance")))).
Proof.
  split; [vm_compute; eauto|]. split; [reflexivity|].
  assert (snd (step lobby (Message 1%nat 1000 EmptyString (Parsed (plain "dance")))) = []) as E
    by (vm_compute; reflexivity).
  split; [exact E|]. rewrite E. apply not_elem_of_nil.
Qed.

(** ** Registering twice on one socket *)

Lemma mk_player_id_truthy now rnd : truthy_str (Some (mk_player_id now rnd)) = true.
Proof.
  unfold truthy_str, mk_player_id.
  destruct (String.eqb _ EmptyString) eqn:E; [|done].
  apply String.eqb_eq in E. destruct (pretty now); discriminate.
Qed.

Lemma remove_player_cases pid g p k r team :
  players g !! pid = Some p →
  get_team g (Some (p_teamId p)) = Some (k, r, team) →
  objs (remove_player pid g) =
    <[r := set_team_players
             (List.filter (fun i => negb (String.eqb i pid)) (t_players team)) team]>
      (objs g) ∧
  players (remove_player pid g) = delete pid (players g) ∧
  teams (remove_player pid g) = teams g.
Proof. intros Hp Hg. unfold remove_player. by rewrite Hp, Hg. Qed.

Lemma kept_by_filter (pid p : string) (l : list string) :
  p ≠ pid → p ∈ l →
  p ∈ List.filter (fun i => negb (String.eqb i pid)) l.
Proof.
  intros Hne Hin. apply list_elem_of_In, filter_In.
  split; [by apply list_elem_of_In|].
  destruct (String.eqb p pid) eqn:E; [by apply String.eqb_eq in E|done].
Qed.

Lemma dropped_by_filter (pid : string) (l : list string) :
  pid ∉ List.filter (fun i => negb (String.eqb i pid)) l.
Proof.
  intros Hin. apply list_elem_of_In, filter_In in Hin as [_ H].
  by rewrite String.eqb_refl in H.
Qed.

Lemma second_registration_core
    (s : Server) (ws : conn) (now : Z) (rnd : string) (d : Data) (l : Local)
    (p1 : string) (rec1 : Player) (t1 : Team) (k2 : Z) (t2 : Team) :
  let g := gameState s in
  let p2 := mk_player_id now rnd in
  let s1 := fst (step s (Message ws now rnd (Parsed d))) in
  let s2 := fst (step s1 (Close ws)) in
  sockets s !! ws = Some l →
  clientType l = Some player → playerId l = Some p1 →
  players g !! p1 = Some rec1 →
  team_at g (p_teamId rec1) = Some t1 → p1 ∈ t_players t1 →
  type d = "register_player" → d_teamId d = Some k2 →
  team_at g k2 = Some t2 →
  Z.of_nat (length (t_players t2)) < maxPlayers (settings g) →
  p2 ≠ p1 →
  (players (gameState s1) !! p2 = Some (mkPlayer p2 k2 0%Q now) ∧
   sockets s1 !! ws = Some (mkLocal (Some player) (Some p2)) ∧
   clients s1 !! p2 = Some ws ∧
   players (gameState s1) !! p1 = Some rec1 ∧
   (∃ t, team_at (gameState s1) (p_teamId rec1) = Some t ∧ p1 ∈ t_players t) ∧
   (∃ t, team_at (gameState s1) k2 = Some t ∧ p2 ∈ t_players t)) ∧
  (sockets s2 !! ws = None ∧
   players (gameState s2) !! p2 = None ∧
   (∀ t, team_at (gameState s2) k2 = Some t → p2 ∉ t_players t) ∧
   players (gameState s2) !! p1 = Some rec1 ∧
   (∃ t, team_at (gameState s2) (p_teamId rec1) = Some t ∧ p1 ∈ t_players t)).
Proof.
  intros g p2 s1 s2 Hl Hct Hpid Hp1 Ht1 Hin1 Hty Hk2 Ht2 Hroom Hne.
  subst g.
  (* the second registration *)
  assert (E1 : s1 = fst (register_player ws now rnd d s)).
  { unfold s1. cbn [step]. unfold on_message. rewrite Hl.
    by rewrite handle_register_player by (by rewrite Hty). }
  pose proof (register_player_cases ws now rnd d s) as C. cbv zeta in C.
  destruct (team_at_get _ _ _ Ht2) as [r2 G2]. rewrite Hk2, G2 in C.
  destruct (_ <=? _) eqn:L; [apply Z.leb_le in L; lia|].
  rewrite <- E1 in C. fold p2 in C.
  destruct C as (Ho1 & Hps1 & Hts1 & _ & Hso1 & Hcl1).
  apply get_team_Some in G2 as (_ & R2 & O2).
  rewrite team_at_eq in Ht1.
  destruct (team_ref (gameState s) (p_teamId rec1)) as [r1|] eqn:R1; [|done].
  assert (T1 : ∃ t, team_at (gameState s1) (p_teamId rec1) = Some t ∧ p1 ∈ t_players t).
  { rewrite team_at_eq, (team_ref_teams _ _ _ Hts1), R1, Ho1.
    destruct (decide (r2 = r1)) as [->|Hr].
    - rewrite lookup_insert_eq. eexists. split; [done|].
      rewrite joined_players. apply elem_of_app. left.
      by simplify_eq.
    - rewrite lookup_insert_ne by done. by exists t1. }
  assert (T2 : team_at (gameState s1) k2 = Some (joined p2 (d_teamName d) t2)).
  { by rewrite team_at_eq, (team_ref_teams _ _ _ Hts1), R2, Ho1, lookup_insert_eq. }
  split.
  { rewrite Hps1, Hso1, Hcl1, !lookup_insert_eq.
    rewrite lookup_insert_ne by done. do 4 (split; [done|]). split; [done|].
    eexists. split; [exact T2|]. rewrite joined_players.
    apply elem_of_app. right. by apply list_elem_of_singleton. }
  (* the close *)
  destruct (team_at_get _ _ _ T2) as [r2' G2'].
  assert (P2 : players (gameState s1) !! p2 = Some (mkPlayer p2 k2 0%Q now))
    by (by rewrite Hps1, lookup_insert_eq).
  destruct (remove_player_cases p2 (gameState s1) _ k2 r2' _ P2 G2')
    as (Ho2 & Hps2 & Hts2).
  assert (E2 : s2 = drop_socket ws
                      (set_clients (delete p2 (clients s1))
                         (set_gameState (remove_player p2 (gameState s1)) s1))).
  { unfold s2. cbn [step]. unfold on_close. rewrite Hso1, lookup_insert_eq.
    cbn [clientType playerId]. unfold p2. by rewrite mk_player_id_truthy. }
  rewrite E2. cbn [sockets gameState drop_socket set_clients set_gameState].
  rewrite Hps2, lookup_delete_eq, lookup_delete_eq.
  rewrite lookup_delete_ne by done.
  rewrite Hps1, lookup_insert_ne by done.
  do 2 (split; [done|]).
  apply get_team_Some in G2' as (_ & R2' & O2').
  split; [|split; [done|]].
  - intros t. rewrite team_at_eq, (team_ref_teams _ _ _ Hts2), R2', Ho2.
    rewrite lookup_insert_eq. intros [= <-]. cbn [t_players set_team_players].
    apply dropped_by_filter.
  - destruct T1 as (t & Tt & Tin). rewrite team_at_eq in Tt |- *.
    rewrite (team_ref_teams _ _ _ Hts2).
    destruct (team_ref (gameState s1) (p_teamId rec1)) as [r|]; [|done].
    rewrite Ho2. destruct (decide (r2' = r)) as [->|Hr].
    + rewrite lookup_insert_eq. eexists. split; [done|].
      cbn [t_players set_team_players]. apply kept_by_filter; [done|].
      by simplify_eq.
    + rewrite lookup_insert_ne by done. by exists t.
Qed.

(** C10. A socket that already registered player [p1] registers again on a
    valid team with room: a second record [p2] is created and the socket is
    now associated with [p2]; [p1] keeps its registry record and its place in
    its team's member list, where it still counts toward the length and toward
    the aggregate intensity, and closing the socket removes [p2] only. *)
Theorem second_registration_leaves_first_player
    (s : Server) (ws : conn) (now : Z) (rnd : string) (d : Data) (l : Local)
    (p1 : string) (rec1 : Player) (t1 : Team) (k2 : Z) (t2 : Team) :
  let g := gameState s in
  let p2 := mk_player_id now rnd in
  let s1 := fst (step s (Message ws now rnd (Parsed d))) in
  let s2 := fst (step s1 (Close ws)) in
  sockets s !! ws = Some l →
  clientType l = Some player → playerId l = Some p1 →
  players g !! p1 = Some rec1 →
  team_at g (p_teamId rec1) = Some t1 → p1 ∈ t_players t1 →
  type d = "register_player" → d_teamId d = Some k2 →
  team_at g k2 = Some t2 →
  Z.of_nat (length (t_players t2)) < maxPlayers (settings g) →
  p2 ≠ p1 →
  (players (gameState s1) !! p2 = Some (mkPlayer p2 k2 0%Q now) ∧
   sockets s1 !! ws = Some (mkLocal (Some player) (Some p2)) ∧
   clients s1 !! p2 = Some ws ∧
   players (gameState s1) !! p1 = Some rec1 ∧
   (∃ t, team_at (gameState s1) (p_teamId rec1) = Some t ∧ p1 ∈ t_players t) ∧
   (∃ t, team_at (gameState s1) k2 = Some t ∧ p2 ∈ t_players t)) ∧
  (sockets s2 !! ws = None ∧
   players (gameState s2) !! p2 = None ∧
   (∀ t, team_at (gameState s2) k2 = Some t → p2 ∉ t_players t) ∧
   players (gameState s2) !! p1 = Some rec1 ∧
   (∃ t l1 l2,
      team_at (gameState s2) (p_teamId rec1) = Some t ∧
      t_players t = l1 ++ p1 :: l2 ∧
      (total_intensity (players (gameState s2)) (t_players t) ==
       total_intensity (players (gameState s2)) l1 + p_shakeIntensity rec1
       + total_intensity (players (gameState s2)) l2)%Q)).
Proof.
  intros g p2 s1 s2 Hl Hct Hpid Hp1 Ht1 Hin1 Hty Hk2 Ht2 Hroom Hne.
  destruct (second_registration_core s ws now rnd d l p1 rec1 t1 k2 t2
              Hl Hct Hpid Hp1 Ht1 Hin1 Hty Hk2 Ht2 Hroom Hne)
    as [A (B1 & B2 & B3 & B4 & (t & Bt & Bin))].
  split; [exact A|]. do 4 (split; [assumption|]).
  destruct (member_contributes _ _ _ _ Bin B4) as (l1 & l2 & El & Et).
  exists t, l1, l2. split; [exact Bt|]. split; [exact El|exact Et].
Qed.

Lemma second_registration_leaves_first_player_witness :
  let s := run server0 twice in
  let s1 := fst (step s (Message 1%nat 1500 "z" (Parsed (join 2 "Blue")))) in
  let s2 := fst (step s1 (Close 1%nat)) in
  players (gameState s1) !! "1500-z" = Some (mkPlayer "1500-z" 2 0%Q 1500) ∧
  players (gameState s2) !! "1500-z" = None ∧
  players (gameState s2) !! "1000-a" = Some (mkPlayer "1000-a" 1 0%Q 1000) ∧
  (∃ t, team_at (gameState s2) 1 = Some t ∧ "1000-a" ∈ t_players t).
Proof.
  intros s s1 s2.
  pose (t1 := default (new_team 0) (team_at (gameState s) 1)).
  pose (t2 := default (new_team 0) (team_at (gameState s) 2)).
  destruct (second_registration_leaves_first_player
              s 1%nat 1500 "z" (join 2 "Blue")
              (mkLocal (Some player) (Some "1000-a"))
              "1000-a" (mkPlayer "1000-a" 1 0%Q 1000) t1 2 t2)
    as [(A1 & _) (_ & B2 & _ & B4 & (t & l1 & l2 & B5 & B6 & _))].
  - vm_compute. reflexivity.
  - reflexivity.
  - reflexivity.
  - vm_compute. reflexivity.
  - vm_compute. reflexivity.
  - vm_compute. apply list_elem_of_here.
  - reflexivity.
  - reflexivity.
  - vm_compute. reflexivity.
  - vm_compute. reflexivity.
  - vm_compute. congruence.
  - split; [exact A1|]. split; [exact B2|]. split; [exact B4|].
    exists t. split; [exact B5|]. rewrite B6. apply elem_of_app. right.
    apply list_elem_of_here.
Defined.

(** * Further properties of the server *)

(** ** initializeTeams *)

Lemma team_ref_elem g k r : team_ref g k = Some r → (k, r) ∈ teams g.
Proof.
  unfold team_ref. destruct (List.find _ _) as [[k' r']|] eqn:E; [|done].
  cbn. intros [= <-]. apply find_some in E as [Hin Hk]. cbn in Hk.
  apply Z.eqb_eq in Hk as ->. by apply list_elem_of_In.
Qed.

Lemma team_ref_None g k : k ∉ (fst <$> teams g) → team_ref g k = None.
Proof.
  intros Hn. unfold team_ref.
  destruct (List.find _ _) as [[k' r']|] eqn:E; [|done].
  apply find_some in E as [Hin Hk]. cbn in Hk. apply Z.eqb_eq in Hk as ->.
  exfalso. apply Hn. apply list_elem_of_fmap. exists (k, r').
  split; [done|]. by apply list_elem_of_In.
Qed.

Lemma team_ref_is_Some g k : k ∈ (fst <$> teams g) → is_Some (team_ref g k).
Proof.
  intros Hin. apply list_elem_of_fmap in Hin as ([k' r] & -> & Hin).
  unfold team_ref. destruct (List.find _ _) as [kr|] eqn:E; [by eexists|].
  apply list_elem_of_In in Hin.
  pose proof (find_none _ _ E _ Hin) as H. cbn in H.
  by rewrite Z.eqb_refl in H.
Qed.

Lemma fold_add_team_keys l : ∀ g,
  fst <$> teams (fold_left add_team l g) = (fst <$> teams g) ++ l.
Proof.
  induction l as [|i l IH]; intros g; cbn [fold_left].
  - by rewrite app_nil_r.
  - rewrite IH. unfold add_team. cbn [teams]. rewrite fmap_app. cbn.
    by rewrite <- app_assoc.
Qed.

Lemma initializeTeams_keys g :
  fst <$> teams (initializeTeams g) = seqZ 1 (numTeams (settings g)).
Proof. unfold initializeTeams. by rewrite fold_add_team_keys. Qed.

Lemma in_range_seqZ g k :
  in_range g k = true ↔ k ∈ seqZ 1 (numTeams (settings g)).
Proof.
  unfold in_range. rewrite elem_of_seqZ, andb_true_iff, Z.leb_le, Z.leb_le. lia.
Qed.

(** X1. [initializeTeams] discards the old roster and builds exactly the
    keys 1..numTeams, in order, each on a new team with that id, no name, no
    members and position 0; a key outside the range finds no team (there is
    none at all when numTeams is not positive). Settings, registry, status,
    start time and winner are left as they were. *)
Theorem initializeTeams_roster (g : GameState) (k : Z) :
  fst <$> teams (initializeTeams g) = seqZ 1 (numTeams (settings g)) ∧
  team_at (initializeTeams g) k =
    (if in_range g k then Some (new_team k) else None) ∧
  settings (initializeTeams g) = settings g ∧
  players (initializeTeams g) = players g ∧
  gameStatus (initializeTeams g) = gameStatus g ∧
  raceStartTime (initializeTeams g) = raceStartTime g ∧
  winner (initializeTeams g) = winner g.
Proof.
  split; [apply initializeTeams_keys|]. split; [|apply initializeTeams_frame].
  rewrite team_at_eq. destruct (in_range g k) eqn:R.
  - apply in_range_seqZ in R. rewrite <- initializeTeams_keys in R.
    destruct (team_ref_is_Some _ _ R) as [r Hr]. rewrite Hr.
    apply team_ref_elem in Hr.
    by destruct (initializeTeams_fresh g) as [_ H]; destruct (H _ _ Hr).
  - rewrite team_ref_None; [done|]. rewrite initializeTeams_keys.
    intros H. apply in_range_seqZ in H. congruence.
Qed.

(** ** The roster in reachable states *)

Lemma same_ids_refl o : same_ids o o.
Proof. intros r t H. by exists t. Qed.

Lemma same_ids_trans o1 o2 o3 : same_ids o1 o2 → same_ids o2 o3 → same_ids o1 o3.
Proof.
  intros H1 H2 r t Hr. destruct (H1 _ _ Hr) as (t' & Hr' & E1).
  destruct (H2 _ _ Hr') as (t'' & Hr'' & E2). exists t''. split; [done|congruence].
Qed.

Lemma same_ids_insert (o : gmap ref Team) r t t' :
  o !! r = Some t → t_id t' = t_id t → same_ids o (<[r := t']> o).
Proof.
  intros Hr Hid r0 t0 H0. destruct (decide (r = r0)) as [<-|Hne].
  - exists t'. rewrite lookup_insert_eq. split; [done|congruence].
  - exists t0. by rewrite lookup_insert_ne.
Qed.

Lemma same_ids_alter (o : gmap ref Team) f r :
  (∀ t, t_id (f t) = t_id t) → same_ids o (alter f r o).
Proof.
  intros Hf r0 t0 H0. destruct (decide (r = r0)) as [<-|Hne].
  - exists (f t0). rewrite lookup_alter_eq, H0. by split.
  - exists t0. by rewrite lookup_alter_ne.
Qed.

Lemma static_refl g : static g g.
Proof. repeat split. apply same_ids_refl. Qed.

Lemma joined_id pid n team : t_id (joined pid n team) = t_id team.
Proof. unfold joined. by destruct (_ && _). Qed.

Lemma register_player_static ws now rnd d s :
  static (gameState s) (gameState (fst (register_player ws now rnd d s))).
Proof.
  unfold register_player. cbv zeta.
  destruct (get_team _ _) as [[[k r] team]|] eqn:G; [|apply static_refl].
  destruct (_ <=? _); [apply static_refl|].
  apply get_team_Some in G as (_ & _ & G). repeat split.
  cbn. eapply same_ids_insert; [done|apply joined_id].
Qed.

Lemma update_shake_static now d l s :
  static (gameState s) (gameState (fst (update_shake now d l s))).
Proof.
  unfold update_shake. cbv zeta.
  destruct (playerId l) as [pid|]; [|apply static_refl].
  destruct (truthy_str _); [|apply static_refl].
  destruct (players _ !! pid); [|apply static_refl].
  repeat split. apply same_ids_refl.
Qed.

Lemma reset_fold_same_ids l : ∀ o,
  same_ids o (fold_left (fun o r => alter reset_position r o) l o).
Proof.
  induction l as [|r l IH]; intros o; [apply same_ids_refl|].
  cbn [fold_left]. eapply same_ids_trans; [|apply IH].
  by apply same_ids_alter.
Qed.

Lemma start_race_static now l s :
  static (gameState s) (gameState (fst (start_race now l s))).
Proof.
  unfold start_race. cbv zeta. destruct (is_operator l); [|apply static_refl].
  destruct (_ <=? _); [|apply static_refl].
  repeat split. cbn. apply reset_fold_same_ids.
Qed.

Lemma remove_player_static pid g : static g (remove_player pid g).
Proof.
  unfold remove_player. destruct (players g !! pid) as [p|]; [|apply static_refl].
  repeat split. cbn [objs set_players set_objs].
  destruct (get_team g (Some (p_teamId p))) as [[[k r] team]|] eqn:G;
    [|apply same_ids_refl].
  apply get_team_Some in G as (_ & _ & G). by eapply same_ids_insert.
Qed.

Lemma race_team_static g b r : static g (fst (race_team (g, b) r)).
Proof.
  pose proof (race_team_frame g b r) as (_ & Hs & Ht & Hn & _).
  pose proof (race_team_objs g b r) as Ho.
  split; [done|]. split; [done|]. split; [done|]. rewrite Ho.
  destruct (objs g !! r) as [team|] eqn:E; [|apply same_ids_refl].
  by eapply same_ids_insert.
Qed.

Lemma static_trans g1 g2 g3 : static g1 g2 → static g2 g3 → static g1 g3.
Proof.
  intros (A1 & A2 & A3 & A4) (B1 & B2 & B3 & B4).
  split; [congruence|]. split; [congruence|]. split; [congruence|].
  by eapply same_ids_trans.
Qed.

Lemma race_fold_static l : ∀ g b, static g (fst (fold_left race_team l (g, b))).
Proof.
  induction l as [|r l IH]; intros g b; [apply static_refl|].
  cbn [fold_left]. destruct (race_team (g, b) r) as [g1 b1] eqn:E.
  eapply static_trans; [|apply IH].
  change g1 with (fst (g1, b1)). rewrite <- E. apply race_team_static.
Qed.

Lemma decay_static now g : static g (decay now g).
Proof. repeat split. apply same_ids_refl. Qed.

Lemma tick_static now g : static g (fst (tick now g)).
Proof.
  unfold tick, race. destruct (gameStatus g); try apply decay_static.
  destruct (fold_left race_team (active_teams g) (g, false)) as [g' hw] eqn:E.
  cbn [fst]. pose proof (race_fold_static (active_teams g) g false) as F.
  rewrite E in F. eapply static_trans; [exact F|apply decay_static].
Qed.

Lemma on_close_static ws s :
  static (gameState s) (gameState (fst (on_close ws s))).
Proof.
  unfold on_close. destruct (sockets s !! ws) as [l|]; [|apply static_refl].
  destruct (clientType l) as [[]|]; try apply static_refl.
  destruct (playerId l) as [pid|]; [|apply static_refl].
  destruct (truthy_str _); [|apply static_refl].
  cbn. apply remove_player_static.
Qed.

Lemma step_static s e :
  rebuilds e = false → static (gameState s) (gameState (fst (step s e))).
Proof.
  intros Hr. apply orb_false_iff in Hr as [H1 H2].
  destruct e as [ws|ws now rnd [|d]|ws|now]; cbn [step].
  - apply static_refl.
  - unfold on_message. destruct (sockets s !! ws); apply static_refl.
  - unfold on_message. destruct (sockets s !! ws) as [l|]; [|apply static_refl].
    cbn in H1, H2. by_dispatch; try congruence; try apply static_refl.
    + apply register_player_static.
    + apply update_shake_static.
    + apply start_race_static.
  - apply on_close_static.
  - destruct (tick now (gameState s)) as [g out] eqn:E. cbn.
    change g with (fst (g, out)). rewrite <- E. apply tick_static.
Qed.

Lemma roster_ok_static g g' : static g g' → roster_ok g → roster_ok g'.
Proof.
  intros (Ht & Hn & Hs & Ho) [Hk Hall]. split.
  - by rewrite Ht, Hs.
  - intros k r Hin. rewrite Ht in Hin. destruct (Hall _ _ Hin) as [Hlt (t & Hr & Hid)].
    split; [by rewrite Hn|]. destruct (Ho _ _ Hr) as (t' & Hr' & Hid').
    exists t'. split; [done|congruence].
Qed.

Lemma initializeTeams_roster_ok g : roster_ok (initializeTeams g).
Proof.
  split.
  - destruct (initializeTeams_frame g) as (-> & _). apply initializeTeams_keys.
  - intros k r Hin. destruct (initializeTeams_fresh g) as [_ H].
    destruct (H _ _ Hin) as [Hlt Ho]. split; [done|]. by exists (new_team k).
Qed.

Lemma step_roster_ok s e :
  roster_ok (gameState s) → roster_ok (gameState (fst (step s e))).
Proof.
  intros Hok. destruct (rebuilds e) eqn:R.
  2: { eapply roster_ok_static; [by apply step_static|done]. }
  destruct e as [ws|ws now rnd [|d]|ws|now]; try done.
  cbn [step]. unfold on_message. destruct (sockets s !! ws) as [l|]; [|done].
  cbn in R. apply orb_true_iff in R as [R|R]; apply String.eqb_eq in R;
    unfold handle; cbv zeta; rewrite R; cbn.
  - unfold reset_game. cbv zeta. destruct (is_operator l); [|done].
    apply initializeTeams_roster_ok.
  - unfold update_settings. cbv zeta. destruct (clientType l) as [[]|]; try done.
    apply initializeTeams_roster_ok.
Qed.

Lemma reachable_roster_ok es : roster_ok (gameState (run server0 es)).
Proof.
  assert (∀ s, roster_ok (gameState s) → roster_ok (gameState (run s es))) as H.
  { induction es as [|e es IH]; intros s Hs; [done|].
    change (run s (e :: es)) with (run (fst (step s e)) es).
    by apply IH, step_roster_ok. }
  apply H, initializeTeams_roster_ok.
Qed.

Lemma roster_ok_lookup g k :
  roster_ok g →
  if in_range g k
  then ∃ t, team_at g k = Some t ∧ t_id t = k
  else team_at g k = None.
Proof.
  intros [Hk Hall]. rewrite team_at_eq. destruct (in_range _ k) eqn:R.
  - apply in_range_seqZ in R. rewrite <- Hk in R.
    destruct (team_ref_is_Some _ _ R) as [r Hr]. rewrite Hr.
    apply team_ref_elem in Hr. by destruct (Hall _ _ Hr) as [_ ?].
  - rewrite team_ref_None; [done|]. rewrite Hk.
    intros H. apply in_range_seqZ in H. congruence.
Qed.

(** X2. In every state the server can reach, the roster has exactly the keys
    1..numTeams of the current settings: a team lookup succeeds for every key
    in that range, on a team object whose [id] is the key, and fails for
    every other key. *)
Theorem reachable_team_lookup (es : list Event) (k : Z) :
  let g := gameState (run server0 es) in
  fst <$> teams g = seqZ 1 (numTeams (settings g)) ∧
  if in_range g k
  then ∃ t, team_at g k = Some t ∧ t_id t = k
  else team_at g k = None.
Proof.
  cbv zeta. split; [apply reachable_roster_ok|].
  apply roster_ok_lookup, reachable_roster_ok.
Qed.

(** [get_team] through the key lookup and [team_at]. *)
Lemma get_team_team_at g teamId :
  get_team g teamId =
    match teamId with
    | Some k =>
        match team_ref g k, team_at g k with
        | Some r, Some t => Some (k, r, t)
        | _, _ => None
        end
    | None => None
    end.
Proof.
  destruct teamId as [k|]; [|done]. rewrite team_at_eq. cbn.
  destruct (team_ref g k) as [r|]; [|done]. by destruct (objs g !! r).
Qed.

(** X3. In every reachable state a [register_player] from an open socket is
    answered with "Invalid team", to the sender only and with the state
    unchanged, exactly when its [teamId] is missing or outside
    1..numTeams. *)
Theorem invalid_team_rejected
    (es : list Event) (ws : conn) (now : Z) (rnd : string) (d : Data) (l : Local) :
  let s := run server0 es in
  sockets s !! ws = Some l → type d = "register_player" →
  (step s (Message ws now rnd (Parsed d)) =
     (s, [(ToSocket ws, error_msg "Invalid team")])
   ↔ match d_teamId d with
     | Some k => in_range (gameState s) k = false
     | None => True
     end).
Proof.
  intros s Hl Hty. cbn [step]. unfold on_message. rewrite Hl.
  rewrite handle_register_player by (by rewrite Hty).
  unfold register_player. cbv zeta. rewrite get_team_team_at.
  destruct (d_teamId d) as [k|]; [|done].
  pose proof (roster_ok_lookup (gameState s) k (reachable_roster_ok es)) as H.
  destruct (in_range (gameState s) k).
  - destruct H as (t & Ht & _). rewrite Ht. rewrite team_at_eq in Ht.
    destruct (team_ref (gameState s) k) as [r|]; [|done].
    destruct (_ <=? _); split; intros E; try done; by inversion E.
  - rewrite H. by destruct (team_ref (gameState s) k).
Qed.

Lemma invalid_team_rejected_witness :
  step (run server0 [Connection 1%nat])
       (Message 1%nat 1000 "a" (Parsed (join 999 "Red"))) =
    (run server0 [Connection 1%nat], [(ToSocket 1%nat, error_msg "Invalid team")]).
Proof.
  apply (invalid_team_rejected [Connection 1%nat] 1%nat 1000 "a" (join 999 "Red")
           (mkLocal None None)); [vm_compute; reflexivity|reflexivity|].
  vm_compute. reflexivity.
Defined.

(** ** Joining and leaving *)

Lemma filter_fresh (pid : string) (l : list string) :
  pid ∉ l →
  List.filter (fun i => negb (String.eqb i pid)) (l ++ [pid]) = l.
Proof.
  induction l as [|a l IH]; intros Hn; cbn.
  - by rewrite String.eqb_refl.
  - apply not_elem_of_cons in Hn as [Hne Hn].
    destruct (String.eqb a pid) eqn:E.
    + apply String.eqb_eq in E. congruence.
    + cbn. by rewrite IH.
Qed.

Lemma set_team_players_same t : set_team_players (t_players t) t = t.
Proof. by destruct t. Qed.

(** X4. A registration followed by the close of the same socket is undone as
    far as membership goes: with a new id, the registry and the member list
    of the team are as before, and so are the team's position and every
    other team; only a name set by that registration (first member of an
    empty team) remains. When the team had members already, the whole game
    state is exactly as before. *)
Theorem register_then_close_restores
    (s : Server) (ws : conn) (now : Z) (rnd : string) (d : Data) (l : Local)
    (k : Z) (r : ref) (t : Team) :
  let pid := mk_player_id now rnd in
  let s2 := run s [Message ws now rnd (Parsed d); Close ws] in
  sockets s !! ws = Some l → type d = "register_player" →
  get_team (gameState s) (d_teamId d) = Some (k, r, t) →
  Z.of_nat (length (t_players t)) < maxPlayers (settings (gameState s)) →
  players (gameState s) !! pid = None → pid ∉ t_players t →
  sockets s2 !! ws = None ∧
  players (gameState s2) = players (gameState s) ∧
  teams (gameState s2) = teams (gameState s) ∧
  (∀ r', r' ≠ r → objs (gameState s2) !! r' = objs (gameState s) !! r') ∧
  (∃ t', objs (gameState s2) !! r = Some t' ∧
         t_players t' = t_players t ∧ t_position t' = t_position t ∧
         t_id t' = t_id t ∧ t_shakeIntensity t' = t_shakeIntensity t) ∧
  (t_players t ≠ [] → gameState s2 = gameState s).
Proof.
  intros pid s2 Hl Hty G Hroom Hfresh Hnotin.
  set (s1 := fst (step s (Message ws now rnd (Parsed d)))).
  assert (E1 : s1 = fst (register_player ws now rnd d s)).
  { unfold s1. cbn [step]. unfold on_message. rewrite Hl.
    by rewrite handle_register_player by (by rewrite Hty). }
  pose proof (register_player_cases ws now rnd d s) as C. cbv zeta in C.
  rewrite G in C. destruct (_ <=? _) eqn:L; [apply Z.leb_le in L; lia|].
  rewrite <- E1 in C. fold pid in C.
  destruct C as (Ho1 & Hps1 & Hts1 & _ & Hso1 & _).
  pose proof (register_player_static ws now rnd d s) as (_ & Hn1 & _).
  pose proof (register_player_frame ws now rnd d s) as (Hse1 & _ & Hst1 & Hrs1 & Hw1).
  cbv zeta in Hse1, Hst1, Hrs1, Hw1. rewrite <- E1 in Hn1, Hse1, Hst1, Hrs1, Hw1.
  apply get_team_Some in G as (_ & R & O).
  assert (G1 : get_team (gameState s1) (Some k) =
               Some (k, r, joined pid (d_teamName d) t)).
  { unfold get_team. by rewrite (team_ref_teams _ _ _ Hts1), R, Ho1, lookup_insert_eq. }
  assert (P1 : players (gameState s1) !! pid = Some (mkPlayer pid k 0%Q now))
    by (by rewrite Hps1, lookup_insert_eq).
  destruct (remove_player_cases pid (gameState s1) _ k r _ P1 G1) as (Ho2 & Hps2 & Hts2).
  pose proof (remove_player_frame pid (gameState s1)) as (Hse2 & _ & Hst2 & Hrs2 & Hw2).
  pose proof (remove_player_static pid (gameState s1)) as (_ & Hn2 & _).
  assert (E2 : s2 = drop_socket ws
                      (set_clients (delete pid (clients s1))
                         (set_gameState (remove_player pid (gameState s1)) s1))).
  { unfold s2, run. cbn [fold_left]. fold s1. cbn [step]. unfold on_close.
    rewrite Hso1, lookup_insert_eq. cbn [clientType playerId].
    unfold pid. by rewrite mk_player_id_truthy. }
  rewrite joined_players, filter_fresh in Ho2 by done.
  rewrite Ho1, insert_insert_eq in Ho2.
  rewrite Hps1, delete_insert_id in Hps2 by done.
  rewrite E2. cbn [sockets gameState drop_socket set_clients set_gameState].
  split; [apply lookup_delete_eq|]. split; [done|]. split; [congruence|].
  split; [|split].
  - intros r' Hne. by rewrite Ho2, lookup_insert_ne.
  - eexists. rewrite Ho2, lookup_insert_eq. split; [done|].
    cbn [t_players t_position t_id t_shakeIntensity set_team_players].
    unfold joined. by destruct (_ && _).
  - intros Hne.
    assert (set_team_players (t_players t) (joined pid (d_teamName d) t) = t) as J.
    { unfold joined. destruct (t_players t) eqn:Et; [done|]. cbn.
      destruct t. cbn in *. by subst. }
    rewrite J in Ho2. rewrite (insert_id _ _ _ O) in Ho2.
    destruct (remove_player pid (gameState s1)) as [o n se ts ps st rs w].
    destruct (gameState s) as [o0 n0 se0 ts0 ps0 st0 rs0 w0].
    cbn in *. by subst.
Qed.

Lemma register_then_close_restores_witness :
  gameState (run (run lobby (take 1 three_joins))
                 [Message 2%nat 1001 "b" (Parsed (join 1 "Blue")); Close 2%nat])
  = gameState (run lobby (take 1 three_joins)).
Proof.
  pose (t := default (new_team 0)
               (team_at (gameState (run lobby (take 1 three_joins))) 1)).
  destruct (register_then_close_restores (run lobby (take 1 three_joins))
              2%nat 1001 "b" (join 1 "Blue") (mkLocal None None) 1 0%nat t)
    as (_ & _ & _ & _ & _ & H).
  - vm_compute. reflexivity.
  - reflexivity.
  - vm_compute. reflexivity.
  - vm_compute. reflexivity.
  - vm_compute. reflexivity.
  - intros Hin. vm_compute in Hin.
    apply list_elem_of_singleton in Hin. discriminate Hin.
  - apply H. vm_compute. congruence.
Defined.

(** X5. When the socket of a listed player closes, the member list of its
    team gets strictly shorter; so if the team was not over capacity, a
    [register_player] for that team from any other open socket is accepted
    right afterwards. *)
Theorem close_frees_a_slot
    (s : Server) (ws ws' : conn) (now : Z) (rnd : string) (d : Data)
    (l l' : Local) (pid : string) (p : Player) (k : Z) (r : ref) (t : Team) :
  let s1 := fst (step s (Close ws)) in
  let s2 := fst (step s1 (Message ws' now rnd (Parsed d))) in
  sockets s !! ws = Some l → clientType l = Some player → playerId l = Some pid →
  pid ≠ EmptyString →
  players (gameState s) !! pid = Some p →
  get_team (gameState s) (Some (p_teamId p)) = Some (k, r, t) →
  pid ∈ t_players t →
  Z.of_nat (length (t_players t)) ≤ maxPlayers (settings (gameState s)) →
  ws' ≠ ws → sockets s !! ws' = Some l' →
  type d = "register_player" → d_teamId d = Some k →
  (∃ t1, team_at (gameState s1) k = Some t1 ∧
         (length (t_players t1) < length (t_players t))%nat) ∧
  players (gameState s2) !! mk_player_id now rnd
    = Some (mkPlayer (mk_player_id now rnd) k 0%Q now) ∧
  sockets s2 !! ws' = Some (mkLocal (Some player) (Some (mk_player_id now rnd))).
Proof.
  intros s1 s2 Hl Hct Hpid Hne Hp G Hin Hcap Hws Hl' Hty Hk.
  destruct (remove_player_cases pid (gameState s) p k r t Hp G) as (Ho & Hps & Hts).
  pose proof (remove_player_frame pid (gameState s)) as (Hse & _).
  assert (E1 : s1 = drop_socket ws
                      (set_clients (delete pid (clients s))
                         (set_gameState (remove_player pid (gameState s)) s))).
  { unfold s1. cbn [step]. unfold on_close. rewrite Hl, Hct, Hpid.
    unfold truthy_str. destruct (String.eqb pid EmptyString) eqn:E; [|done].
    by apply String.eqb_eq in E. }
  apply get_team_Some in G as (Hk' & R & O). injection Hk' as Hk'.
  set (t1 := set_team_players
               (List.filter (fun i => negb (String.eqb i pid)) (t_players t)) t).
  assert (Hlen : (length (t_players t1) < length (t_players t))%nat).
  { unfold t1. cbn [t_players set_team_players].
    apply list_elem_of_In in Hin. clear -Hin.
    induction (t_players t) as [|a m IH]; [done|]. cbn.
    destruct (String.eqb a pid) eqn:E; cbn.
    - pose proof (List.filter_length_le
                    (fun i => negb (String.eqb i pid)) m). lia.
    - destruct Hin as [->|Hin]; [by rewrite String.eqb_refl in E|].
      specialize (IH Hin). lia. }
  assert (T1 : get_team (gameState s1) (Some k) = Some (k, r, t1)).
  { rewrite E1. cbn [gameState drop_socket set_clients set_gameState].
    unfold get_team. by rewrite (team_ref_teams _ _ _ Hts), R, Ho, lookup_insert_eq. }
  split.
  { exists t1. split; [|done]. unfold team_at. by rewrite T1. }
  assert (Hl1 : sockets s1 !! ws' = Some l').
  { rewrite E1. cbn [sockets drop_socket]. by rewrite lookup_delete_ne. }
  assert (E2 : s2 = fst (register_player ws' now rnd d s1)).
  { unfold s2. cbn [step]. unfold on_message. rewrite Hl1.
    by rewrite handle_register_player by (by rewrite Hty). }
  pose proof (register_player_cases ws' now rnd d s1) as C. cbv zeta in C.
  rewrite Hk, T1 in C.
  assert (settings (gameState s1) = settings (gameState s)) as Hse1.
  { rewrite E1. exact Hse. }
  rewrite Hse1 in C.
  destruct (_ <=? _) eqn:L; [apply Z.leb_le in L; lia|].
  rewrite <- E2 in C. destruct C as (_ & Hps2 & _ & _ & Hso2 & _).
  by rewrite Hps2, Hso2, !lookup_insert_eq.
Qed.

Lemma close_frees_a_slot_witness :
  players (gameState
     (fst (step (fst (step (run lobby three_joins) (Close 1%nat)))
                (Message 4%nat 1003 "d" (Parsed (join 1 "Pink"))))))
    !! "1003-d" = Some (mkPlayer "1003-d" 1 0%Q 1003).
Proof.
  pose (t := default (new_team 0) (team_at (gameState (run lobby three_joins)) 1)).
  destruct (close_frees_a_slot (run lobby three_joins) 1%nat 4%nat 1003 "d"
              (join 1 "Pink") (mkLocal (Some player) (Some "1000-a"))
              (mkLocal None None) "1000-a" (mkPlayer "1000-a" 1 0%Q 1000)
              1 0%nat t)
    as (_ & H & _).
  - vm_compute. reflexivity.
  - reflexivity.
  - reflexivity.
  - discriminate.
  - vm_compute. reflexivity.
  - vm_compute. reflexivity.
  - vm_compute. apply list_elem_of_here.
  - vm_compute. congruence.
  - lia.
  - vm_compute. reflexivity.
  - reflexivity.
  - reflexivity.
  - exact H.
Defined.

(** ** Roles *)

Lemma handle_register_display ws now rnd d l s :
  type d = "register_display" →
  handle ws now rnd d l s =
    (mkServer (gameState s) (clients s) ({[ws]} ∪ displayClients s)
              (adminClients s)
              (<[ws := mkLocal (Some display) (playerId l)]> (sockets s)),
     [(ToSocket ws, game_state (gameState s))]).
Proof. intros H. unfold handle. cbv zeta. by rewrite H. Qed.

Lemma handle_register_admin ws now rnd d l s :
  type d = "register_admin" →
  handle ws now rnd d l s =
    (mkServer (gameState s) (clients s) (displayClients s)
              ({[ws]} ∪ adminClients s)
              (<[ws := mkLocal (Some admin) (playerId l)]> (sockets s)),
     [(ToSocket ws, game_state (gameState s))]).
Proof. intros H. unfold handle. cbv zeta. by rewrite H. Qed.

(** X6. A socket that holds a player and then sends [register_display] (or
    [register_admin]) keeps its player id but changes role, so its close
    takes the display (admin) branch: the player's record and its place in
    the team stay in the game state for good, and no state broadcast is
    sent on that close. *)
Theorem role_switch_leaks_player
    (s : Server) (ws : conn) (now : Z) (rnd : string) (d : Data)
    (l : Local) (pid : string) (p : Player) :
  let s1 := fst (step s (Message ws now rnd (Parsed d))) in
  sockets s !! ws = Some l → playerId l = Some pid →
  players (gameState s) !! pid = Some p →
  type d = "register_display" ∨ type d = "register_admin" →
  sockets s1 !! ws
    = Some (mkLocal (Some (if String.eqb (type d) "register_display"
                           then display else admin)) (Some pid)) ∧
  gameState (fst (step s1 (Close ws))) = gameState s ∧
  players (gameState (fst (step s1 (Close ws)))) !! pid = Some p ∧
  clients (fst (step s1 (Close ws))) = clients s ∧
  snd (step s1 (Close ws)) = [] ∧
  sockets (fst (step s1 (Close ws))) !! ws = None.
Proof.
  intros s1 Hl Hpid Hp [Hty|Hty]; unfold s1; cbn [step]; unfold on_message;
    rewrite Hl.
  - rewrite handle_register_display by done. rewrite Hty, Hpid. cbn [fst sockets].
    rewrite lookup_insert_eq. split; [done|].
    unfold on_close. cbn [sockets]. rewrite lookup_insert_eq. cbn.
    rewrite lookup_delete_eq. by rewrite Hp.
  - rewrite handle_register_admin by done. rewrite Hty, Hpid. cbn [fst sockets].
    rewrite lookup_insert_eq. split; [done|].
    unfold on_close. cbn [sockets]. rewrite lookup_insert_eq. cbn.
    rewrite lookup_delete_eq. by rewrite Hp.
Qed.

Lemma role_switch_leaks_player_witness :
  players (gameState (fst (step (fst (step (run server0 twice)
     (Message 1%nat 1500 "z" (Parsed (plain "register_display"))))) (Close 1%nat))))
    !! "1000-a" = Some (mkPlayer "1000-a" 1 0%Q 1000).
Proof.
  destruct (role_switch_leaks_player (run server0 twice) 1%nat 1500 "z"
              (plain "register_display") (mkLocal (Some player) (Some "1000-a"))
              "1000-a" (mkPlayer "1000-a" 1 0%Q 1000))
    as (_ & _ & H & _).
  - vm_compute. reflexivity.
  - reflexivity.
  - vm_compute. reflexivity.
  - by left.
  - exact H.
Defined.

(** X7. The close handler cleans only the set of the socket's current role:
    a socket that registered as display and then as admin is removed from
    [adminClients] on close but stays in [displayClients]. *)
Theorem close_cleans_last_role_only
    (s : Server) (ws : conn) (n1 n2 : Z) (r1 r2 : string) (l : Local) :
  sockets s !! ws = Some l →
  let s3 := run s [Message ws n1 r1 (Parsed (plain "register_display"));
                   Message ws n2 r2 (Parsed (plain "register_admin"));
                   Close ws] in
  sockets s3 !! ws = None ∧ ws ∈ displayClients s3 ∧
  adminClients s3 = adminClients s ∖ {[ws]} ∧
  gameState s3 = gameState s.
Proof.
  intros Hl s3. unfold s3, run. cbn [fold_left].
  assert (E1 : step s (Message ws n1 r1 (Parsed (plain "register_display"))) =
               (mkServer (gameState s) (clients s) ({[ws]} ∪ displayClients s)
                         (adminClients s)
                         (<[ws := mkLocal (Some display) (playerId l)]> (sockets s)),
                [(ToSocket ws, game_state (gameState s))])).
  { cbn [step]. unfold on_message. rewrite Hl. by apply handle_register_display. }
  rewrite E1. cbn [fst]. clear E1.
  set (s1 := mkServer _ _ _ _ _).
  assert (E2 : step s1 (Message ws n2 r2 (Parsed (plain "register_admin"))) =
               (mkServer (gameState s1) (clients s1) (displayClients s1)
                         ({[ws]} ∪ adminClients s1)
                         (<[ws := mkLocal (Some admin) (playerId l)]> (sockets s1)),
                [(ToSocket ws, game_state (gameState s1))])).
  { cbn [step]. unfold on_message. unfold s1 at 1. cbn [sockets].
    rewrite lookup_insert_eq. by rewrite handle_register_admin. }
  rewrite E2. cbn [fst]. clear E2.
  cbn [step]. unfold on_close. cbn [sockets]. rewrite lookup_insert_eq.
  cbn [clientType fst drop_socket sockets displayClients adminClients gameState].
  rewrite lookup_delete_eq. split; [done|]. unfold s1. cbn.
  split; [apply elem_of_union_l, elem_of_singleton; reflexivity|].
  split; [|done]. apply set_eq. intros x.
  rewrite !elem_of_difference, elem_of_union. tauto.
Qed.

Lemma close_cleans_last_role_only_witness :
  1%nat ∈ displayClients
    (run lobby [Message 1%nat 1 "a" (Parsed (plain "register_display"));
                Message 1%nat 2 "b" (Parsed (plain "register_admin"));
                Close 1%nat]).
Proof.
  destruct (close_cleans_last_role_only lobby 1%nat 1 2 "a" "b" (mkLocal None None))
    as (_ & H & _); [vm_compute; reflexivity|exact H].
Defined.

(** ** reset_game *)

Lemma handle_reset_game ws now rnd d l s :
  type d = "reset_game" → handle ws now rnd d l s = reset_game l s.
Proof. intros H. unfold handle. cbv zeta. by rewrite H. Qed.

Lemma fresh_snapshot_teams g :
  fresh_roster g →
  (fun kr : Z * ref => (fst kr, objs g !! snd kr)) <$> teams g =
  (fun k => (k, Some (new_team k))) <$> (fst <$> teams g).
Proof.
  intros [_ Hall]. rewrite <- list_fmap_compose.
  apply list_fmap_ext. intros i [k r] Hin. cbn.
  apply list_elem_of_lookup_2 in Hin. by destruct (Hall _ _ Hin) as [_ ->].
Qed.

Lemma reset_game_snapshot l s :
  is_operator l = true →
  snapshot (gameState (fst (reset_game l s))) =
    mkSnapshot (settings (gameState s))
      ((fun k => (k, Some (new_team k))) <$> seqZ 1 (numTeams (settings (gameState s))))
      ∅ registration None None.
Proof.
  intros Hop. unfold reset_game. cbv zeta. rewrite Hop.
  cbn [fst gameState set_clients set_gameState].
  set (g1 := set_players _ _). unfold snapshot, winner_team.
  rewrite (fresh_snapshot_teams _ (initializeTeams_fresh g1)).
  rewrite initializeTeams_keys.
  by destruct (initializeTeams_frame g1) as (-> & -> & -> & -> & ->).
Qed.

(** X8. An accepted [reset_game] leaves a state whose serialised form is
    determined by the settings alone: status registration, no start time, no
    winner, an empty registry and the teams 1..numTeams without name, members
    or progress; the settings are kept, the player map is emptied, and the
    sockets keep their roles. Sending it again changes nothing in the
    serialised state. *)
Theorem reset_game_result
    (s : Server) (ws : conn) (now now' : Z) (rnd rnd' : string) (d : Data) (l : Local) :
  let s' := fst (step s (Message ws now rnd (Parsed d))) in
  sockets s !! ws = Some l → type d = "reset_game" → is_operator l = true →
  snapshot (gameState s') =
    mkSnapshot (settings (gameState s))
      ((fun k => (k, Some (new_team k))) <$> seqZ 1 (numTeams (settings (gameState s))))
      ∅ registration None None ∧
  clients s' = ∅ ∧ sockets s' = sockets s ∧
  displayClients s' = displayClients s ∧ adminClients s' = adminClients s ∧
  snd (step s (Message ws now rnd (Parsed d))) = [(ToAll, game_reset (gameState s'))] ∧
  snapshot (gameState (fst (step s' (Message ws now' rnd' (Parsed d)))))
    = snapshot (gameState s').
Proof.
  intros s' Hl Hty Hop.
  assert (E : step s (Message ws now rnd (Parsed d)) = reset_game l s).
  { cbn [step]. unfold on_message. by rewrite Hl, handle_reset_game. }
  assert (Hso : sockets s' = sockets s).
  { unfold s'. rewrite E. unfold reset_game. cbv zeta. by rewrite Hop. }
  assert (Hsn := reset_game_snapshot l s Hop).
  split; [unfold s'; by rewrite E|].
  split; [unfold s'; rewrite E; unfold reset_game; cbv zeta; by rewrite Hop|].
  split; [done|].
  split; [unfold s'; rewrite E; unfold reset_game; cbv zeta; by rewrite Hop|].
  split; [unfold s'; rewrite E; unfold reset_game; cbv zeta; by rewrite Hop|].
  split; [unfold s'; rewrite E; unfold reset_game; cbv zeta; by rewrite Hop|].
  assert (E' : step s' (Message ws now' rnd' (Parsed d)) = reset_game l s').
  { cbn [step]. unfold on_message. by rewrite Hso, Hl, handle_reset_game. }
  assert (Hset : settings (gameState s') = settings (gameState s)).
  { unfold s'. rewrite E. exact (f_equal sn_settings Hsn). }
  rewrite E', (reset_game_snapshot l s' Hop), Hset.
  unfold s'. rewrite E. symmetry. exact Hsn.
Qed.

Lemma reset_game_result_witness :
  sn_players (snapshot (gameState (fst (step (run server0 first_race)
     (Message 3%nat 1200 "r" (Parsed (plain "reset_game"))))))) = ∅.
Proof.
  destruct (reset_game_result (run server0 first_race) 3%nat 1200 1201 "r" "r"
              (plain "reset_game") (mkLocal (Some admin) None))
    as (H & _).
  - vm_compute. reflexivity.
  - reflexivity.
  - reflexivity.
  - by rewrite H.
Defined.

Lemma handle_update_shake ws now rnd d l s :
  type d = "update_shake" → handle ws now rnd d l s = update_shake now d l s.
Proof. intros H. unfold handle. cbv zeta. by rewrite H. Qed.

(** X9. [reset_game] empties the registry but not the sockets' own player
    ids: a socket that held a player before the reset is still a player
    socket afterwards, its [update_shake] is dropped without any effect, and
    its close leaves the game state as it is while still broadcasting it. *)
Theorem stale_player_after_reset
    (s : Server) (wa ws : conn) (now n1 n2 : Z) (rnd r1 r2 : string)
    (la : Local) (pid : string) (x : Q) :
  let s' := fst (step s (Message wa now rnd (Parsed (plain "reset_game")))) in
  sockets s !! wa = Some la → is_operator la = true →
  sockets s !! ws = Some (mkLocal (Some player) (Some pid)) →
  sockets s' !! ws = Some (mkLocal (Some player) (Some pid)) ∧
  step s' (Message ws n1 r1 (Parsed (shake x))) = (s', []) ∧
  gameState (fst (step s' (Close ws))) = gameState s' ∧
  (pid ≠ EmptyString →
   snd (step s' (Close ws)) = [(ToAll, game_state (gameState s'))]).
Proof.
  intros s' Hla Hop Hl.
  assert (E : s' = fst (reset_game la s)).
  { unfold s'. cbn [step]. unfold on_message. by rewrite Hla, handle_reset_game. }
  assert (Hso : sockets s' = sockets s).
  { rewrite E. unfold reset_game. cbv zeta. by rewrite Hop. }
  assert (Hps : players (gameState s') !! pid = None).
  { rewrite E. unfold reset_game. cbv zeta. rewrite Hop.
    cbn [fst gameState set_clients set_gameState].
    destruct (initializeTeams_frame
                (set_players ∅ (set_winner None (set_raceStartTime None
                   (set_gameStatus registration (gameState s))))))
      as (_ & -> & _). apply lookup_empty. }
  split; [by rewrite Hso|]. split; [|split].
  - cbn [step]. unfold on_message. rewrite Hso, Hl.
    rewrite handle_update_shake by done. unfold update_shake. cbv zeta.
    cbn [playerId]. destruct (truthy_str _); [|done]. by rewrite Hps.
  - cbn [step]. unfold on_close. rewrite Hso, Hl. cbn [clientType playerId].
    destruct (truthy_str _); [|done]. cbn. unfold remove_player. by rewrite Hps.
  - intros Hne. cbn [step]. unfold on_close. rewrite Hso, Hl.
    cbn [clientType playerId]. unfold truthy_str.
    destruct (String.eqb pid EmptyString) eqn:Ee;
      [by apply String.eqb_eq in Ee|].
    cbn. unfold remove_player. by rewrite Hps.
Qed.

Lemma stale_player_after_reset_witness :
  step (fst (step (run server0 first_race)
                  (Message 3%nat 1200 "r" (Parsed (plain "reset_game")))))
       (Message 1%nat 1300 "s" (Parsed (shake 7)))
  = (fst (step (run server0 first_race)
               (Message 3%nat 1200 "r" (Parsed (plain "reset_game")))), []).
Proof.
  destruct (stale_player_after_reset (run server0 first_race) 3%nat 1%nat
              1200 1300 1300 "r" "s" "s" (mkLocal (Some admin) None) "1000-a" 7%Q)
    as (_ & H & _).
  - vm_compute. reflexivity.
  - reflexivity.
  - vm_compute. reflexivity.
  - exact H.
Defined.

(** ** Permissions *)

Lemma handle_update_settings ws now rnd d l s :
  type d = "update_settings" → handle ws now rnd d l s = update_settings d l s.
Proof. intros H. unfold handle. cbv zeta. by rewrite H. Qed.

(** X10. The privileged messages fail silently: [update_settings] from a
    socket that is not an admin (a display included), and [reset_game] or
    [start_race] from a socket that is neither admin nor display, change
    nothing and send nothing, not even an error to the sender. *)
Theorem privileged_messages_gated
    (s : Server) (ws : conn) (now : Z) (rnd : string) (d : Data) (l : Local) :
  sockets s !! ws = Some l →
  (type d = "update_settings" ∧ clientType l ≠ Some admin) ∨
  ((type d = "reset_game" ∨ type d = "start_race") ∧ is_operator l = false) →
  step s (Message ws now rnd (Parsed d)) = (s, []).
Proof.
  intros Hl H. cbn [step]. unfold on_message. rewrite Hl.
  destruct H as [[Hty Hna]|[[Hty|Hty] Hno]].
  - rewrite handle_update_settings by done. unfold update_settings. cbv zeta.
    by destruct (clientType l) as [[]|].
  - rewrite handle_reset_game by done. unfold reset_game. cbv zeta. by rewrite Hno.
  - rewrite handle_start_race by (by rewrite Hty).
    unfold start_race. cbv zeta. by rewrite Hno.
Qed.

Lemma privileged_messages_gated_witness :
  step (run server0 (take 4 first_race ++
                     [Connection 4%nat;
                      Message 4%nat 1 "d" (Parsed (plain "register_display"))]))
       (Message 4%nat 2 "d" (Parsed (mkData "update_settings" None None 0%Q
                                            (Some 2) None None None)))
  = (run server0 (take 4 first_race ++
                     [Connection 4%nat;
                      Message 4%nat 1 "d" (Parsed (plain "register_display"))]), []).
Proof.
  apply (privileged_messages_gated _ 4%nat 2 "d" _ (mkLocal (Some display) None)).
  - vm_compute. reflexivity.
  - left. split; [reflexivity|discriminate].
Defined.

(** ** start_race and update_settings *)

Lemma reset_position_idem t : reset_position (reset_position t) = reset_position t.
Proof. done. Qed.

Lemma reset_fold_lookup l : ∀ (o : gmap ref Team) r,
  fold_left (fun o r => alter reset_position r o) l o !! r =
    if bool_decide (r ∈ l) then reset_position <$> o !! r else o !! r.
Proof.
  induction l as [|r0 l IH]; intros o r; cbn [fold_left].
  - by rewrite bool_decide_eq_false_2 by apply not_elem_of_nil.
  - rewrite IH. destruct (decide (r0 = r)) as [->|Hne].
    + rewrite lookup_alter_eq.
      rewrite (bool_decide_eq_true_2 (r ∈ r :: l)) by apply list_elem_of_here.
      destruct (bool_decide (r ∈ l)); [|done]. by destruct (o !! r).
    + rewrite lookup_alter_ne by done.
      destruct (bool_decide (r ∈ l)) eqn:E.
      * apply bool_decide_eq_true_1 in E.
        by rewrite bool_decide_eq_true_2 by (by apply list_elem_of_further).
      * apply bool_decide_eq_false_1 in E.
        rewrite bool_decide_eq_false_2; [done|].
        intros H. apply elem_of_cons in H as [?|?]; congruence.
Qed.

(** X11. An accepted [start_race] sets the status to racing, records the
    start time, clears the winner and puts every team of the roster back to
    position 0 and aggregate intensity 0, keeping its id, name and members;
    team objects outside the roster and the player registry, with the
    intensities reported so far, are left alone. One [race_started]
    broadcast is sent. *)
Theorem start_race_rewinds
    (s : Server) (ws : conn) (now : Z) (rnd : string) (d : Data) (l : Local) (r : ref) :
  let g := gameState s in
  let g' := gameState (fst (step s (Message ws now rnd (Parsed d)))) in
  sockets s !! ws = Some l → type d = "start_race" →
  start_accepted l g = true →
  objs g' !! r =
    (if bool_decide (r ∈ team_values g)
     then reset_position <$> objs g !! r else objs g !! r) ∧
  players g' = players g ∧ teams g' = teams g ∧ settings g' = settings g ∧
  gameStatus g' = racing ∧ raceStartTime g' = Some now ∧ winner g' = None ∧
  snd (step s (Message ws now rnd (Parsed d))) = [(ToAll, race_started g')].
Proof.
  intros g g' Hl Hty Hacc. unfold g'. cbn [step]. unfold on_message. rewrite Hl.
  rewrite handle_start_race by (by rewrite Hty).
  unfold start_accepted in Hacc. apply andb_prop in Hacc as [Hop Hmin].
  unfold start_race. cbv zeta. fold g. rewrite Hop, Hmin.
  cbn [fst snd gameState set_gameState objs set_objs players teams settings
       gameStatus raceStartTime winner set_winner set_raceStartTime set_gameStatus].
  split; [|done]. apply reset_fold_lookup.
Qed.

Lemma start_race_rewinds_witness :
  position_at (gameState (fst (step (run server0 mid_race)
     (Message 3%nat 1100 "s" (Parsed (plain "start_race")))))) 1 = Some 0%Q.
Proof.
  destruct (start_race_rewinds (run server0 mid_race) 3%nat 1100 "s"
              (plain "start_race") (mkLocal (Some admin) None) 0%nat)
    as (H & _ & Ht & _).
  - vm_compute. reflexivity.
  - reflexivity.
  - vm_compute. reflexivity.
  - unfold position_at. rewrite team_at_eq, (team_ref_teams _ _ _ Ht).
    replace (team_ref (gameState (run server0 mid_race)) 1) with (Some 0%nat)
      by (vm_compute; reflexivity).
    rewrite H. vm_compute. reflexivity.
Defined.

Lemma default_truthy_Z old o :
  default old (truthy_Z o) =
    match o with
    | Some n => if n =? 0 then old else n
    | None => old
    end.
Proof. destruct o as [n|]; [|done]. cbn. by destruct (n =? 0). Qed.

Lemma default_truthy_Q old o :
  default old (truthy_Q o) =
    match o with
    | Some q => if Qeq_bool q 0 then old else q
    | None => old
    end.
Proof. destruct o as [q|]; [|done]. cbn. by destruct (Qeq_bool q 0). Qed.

Lemma fresh_roster_inactive g : fresh_roster g → active_teams g = [].
Proof.
  intros [_ Hall]. unfold active_teams, team_values.
  induction (teams g) as [|[k r] ts IH]; [done|]. cbn.
  destruct (Hall k r) as [_ Ho]; [apply list_elem_of_here|].
  unfold has_members at 1. rewrite Ho. cbn. apply IH.
  intros k' r' Hin. apply Hall. by apply list_elem_of_further.
Qed.

(** X12. An [update_settings] from an admin takes each of numTeams,
    maxPlayers, minTeams and speedCoef from the message unless the field is
    missing or zero, never changes baseSpeed, and rebuilds the roster as the
    empty teams 1..numTeams of the new settings; status, start time, winner
    and registry are not touched, so during a race the race goes on with no
    active team. *)
Theorem update_settings_result
    (s : Server) (ws : conn) (now : Z) (rnd : string) (d : Data) (l : Local) (k : Z) :
  let g := gameState s in
  let g' := gameState (fst (step s (Message ws now rnd (Parsed d)))) in
  sockets s !! ws = Some l → type d = "update_settings" →
  clientType l = Some admin →
  numTeams (settings g') =
    match d_numTeams d with
    | Some n => if n =? 0 then numTeams (settings g) else n
    | None => numTeams (settings g)
    end ∧
  maxPlayers (settings g') =
    match d_maxPlayers d with
    | Some n => if n =? 0 then maxPlayers (settings g) else n
    | None => maxPlayers (settings g)
    end ∧
  minTeams (settings g') =
    match d_minTeams d with
    | Some n => if n =? 0 then minTeams (settings g) else n
    | None => minTeams (settings g)
    end ∧
  speedCoef (settings g') =
    match d_speedCoef d with
    | Some q => if Qeq_bool q 0 then speedCoef (settings g) else q
    | None => speedCoef (settings g)
    end ∧
  baseSpeed (settings g') = baseSpeed (settings g) ∧
  team_at g' k = (if in_range g' k then Some (new_team k) else None) ∧
  active_teams g' = [] ∧
  players g' = players g ∧ gameStatus g' = gameStatus g ∧
  raceStartTime g' = raceStartTime g ∧ winner g' = winner g.
Proof.
  intros g g' Hl Hty Hadm. unfold g'. cbn [step]. unfold on_message. rewrite Hl.
  rewrite handle_update_settings by done. unfold update_settings. cbv zeta.
  rewrite Hadm. cbn [fst gameState set_gameState]. fold g.
  set (g1 := set_settings (apply_settings d (settings g)) g).
  destruct (initializeTeams_frame g1) as (Hs & Hp & Hst & Hrs & Hw).
  rewrite Hs, Hp, Hst, Hrs, Hw.
  assert (Hteam : team_at (initializeTeams g1) k =
                  (if in_range (initializeTeams g1) k then Some (new_team k) else None)).
  { pose proof (roster_ok_lookup _ k (initializeTeams_roster_ok g1)) as H.
    destruct (in_range (initializeTeams g1) k) eqn:R; [|done].
    destruct H as (t & Ht & _). rewrite team_at_eq in Ht |- *.
    destruct (team_ref (initializeTeams g1) k) as [r|] eqn:Er; [|done].
    apply team_ref_elem in Er.
    by destruct (initializeTeams_fresh g1) as [_ Hall];
      destruct (Hall _ _ Er) as [_ ->]. }
  unfold g1 at 1 2 3 4 5. cbn [settings set_settings apply_settings numTeams
    maxPlayers minTeams speedCoef baseSpeed].
  rewrite !default_truthy_Z, default_truthy_Q.
  do 5 (split; [done|]). split; [exact Hteam|].
  split; [apply fresh_roster_inactive, initializeTeams_fresh|done].
Qed.

Lemma update_settings_result_witness :
  numTeams (settings (gameState (fst (step (run server0 mid_race)
     (Message 3%nat 1100 "s"
        (Parsed (mkData "update_settings" None None 0%Q (Some 2) (Some 0) None None)))))))
    = 2 ∧
  maxPlayers (settings (gameState (fst (step (run server0 mid_race)
     (Message 3%nat 1100 "s"
        (Parsed (mkData "update_settings" None None 0%Q (Some 2) (Some 0) None None)))))))
    = 3.
Proof.
  destruct (update_settings_result (run server0 mid_race) 3%nat 1100 "s"
              (mkData "update_settings" None None 0%Q (Some 2) (Some 0) None None)
              (mkLocal (Some admin) None) 1)
    as (H1 & H2 & _).
  - vm_compute. reflexivity.
  - reflexivity.
  - reflexivity.
  - split; [exact H1|]. rewrite H2. vm_compute. reflexivity.
Defined.

(** ** update_shake *)

(** X13. [update_shake] writes the reported intensity and the time of receipt
    into the record of the sender's own player and nowhere else: every other
    record, the teams, the status and the winner are unchanged, nothing is
    sent, and a sender without a player id or without a record changes
    nothing at all. *)
Theorem update_shake_own_record
    (s : Server) (ws : conn) (now : Z) (rnd : string) (d : Data) (l : Local)
    (pid' : string) :
  let s' := fst (step s (Message ws now rnd (Parsed d))) in
  sockets s !! ws = Some l → type d = "update_shake" →
  snd (step s (Message ws now rnd (Parsed d))) = [] ∧
  players (gameState s') !! pid' =
    (if bool_decide (playerId l = Some pid' ∧ pid' ≠ EmptyString)
     then (fun p => mkPlayer (p_id p) (p_teamId p) (d_intensity d) now)
            <$> players (gameState s) !! pid'
     else players (gameState s) !! pid') ∧
  objs (gameState s') = objs (gameState s) ∧
  teams (gameState s') = teams (gameState s) ∧
  settings (gameState s') = settings (gameState s) ∧
  gameStatus (gameState s') = gameStatus (gameState s) ∧
  winner (gameState s') = winner (gameState s) ∧
  clients s' = clients s ∧ sockets s' = sockets s.
Proof.
  intros s' Hl Hty. unfold s'. cbn [step]. unfold on_message. rewrite Hl.
  rewrite handle_update_shake by done. unfold update_shake. cbv zeta.
  destruct (playerId l) as [pid|] eqn:Hp.
  2: { rewrite bool_decide_eq_false_2; [done|]. by intros [? _]. }
  unfold truthy_str. destruct (String.eqb pid EmptyString) eqn:Ee; cbn [negb].
  { apply String.eqb_eq in Ee. rewrite bool_decide_eq_false_2; [done|].
    intros [[= <-] ?]. done. }
  assert (pid ≠ EmptyString) as Hne.
  { intros ->. by rewrite String.eqb_refl in Ee. }
  destruct (players (gameState s) !! pid) as [p|] eqn:Hrec.
  - cbn. split; [done|]. split; [|done].
    destruct (decide (pid = pid')) as [<-|Hd].
    + rewrite lookup_insert_eq, bool_decide_eq_true_2 by done. by rewrite Hrec.
    + rewrite lookup_insert_ne by done. rewrite bool_decide_eq_false_2; [done|].
      intros [[= ?] _]. done.
  - cbn. split; [done|]. split; [|done].
    destruct (decide (pid = pid')) as [<-|Hd].
    + rewrite bool_decide_eq_true_2 by done. by rewrite Hrec.
    + rewrite bool_decide_eq_false_2; [done|]. intros [[= ?] _]. done.
Qed.

Lemma update_shake_own_record_witness :
  players (gameState (fst (step (run server0 mid_race)
     (Message 1%nat 1060 "s" (Parsed (shake 7)))))) !! "1001-b"
  = players (gameState (run server0 mid_race)) !! "1001-b".
Proof.
  destruct (update_shake_own_record (run server0 mid_race) 1%nat 1060 "s"
              (shake 7) (mkLocal (Some player) (Some "1000-a")) "1001-b")
    as (_ & H & _).
  - vm_compute. reflexivity.
  - reflexivity.
  - rewrite H, bool_decide_eq_false_2; [reflexivity|]. intros [E _]. discriminate E.
Defined.

(** ** The winner of a tick *)







(** ** What a tick sends *)

Lemma race_team_flag g b r :
  (b = true ↔ is_Some (winner g)) →
  (snd (race_team (g, b) r) = true ↔ is_Some (winner (fst (race_team (g, b) r)))).
Proof.
  intros H. unfold race_team. destruct (objs g !! r) as [team|]; [|done].
  cbv zeta. destruct (_ && _); [|done]. cbn. split; [by eexists|done].
Qed.

Lemma race_fold_flag l : ∀ g b,
  (b = true ↔ is_Some (winner g)) →
  (snd (fold_left race_team l (g, b)) = true
   ↔ is_Some (winner (fst (fold_left race_team l (g, b))))).
Proof.
  induction l as [|r l IH]; intros g b H; [done|].
  cbn [fold_left]. pose proof (race_team_flag g b r H) as H1.
  destruct (race_team (g, b) r) as [g1 b1]. by apply IH.
Qed.

(** X15. What a tick sends and what it leaves alone. Outside a race it sends
    nothing. In a race that has no winner yet it sends one [race_update] to
    the displays, listing the teams that had members at the start of the
    tick in roster order together with the winner's id, followed by one
    [race_finished] broadcast exactly when this tick set the winner. A team
    object that is not an active team of the roster is not modified. *)
Theorem tick_outputs (g : GameState) (now : Z) :
  let g' := fst (tick now g) in
  (gameStatus g ≠ racing → snd (tick now g) = []) ∧
  (gameStatus g = racing → winner g = None →
   snd (tick now g) =
     (ToDisplays,
      race_update (omap (summary (objs g')) (active_teams g))
                  (t_id <$> winner_team g'))
     :: match winner g' with
        | Some _ => [(ToAll, race_finished (winner_team g'))]
        | None => []
        end) ∧
  (∀ r, r ∉ active_teams g → objs g' !! r = objs g !! r).
Proof.
  cbv zeta. split; [|split].
  - intros Hst. unfold tick, race. by destruct (gameStatus g).
  - intros Hst Hw. unfold tick, race. rewrite Hst.
    pose proof (race_fold_flag (active_teams g) g false) as F.
    destruct (fold_left race_team (active_teams g) (g, false)) as [g' hw].
    cbn [fst snd] in *. change (winner_team (decay now g')) with (winner_team g').
    change (objs (decay now g')) with (objs g').
    change (winner (decay now g')) with (winner g').
    rewrite Hw in F. destruct F as [F1 F2]; [by split; [|intros [? ?]]|].
    destruct hw, (winner g') as [w|]; try done.
    + by destruct (F1 eq_refl).
    + by specialize (F2 (mk_is_Some _ _ eq_refl)).
  - intros r B. unfold tick, race. destruct (gameStatus g); try done.
    destruct (fold_left race_team (active_teams g) (g, false)) as [g' hw] eqn:E.
    cbn [fst decay objs set_players]. change g' with (fst (g', hw)).
    rewrite <- E. by apply race_fold_untouched.
Qed.

Lemma tick_outputs_witness :
  length (snd (tick 1050 (gameState (run server0 photo_finish)))) = 2%nat ∧
  snd (tick 1100 (gameState (run server0 first_race))) = [] ∧
  objs (fst (tick 1050 (gameState (run server0 photo_finish)))) !! 2%nat
    = objs (gameState (run server0 photo_finish)) !! 2%nat.
Proof.
  destruct (tick_outputs (gameState (run server0 photo_finish)) 1050) as (_ & H2 & H3).
  destruct (tick_outputs (gameState (run server0 first_race)) 1100) as (H1 & _).
  split; [|split].
  - rewrite H2 by (vm_compute; reflexivity). vm_compute. reflexivity.
  - apply H1. vm_compute. congruence.
  - apply H3. intros Hin. apply list_elem_of_In in Hin. vm_compute in Hin.
    destruct Hin as [E|[E|[]]]; discriminate E.
Defined.


(** ** Winner and status in reachable states *)

Lemma winner_ok_kept g g' :
  winner g' = winner g → gameStatus g' = gameStatus g →
  same_ids (objs g) (objs g') → winner_ok g → winner_ok g'.
Proof.
  intros Hw Hst Ho [H1 H2]. split; [by rewrite Hw, Hst|].
  intros r Hr. rewrite Hw in Hr. destruct (H2 _ Hr) as [t Ht].
  destruct (Ho _ _ Ht) as (t' & Ht' & _). by exists t'.
Qed.

Lemma winner_ok_none g : winner g = None → gameStatus g ≠ finished → winner_ok g.
Proof.
  intros Hw Hst. split; [|by rewrite Hw].
  rewrite Hw. split; [by intros [? ?]|done].
Qed.

Lemma race_team_winner_ok g b r : winner_ok g → winner_ok (fst (race_team (g, b) r)).
Proof.
  intros Hok. unfold race_team. destruct (objs g !! r) as [team|] eqn:Hr; [|done].
  cbv zeta. destruct (_ && _).
  - cbn. split; [split; [done|by eexists]|].
    intros r' [= <-]. cbn. by rewrite lookup_insert_eq.
  - cbn [fst]. apply (winner_ok_kept g); try done. cbn.
    by eapply same_ids_insert.
Qed.

Lemma race_fold_winner_ok l : ∀ g b,
  winner_ok g → winner_ok (fst (fold_left race_team l (g, b))).
Proof.
  induction l as [|r l IH]; intros g b H; [done|].
  cbn [fold_left]. pose proof (race_team_winner_ok g b r H) as H1.
  destruct (race_team (g, b) r) as [g1 b1]. by apply IH.
Qed.

Lemma tick_winner_ok now g : winner_ok g → winner_ok (fst (tick now g)).
Proof.
  intros H. unfold tick, race. destruct (gameStatus g) eqn:S;
    try (apply (winner_ok_kept g); [done|by rewrite S|apply same_ids_refl|done]).
  pose proof (race_fold_winner_ok (active_teams g) g false H) as F.
  destruct (fold_left race_team (active_teams g) (g, false)) as [g' hw].
  cbn [fst] in *. apply (winner_ok_kept g'); try done. apply same_ids_refl.
Qed.

Lemma fold_add_team_objs_mono l : ∀ g r,
  is_Some (objs g !! r) → is_Some (objs (fold_left add_team l g) !! r).
Proof.
  induction l as [|i l IH]; intros g r H; [done|].
  cbn [fold_left]. apply IH. unfold add_team. cbn [objs].
  destruct (decide (nextRef g = r)) as [->|Hne].
  - rewrite lookup_insert_eq. by eexists.
  - by rewrite lookup_insert_ne.
Qed.

Lemma step_winner_ok s e :
  winner_ok (gameState s) → winner_ok (gameState (fst (step s e))).
Proof.
  intros Hok. destruct e as [ws|ws now rnd [|d]|ws|now]; cbn [step].
  - done.
  - unfold on_message. by destruct (sockets s !! ws).
  - unfold on_message. destruct (sockets s !! ws) as [l|]; [|done].
    by_dispatch; try done.
    + pose proof (register_player_frame ws now rnd d s) as (_ & _ & Hst & _ & Hw).
      pose proof (register_player_static ws now rnd d s) as (_ & _ & _ & Ho).
      by apply (winner_ok_kept (gameState s)).
    + pose proof (update_shake_frame now d l s) as (_ & _ & _ & Hst & _ & Hw).
      pose proof (update_shake_static now d l s) as (_ & _ & _ & Ho).
      by apply (winner_ok_kept (gameState s)).
    + destruct (start_accepted l (gameState s)) eqn:A.
      * destruct (start_race_accepted now l s A) as (Hst & Hw & _).
        apply winner_ok_none; [done|]. by rewrite Hst.
      * by rewrite start_race_rejected.
    + unfold update_settings. cbv zeta. destruct (clientType l) as [[]|]; try done.
      cbn [fst gameState set_gameState].
      set (g1 := set_settings _ _).
      destruct (initializeTeams_frame g1) as (_ & _ & Hst & _ & Hw).
      destruct Hok as [H1 H2]. split; [by rewrite Hw, Hst|].
      intros r Hr. rewrite Hw in Hr.
      apply (fold_add_team_objs_mono _ (clear_teams g1)). by apply H2.
    + unfold reset_game. cbv zeta. destruct (is_operator l); [|done].
      cbn [fst gameState set_gameState set_clients].
      set (g1 := set_players _ _).
      destruct (initializeTeams_frame g1) as (_ & _ & Hst & _ & Hw).
      apply winner_ok_none; [by rewrite Hw|by rewrite Hst].
  - pose proof (on_close_winner_kept ws s) as Hw.
    pose proof (on_close_status_kept ws s) as Hst.
    pose proof (on_close_static ws s) as (_ & _ & _ & Ho).
    by apply (winner_ok_kept (gameState s)).
  - pose proof (tick_winner_ok now (gameState s) Hok) as H.
    by destruct (tick now (gameState s)).
Qed.

(** X16. In every state the server can reach, a winner is recorded exactly
    when the status is finished, and the recorded winner is an existing team
    object; in particular a racing state never has a winner yet. *)
Theorem reachable_winner_iff_finished (es : list Event) :
  winner_ok (gameState (run server0 es)).
Proof.
  assert (∀ s, winner_ok (gameState s) → winner_ok (gameState (run s es))) as H.
  { induction es as [|e es IH]; intros s Hs; [done|].
    change (run s (e :: es)) with (run (fst (step s e)) es).
    by apply IH, step_winner_ok. }
  apply H. apply winner_ok_none; vm_compute; [reflexivity|congruence].
Qed.

(** ** Roles and request_state *)

Lemma handle_sockets ws now rnd d l s :
  sockets (fst (handle ws now rnd d l s)) = sockets s ∨
  ∃ ct pid, sockets (fst (handle ws now rnd d l s))
            = <[ws := mkLocal (Some ct) pid]> (sockets s).
Proof.
  by_dispatch; try (by left); try (right; by do 2 eexists).
  - unfold register_player. cbv zeta.
    destruct (get_team _ _) as [[[k r] team]|]; [|by left].
    destruct (_ <=? _); [by left|]. right. by do 2 eexists.
  - left. unfold update_shake. cbv zeta.
    destruct (playerId l) as [pid|]; [|done].
    destruct (truthy_str _); [|done]. by destruct (players _ !! pid).
  - left. unfold start_race. cbv zeta. destruct (is_operator l); [|done].
    by destruct (_ <=? _).
  - left. unfold update_settings. cbv zeta. by destruct (clientType l) as [[]|].
  - left. unfold reset_game. cbv zeta. by destruct (is_operator l).
Qed.

Lemma on_close_sockets ws s :
  sockets (fst (on_close ws s)) = delete ws (sockets s).
Proof.
  unfold on_close. destruct (sockets s !! ws) as [l|] eqn:E.
  - destruct (clientType l) as [[]|]; try done.
    destruct (playerId l) as [pid|]; [|done]. by destruct (truthy_str _).
  - cbn. symmetry. by apply delete_id.
Qed.

(** X18. [request_state] never changes the state; it is answered, with the
    full state and to the sender only, exactly while the socket has no role,
    and is dropped without any reply afterwards. A role, once a socket has
    one, is never taken away again by any message of any socket or by a
    tick, for as long as the socket is open. *)
Theorem request_state_only_without_role
    (s : Server) (ws : conn) (now : Z) (rnd : string) (d : Data) (l : Local)
    (e : Event) :
  sockets s !! ws = Some l →
  (type d = "request_state" →
   step s (Message ws now rnd (Parsed d)) =
     (s, if bool_decide (clientType l = None)
         then [(ToSocket ws, game_state (gameState s))] else [])) ∧
  (is_Some (clientType l) → e ≠ Connection ws → e ≠ Close ws →
   ∃ l', sockets (fst (step s e)) !! ws = Some l' ∧ is_Some (clientType l')).
Proof.
  intros Hl. split.
  - intros Hty. cbn [step]. unfold on_message. rewrite Hl.
    unfold handle. cbv zeta. rewrite Hty. cbn.
    by destruct (bool_decide (clientType l = None)).
  - intros Hrole Hc Hcl. destruct e as [ws'|ws' n' r' [|d']|ws'|n']; cbn [step].
    + exists l. split; [|done]. unfold on_connection, set_local. cbn.
      rewrite lookup_insert_ne; [done|]. intros ->. done.
    + exists l. split; [|done]. unfold on_message. by destruct (sockets s !! ws').
    + unfold on_message. destruct (sockets s !! ws') as [l0|]; [|by exists l].
      destruct (handle_sockets ws' n' r' d' l0 s) as [->|(ct & pid & ->)];
        [by exists l|].
      destruct (decide (ws' = ws)) as [->|Hne].
      * rewrite lookup_insert_eq. eexists. split; [done|]. by eexists.
      * rewrite lookup_insert_ne by done. by exists l.
    + exists l. split; [|done]. rewrite on_close_sockets, lookup_delete_ne; [done|].
      intros ->. done.
    + exists l. split; [|done]. by destruct (tick n' (gameState s)).
Qed.

Lemma request_state_only_without_role_witness :
  step lobby (Message 1%nat 5 "q" (Parsed (plain "request_state")))
    = (lobby, [(ToSocket 1%nat, game_state (gameState lobby))]) ∧
  step (run server0 twice) (Message 1%nat 5 "q" (Parsed (plain "request_state")))
    = (run server0 twice, []) ∧
  (∃ l', sockets (fst (step (run server0 twice) (Interval 0))) !! 1%nat = Some l' ∧
         is_Some (clientType l')).
Proof.
  split; [|split].
  - apply (proj1 (request_state_only_without_role lobby 1%nat 5 "q"
                    (plain "request_state") (mkLocal None None) (Interval 0)
                    ltac:(vm_compute; reflexivity))).
    reflexivity.
  - apply (proj1 (request_state_only_without_role (run server0 twice) 1%nat 5 "q"
                    (plain "request_state") (mkLocal (Some player) (Some "1000-a"))
                    (Interval 0) ltac:(vm_compute; reflexivity))).
    reflexivity.
  - apply (proj2 (request_state_only_without_role (run server0 twice) 1%nat 5 "q"
                    (plain "request_state") (mkLocal (Some player) (Some "1000-a"))
                    (Interval 0) ltac:(vm_compute; reflexivity)));
      [by eexists|discriminate|discriminate].
Defined.

(** * The game loop in double precision *)

(** ** Literals *)

Lemma B64_literals :
  B64.half = B64.div (B64.of_Z 1) (B64.of_Z 2) ∧
  B64.tick_seconds = B64.div (B64.of_Z 5) (B64.of_Z 100) ∧
  B64.trackWidth = S754_finite false 8796093022208000 (-43) ∧
  B64.value B64.half == 1 # 2 ∧ B64.value B64.trackWidth == 1000.
Proof. repeat split; vm_compute; reflexivity. Qed.

(** ** Frame of the race loop *)

Lemma B64_race_team_objs g b r :
  B64.objs (fst (B64.race_team (g, b) r)) =
    match B64.objs g !! r with
    | Some team =>
        <[r := B64.advance (B64.settings g)
                 (B64.total_intensity (B64.players g) (B64.t_players team)) team]>
          (B64.objs g)
    | None => B64.objs g
    end.
Proof.
  unfold B64.race_team. destruct (B64.objs g !! r) as [team|]; [|done].
  cbv zeta. by case (_ && _).
Qed.

Lemma B64_race_team_frame g b r :
  B64.players (fst (B64.race_team (g, b) r)) = B64.players g ∧
  B64.settings (fst (B64.race_team (g, b) r)) = B64.settings g ∧
  B64.teams (fst (B64.race_team (g, b) r)) = B64.teams g.
Proof.
  unfold B64.race_team. destruct (B64.objs g !! r) as [team|]; [|done].
  cbv zeta. by case (_ && _).
Qed.

Lemma B64_race_fold_frame l : ∀ g b,
  B64.players (fst (fold_left B64.race_team l (g, b))) = B64.players g ∧
  B64.settings (fst (fold_left B64.race_team l (g, b))) = B64.settings g ∧
  B64.teams (fst (fold_left B64.race_team l (g, b))) = B64.teams g.
Proof.
  induction l as [|r l IH]; intros g b; [done|].
  cbn [fold_left]. destruct (B64.race_team (g, b) r) as [g1 b1] eqn:E.
  destruct (IH g1 b1) as (-> & -> & ->).
  pose proof (B64_race_team_frame g b r) as F. rewrite E in F. cbn in F. tauto.
Qed.

Lemma B64_tick_players now g :
  B64.players (fst (B64.tick now g)) = B64.decay_player now <$> B64.players g.
Proof.
  unfold B64.tick, B64.race. destruct (B64.gameStatus g); try done.
  destruct (fold_left B64.race_team (B64.active_teams g) (g, false))
    as [g' hw] eqn:E.
  cbn. pose proof (B64_race_fold_frame (B64.active_teams g) g false) as F.
  rewrite E in F. cbn in F. by destruct F as (-> & _).
Qed.

Lemma B64_tick_teams now g : B64.teams (fst (B64.tick now g)) = B64.teams g.
Proof.
  unfold B64.tick, B64.race. destruct (B64.gameStatus g); try done.
  destruct (fold_left B64.race_team (B64.active_teams g) (g, false))
    as [g' hw] eqn:E.
  cbn. pose proof (B64_race_fold_frame (B64.active_teams g) g false) as F.
  rewrite E in F. cbn in F. tauto.
Qed.

Lemma B64_race_fold_untouched r l : ∀ g b,
  r ∉ l → B64.objs (fst (fold_left B64.race_team l (g, b))) !! r = B64.objs g !! r.
Proof.
  induction l as [|r0 l IH]; intros g b Hn; [done|].
  apply not_elem_of_cons in Hn as [Hne Hn].
  cbn [fold_left]. destruct (B64.race_team (g, b) r0) as [g1 b1] eqn:E.
  rewrite IH by done. pose proof (B64_race_team_objs g b r0) as Ho.
  rewrite E in Ho. cbn [fst] in Ho. rewrite Ho.
  destruct (B64.objs g !! r0); [|done]. by rewrite lookup_insert_ne.
Qed.

Lemma B64_race_fold_advance r t l : ∀ g b,
  NoDup l → r ∈ l → B64.objs g !! r = Some t →
  B64.objs (fst (fold_left B64.race_team l (g, b))) !! r =
    Some (B64.advance (B64.settings g)
            (B64.total_intensity (B64.players g) (B64.t_players t)) t).
Proof.
  induction l as [|r0 l IH]; intros g b Hnd Hin Hr.
  { by apply elem_of_nil in Hin. }
  apply NoDup_cons in Hnd as [Hnotin Hnd].
  cbn [fold_left]. destruct (B64.race_team (g, b) r0) as [g1 b1] eqn:E.
  pose proof (B64_race_team_objs g b r0) as Ho.
  pose proof (B64_race_team_frame g b r0) as (Hp & Hst & _).
  rewrite E in Ho, Hp, Hst. cbn [fst] in Ho, Hp, Hst.
  destruct (decide (r0 = r)) as [->|Hne].
  - rewrite B64_race_fold_untouched by done. rewrite Ho, Hr.
    by rewrite lookup_insert_eq.
  - apply elem_of_cons in Hin as [->|Hin]; [done|].
    rewrite <- Hp, <- Hst. apply IH; [done|done|].
    rewrite Ho. destruct (B64.objs g !! r0); [|done]. by rewrite lookup_insert_ne.
Qed.

Lemma B64_active_teams_NoDup g :
  NoDup (B64.team_values g) → NoDup (B64.active_teams g).
Proof. rewrite !NoDup_ListNoDup. apply List.NoDup_filter. Qed.

Lemma B64_active_teams_elem g r t :
  r ∈ B64.team_values g → B64.objs g !! r = Some t → B64.t_players t ≠ [] →
  r ∈ B64.active_teams g.
Proof.
  intros Hin Hr Hne. apply list_elem_of_In, filter_In.
  split; [by apply list_elem_of_In|].
  unfold B64.has_members. rewrite Hr. by destruct (B64.t_players t).
Qed.

Lemma B64_race_team_finish g b r :
  B64.winner g = None ∨ B64.gameStatus g = finished →
  B64.winner (fst (B64.race_team (g, b) r)) = None ∨
  B64.gameStatus (fst (B64.race_team (g, b) r)) = finished.
Proof.
  unfold B64.race_team. destruct (B64.objs g !! r) as [team|]; [|done].
  cbv zeta. case (_ && _); [by right|done].
Qed.

Lemma B64_race_fold_finish l : ∀ g b,
  B64.winner g = None ∨ B64.gameStatus g = finished →
  B64.winner (fst (fold_left B64.race_team l (g, b))) = None ∨
  B64.gameStatus (fst (fold_left B64.race_team l (g, b))) = finished.
Proof.
  induction l as [|r l IH]; intros g b H; [done|].
  cbn [fold_left]. destruct (B64.race_team (g, b) r) as [g1 b1] eqn:E.
  apply IH. change g1 with (fst (g1, b1)). rewrite <- E.
  by apply B64_race_team_finish.
Qed.

Lemma B64_tick_finish now g :
  B64.winner g = None → is_Some (B64.winner (fst (B64.tick now g))) →
  B64.gameStatus (fst (B64.tick now g)) = finished.
Proof.
  intros Hn. unfold B64.tick, B64.race. destruct (B64.gameStatus g) eqn:S; cbn.
  1, 3: rewrite Hn; by intros [? ?].
  destruct (fold_left B64.race_team (B64.active_teams g) (g, false))
    as [g' hw] eqn:E.
  cbn. intros [w Hw].
  destruct (B64_race_fold_finish (B64.active_teams g) g false (or_introl Hn))
    as [H|H]; rewrite E in H; cbn in H; congruence.
Qed.

Lemma B64_tick_idle now g :
  B64.gameStatus g ≠ racing →
  B64.objs (fst (B64.tick now g)) = B64.objs g ∧ snd (B64.tick now g) = [].
Proof. unfold B64.tick, B64.race. by destruct (B64.gameStatus g). Qed.

(** ** The decay in double precision *)

Lemma B64_Math_max_0_not_negative v :
  B64.ltb (B64.Math_max B64.zero v) B64.zero = false.
Proof. by destruct v as [[]|[]| |[] m e]. Qed.

Lemma B64_decayed_not_negative v : B64.nonneg (B64.decayed v) = true.
Proof. unfold B64.nonneg, B64.decayed. by rewrite B64_Math_max_0_not_negative. Qed.

(** ** Binary64 arithmetic

    Facts about the operations of [SpecFloat] at precision 53 that the game
    loop relies on: a sum of non-negative numbers is not below its first
    term, rounding is exact on a number that fits the format, and the
    results carry the sign of the exact result. *)

Lemma digits2_size m : digits2_pos m = Pos.size m.
Proof. induction m; cbn; congruence. Qed.

Lemma digits_bounds m :
  2 ^ (Zpos (digits2_pos m) - 1) <= Zpos m < 2 ^ Zpos (digits2_pos m).
Proof.
  rewrite digits2_size. split.
  - pose proof (Pos.size_le m) as H.
    assert (Zpos (2 ^ Pos.size m) <= Zpos (m~0)) as H' by exact H.
    rewrite Pos2Z.inj_pow in H'. pose proof (Pos2Z.inj_xO m) as H2.
    replace (Zpos (Pos.size m)) with (Z.succ (Zpos (Pos.size m) - 1)) in H' by lia.
    rewrite Z.pow_succ_r in H' by lia. lia.
  - pose proof (Pos.size_gt m) as H.
    assert (Zpos m < Zpos (2 ^ Pos.size m)) as H' by exact H.
    now rewrite Pos2Z.inj_pow in H'.
Qed.

Lemma shr_1_m mrs : 0 <= shr_m mrs -> shr_m (shr_1 mrs) = Z.div2 (shr_m mrs).
Proof.
  destruct mrs as [m r s]. cbn. intros H.
  destruct m as [|p|p]; [reflexivity| |lia]. now destruct p.
Qed.

Lemma shr_iter_m p : forall mrs,
  0 <= shr_m mrs ->
  shr_m (SpecFloat.iter_pos shr_1 p mrs) = Z.shiftr (shr_m mrs) (Zpos p).
Proof.
  induction p as [p IH|p IH|]; intros mrs H; cbn [SpecFloat.iter_pos].
  - assert (0 <= shr_m (shr_1 mrs)) as H1
      by (rewrite shr_1_m, Z.div2_spec by done; by apply Z.shiftr_nonneg).
    assert (0 <= shr_m (SpecFloat.iter_pos shr_1 p (shr_1 mrs))) as H2
      by (rewrite IH by done; by apply Z.shiftr_nonneg).
    rewrite IH, IH, shr_1_m by done.
    rewrite Z.div2_spec, !Z.shiftr_shiftr by lia. f_equal. lia.
  - assert (0 <= shr_m (SpecFloat.iter_pos shr_1 p mrs)) as H1
      by (rewrite IH by done; by apply Z.shiftr_nonneg).
    rewrite IH, IH by done.
    rewrite !Z.shiftr_shiftr by lia. f_equal. lia.
  - rewrite shr_1_m by done. apply Z.div2_spec.
Qed.

Lemma shr_m_spec mrs e n :
  0 <= shr_m mrs -> 0 <= n ->
  shr_m (fst (shr mrs e n)) = Z.shiftr (shr_m mrs) n /\ snd (shr mrs e n) = e + n.
Proof.
  intros H Hn. unfold shr. destruct n as [|p|p]; [| |lia].
  - split; [cbn [fst]; now rewrite Z.shiftr_0_r | cbn [snd]; lia].
  - split; [now apply shr_iter_m|reflexivity].
Qed.

Lemma fexp64_eq d : fexp 53 1024 d = Z.max (d - 53) (-1074).
Proof. reflexivity. Qed.

Lemma iter_xO m d : Zpos (Pos.iter xO m d) = Zpos m * 2 ^ Zpos d.
Proof.
  induction d as [|d IH] using Pos.peano_ind.
  - cbn. lia.
  - rewrite Pos.iter_succ, Pos2Z.inj_xO, IH, Pos2Z.inj_succ, Z.pow_succ_r by lia. lia.
Qed.

Lemma shl_align_spec m e e' :
  e' <= e -> Zpos (fst (shl_align m e e')) = Zpos m * 2 ^ (e - e').
Proof.
  intros H. unfold shl_align. destruct (e' - e) as [|p|p] eqn:E; cbn [fst].
  - replace (e - e') with 0 by lia. lia.
  - lia.
  - rewrite iter_xO. f_equal. f_equal. lia.
Qed.

Lemma shl_align_id m e e' : e <= e' -> shl_align m e e' = (m, e).
Proof.
  intros H. unfold shl_align. destruct (e' - e) as [|p|p] eqn:E; try reflexivity. lia.
Qed.

Lemma round_nearest_even_ge m l : m <= round_nearest_even m l.
Proof.
  destruct l as [|[]]; cbn; try lia. destruct (Z.even m); lia.
Qed.

Lemma shr_m_of_loc m l : shr_m (shr_record_of_loc m l) = m.
Proof. now destruct l as [|[]]. Qed.

(** Shifting a positive integer right by at most (digits - 1) keeps it positive. *)
Lemma shiftr_pos m n :
  0 <= n < Zpos (digits2_pos m) -> 0 < Z.shiftr (Zpos m) n.
Proof.
  intros H. rewrite Z.shiftr_div_pow2 by lia.
  destruct (digits_bounds m) as [L _].
  apply Z.lt_le_trans with (2 ^ (Zpos (digits2_pos m) - 1 - n)).
  - apply Z.pow_pos_nonneg; lia.
  - apply Z.div_le_lower_bound; [apply Z.pow_pos_nonneg; lia|].
    rewrite <- Z.pow_add_r by lia.
    replace (n + (Zpos (digits2_pos m) - 1 - n)) with (Zpos (digits2_pos m) - 1) by lia.
    exact L.
Qed.

(** [shr_fexp] on a positive mantissa whose exponent is at least [emin]. *)
Lemma shr_fexp_pos m e l :
  -1074 <= e ->
  let r := shr_fexp 53 1024 (Zpos m) e l in
  0 < shr_m (fst r) /\ e <= snd r /\ (snd r = e -> shr_m (fst r) = Zpos m).
Proof.
  intros He r. unfold r, shr_fexp. cbn [Zdigits2].
  rewrite fexp64_eq.
  set (n := Z.max (Zpos (digits2_pos m) + e - 53) (-1074) - e).
  destruct (Z.le_gt_cases n 0) as [Hn|Hn].
  - assert (shr (shr_record_of_loc (Zpos m) l) e n = (shr_record_of_loc (Zpos m) l, e)) as ->.
    { unfold shr. destruct n; try reflexivity. lia. }
    cbn [fst snd]. rewrite shr_m_of_loc. lia.
  - destruct (shr_m_spec (shr_record_of_loc (Zpos m) l) e n) as [H1 H2];
      [rewrite shr_m_of_loc; lia|lia|].
    rewrite H1, H2, shr_m_of_loc. split; [|lia].
    apply shiftr_pos. unfold n in *. lia.
Qed.

Lemma canonical_exponent m e :
  canonical_mantissa 53 1024 m e = true ->
  Z.max (Zpos (digits2_pos m) + e - 53) (-1074) = e.
Proof. unfold canonical_mantissa. rewrite fexp64_eq. apply Z.eqb_eq. Qed.

Lemma digits_mono mx M k :
  0 <= k -> Zpos mx * 2 ^ k <= Zpos M ->
  Zpos (digits2_pos mx) + k <= Zpos (digits2_pos M).
Proof.
  intros Hk H.
  destruct (digits_bounds mx) as [L _]. destruct (digits_bounds M) as [_ U].
  assert (2 ^ (Zpos (digits2_pos mx) - 1 + k) < 2 ^ Zpos (digits2_pos M)) as HH.
  { rewrite Z.pow_add_r by lia.
    apply Z.le_lt_trans with (Zpos M); [|exact U].
    apply Z.le_trans with (Zpos mx * 2 ^ k); [|exact H].
    apply Z.mul_le_mono_nonneg_r; [apply Z.pow_nonneg; lia|exact L]. }
  apply Z.pow_lt_mono_r_iff in HH; lia.
Qed.

Lemma binary_round_aux_ge s mx ex M e :
  canonical_mantissa 53 1024 mx ex = true ->
  e <= ex -> Zpos mx * 2 ^ (ex - e) <= Zpos M ->
  exists m' e',
    binary_round_aux 53 1024 s (Zpos M) e loc_Exact
    = (if e' <=? 971 then S754_finite s m' e' else S754_infinity s) /\
    (ex < e' \/ (e' = ex /\ Zpos mx <= Zpos m')).
Proof.
  intros Hc He HM. apply canonical_exponent in Hc.
  pose proof (digits_mono mx M (ex - e) ltac:(lia) HM) as Hd.
  unfold binary_round_aux.
  destruct (shr_fexp 53 1024 (Zpos M) e loc_Exact) as [mrs1 e1] eqn:E1.
  assert (0 < shr_m mrs1 /\ ex <= e1 /\ -1074 <= e1 /\ (e1 = ex -> Zpos mx <= shr_m mrs1))
    as (P1 & P2 & P3 & P4).
  { unfold shr_fexp in E1. cbn [Zdigits2 shr_record_of_loc] in E1.
    rewrite fexp64_eq in E1.
    set (n := Z.max (Zpos (digits2_pos M) + e - 53) (-1074) - e) in E1.
    destruct (shr_m_spec {| shr_m := Zpos M; shr_r := false; shr_s := false |} e n)
      as [H1 H2]; [cbn; lia|unfold n; lia|].
    rewrite E1 in H1, H2. cbn [fst snd shr_m] in H1, H2.
    rewrite H1, H2. unfold n in *. split; [|split; [lia|split; [lia|]]].
    - destruct (Z.eq_dec (Z.max (Zpos (digits2_pos M) + e - 53) (-1074)) ex) as [Q|Q].
      + rewrite Q, Z.shiftr_div_pow2 by lia.
        apply Z.lt_le_trans with (Zpos mx); [lia|].
        apply Z.div_le_lower_bound; [apply Z.pow_pos_nonneg; lia|lia].
      + apply shiftr_pos. lia.
    - intros Q. replace (Z.max (Zpos (digits2_pos M) + e - 53) (-1074) - e) with (ex - e) by lia.
      rewrite Z.shiftr_div_pow2 by lia.
      apply Z.div_le_lower_bound; [apply Z.pow_pos_nonneg; lia|lia]. }
  pose proof (round_nearest_even_ge (shr_m mrs1) (loc_of_shr_record mrs1)) as R.
  destruct (round_nearest_even (shr_m mrs1) (loc_of_shr_record mrs1)) as [|p2|p2]; [lia| |lia].
  pose proof (shr_fexp_pos p2 e1 loc_Exact P3) as S2. cbv zeta in S2.
  destruct (shr_fexp 53 1024 (Zpos p2) e1 loc_Exact) as [mrs2 e2]. cbn [fst snd] in S2.
  destruct S2 as (S1 & S2 & S3).
  destruct (shr_m mrs2) as [|m'|m']; [lia| |lia].
  exists m', e2. split; [reflexivity|].
  destruct (Z.eq_dec e2 ex) as [Q|Q]; [right|left; lia].
  split; [exact Q|]. rewrite S3 by lia. apply Z.le_trans with (shr_m mrs1); [apply P4; lia|exact R].
Qed.

Lemma SFleb_refl_finite m e : SFleb (S754_finite false m e) (S754_finite false m e) = true.
Proof.
  unfold SFleb, SFcompare. rewrite Z.compare_refl.
  change (Pos.compare_cont Eq m m) with (Pos.compare m m). now rewrite Pos.compare_refl.
Qed.

Lemma SFleb_finite mx ex m' e' :
  ex < e' \/ (e' = ex /\ Zpos mx <= Zpos m') ->
  SFleb (S754_finite false mx ex) (S754_finite false m' e') = true.
Proof.
  intros [H|[-> H]]; unfold SFleb, SFcompare.
  - apply Z.compare_lt_iff in H. now rewrite H.
  - rewrite Z.compare_refl. change (Pos.compare_cont Eq mx m') with (Pos.compare mx m').
    destruct (Pos.compare mx m') eqn:E; try reflexivity.
    apply Pos.compare_gt_iff in E. lia.
Qed.

Lemma B64_add_monotone x y :
  valid_binary 53 1024 x = true ->
  SFleb (S754_zero false) x = true -> SFleb (S754_zero false) y = true ->
  SFleb x (SFadd 53 1024 x y) = true.
Proof.
  intros Hv Hx Hy.
  destruct x as [sx|[]| |[] mx ex]; try discriminate Hx;
  destruct y as [sy|[]| |[] my ey]; try discriminate Hy;
    try reflexivity; try (destruct sx; reflexivity);
    try (destruct sx, sy; reflexivity); try apply SFleb_refl_finite.
  cbn [valid_binary] in Hv. unfold bounded in Hv. apply andb_prop in Hv as [Hc _].
  unfold SFadd. cbv zeta. cbn [cond_Zopp].
  change (Zpos (fst (shl_align mx ex (Z.min ex ey))) + Zpos (fst (shl_align my ey (Z.min ex ey))))
    with (Zpos (fst (shl_align mx ex (Z.min ex ey)) + fst (shl_align my ey (Z.min ex ey)))).
  cbn [binary_normalize]. unfold binary_round.
  set (M := (fst (shl_align mx ex (Z.min ex ey)) + fst (shl_align my ey (Z.min ex ey)))%positive).
  assert (Zpos mx * 2 ^ (ex - Z.min ex ey) <= Zpos M) as HM.
  { unfold M. rewrite Pos2Z.inj_add, shl_align_spec by lia. lia. }
  pose proof (digits_mono mx M (ex - Z.min ex ey) ltac:(lia) HM) as Hd.
  pose proof (canonical_exponent _ _ Hc) as Hc'.
  rewrite shl_align_id by (rewrite fexp64_eq; lia).
  destruct (binary_round_aux_ge false mx ex M (Z.min ex ey) Hc ltac:(lia) HM)
    as (m' & e' & -> & H).
  destruct (e' <=? 971); [now apply SFleb_finite|reflexivity].
Qed.

Lemma digits_unique N a :
  2 ^ (a - 1) <= Zpos N < 2 ^ a -> Zpos (digits2_pos N) = a.
Proof.
  intros [L U]. destruct (digits_bounds N) as [L' U'].
  assert (0 <= a) as Ha.
  { destruct (Z.lt_ge_cases a 0) as [Hneg|]; [|lia].
    rewrite (Z.pow_neg_r 2 a) in U by lia. lia. }
  assert (a - 1 < Zpos (digits2_pos N)) as H1.
  { apply (Z.pow_lt_mono_r_iff 2); lia. }
  assert (Zpos (digits2_pos N) - 1 < a) as H2.
  { apply (Z.pow_lt_mono_r_iff 2); lia. }
  lia.
Qed.

Lemma shr_1_even k :
  shr_1 (Build_shr_record (2 * k) false false) = Build_shr_record k false false.
Proof. by destruct k. Qed.

Lemma shr_iter_exact p : forall k,
  SpecFloat.iter_pos shr_1 p (Build_shr_record (k * 2 ^ Zpos p) false false)
  = Build_shr_record k false false.
Proof.
  induction p as [p IH|p IH|]; intros k; cbn [SpecFloat.iter_pos].
  - replace (k * 2 ^ Zpos p~1) with (2 * (k * 2 ^ Zpos p * 2 ^ Zpos p)).
    + by rewrite shr_1_even, IH, IH.
    + replace (Zpos p~1) with (Zpos p + Zpos p + 1) by lia.
      rewrite !Z.pow_add_r by lia. change (2 ^ 1) with 2. lia.
  - replace (k * 2 ^ Zpos p~0) with (k * 2 ^ Zpos p * 2 ^ Zpos p).
    + by rewrite IH, IH.
    + replace (Zpos p~0) with (Zpos p + Zpos p) by lia.
      rewrite Z.pow_add_r by lia. lia.
  - change (2 ^ 1) with 2. replace (k * 2) with (2 * k) by lia. apply shr_1_even.
Qed.

Lemma round_tail s mx ex lx m1 f :
  shr_fexp 53 1024 mx ex lx = (Build_shr_record (Zpos m1) false false, f) ->
  canonical_mantissa 53 1024 m1 f = true -> f <= 971 ->
  binary_round_aux 53 1024 s mx ex lx = S754_finite s m1 f.
Proof.
  intros H Hc Hf. unfold binary_round_aux. rewrite H.
  cbn [shr_m loc_of_shr_record round_nearest_even].
  unfold shr_fexp. cbn [Zdigits2].
  unfold canonical_mantissa in Hc. apply Z.eqb_eq in Hc. rewrite Hc, Z.sub_diag.
  cbn [shr shr_record_of_loc shr_m].
  change (1024 - 53) with 971. apply Z.leb_le in Hf. by rewrite Hf.
Qed.

Lemma binary_round_aux_canonical s m e :
  canonical_mantissa 53 1024 m e = true -> e <= 971 ->
  binary_round_aux 53 1024 s (Zpos m) e loc_Exact = S754_finite s m e.
Proof.
  intros Hc He. apply round_tail; [|done|done].
  unfold shr_fexp. cbn [Zdigits2].
  unfold canonical_mantissa in Hc. apply Z.eqb_eq in Hc. by rewrite Hc, Z.sub_diag.
Qed.

Lemma shl_align_snd m e e' : e' <= e -> snd (shl_align m e e') = e'.
Proof.
  intros H. unfold shl_align. destruct (e' - e) as [|p|p] eqn:E; cbn [snd]; lia.
Qed.

(** Rounding is exact on a number that fits the format. *)
Lemma binary_round_exact s M e :
  let f := fexp 53 1024 (Zpos (digits2_pos M) + e) in
  f <= 971 -> (e < f -> exists k, Zpos M = k * 2 ^ (f - e)) ->
  exists m', binary_round 53 1024 s M e = S754_finite s m' f /\
    canonical_mantissa 53 1024 m' f = true /\
    ((f <= e /\ Zpos m' = Zpos M * 2 ^ (e - f)) \/
     (e < f /\ Zpos M = Zpos m' * 2 ^ (f - e))).
Proof.
  intros f Hf Hdiv. unfold binary_round. fold f.
  destruct (digits_bounds M) as [L U].
  destruct (Z.le_gt_cases f e) as [Hle|Hgt].
  - pose proof (shl_align_spec M e f Hle) as H1.
    pose proof (shl_align_snd M e f Hle) as H2.
    destruct (shl_align M e f) as [M' e']. cbn [fst snd] in H1, H2. subst e'.
    assert (canonical_mantissa 53 1024 M' f = true) as Hc.
    { unfold canonical_mantissa. apply Z.eqb_eq.
      rewrite (digits_unique M' (Zpos (digits2_pos M) + (e - f))).
      + replace (Zpos (digits2_pos M) + (e - f) + f) with (Zpos (digits2_pos M) + e) by lia.
        done.
      + rewrite H1.
        replace (Zpos (digits2_pos M) + (e - f) - 1) with (Zpos (digits2_pos M) - 1 + (e - f)) by lia.
        rewrite !Z.pow_add_r by lia.
        assert (0 < 2 ^ (e - f)) by (apply Z.pow_pos_nonneg; lia). nia. }
    exists M'. split; [|split; [done|left; done]].
    by apply binary_round_aux_canonical.
  - destruct (Hdiv Hgt) as [k Hk].
    rewrite shl_align_id by lia.
    assert (0 < 2 ^ (f - e)) as Hp by (apply Z.pow_pos_nonneg; lia).
    destruct k as [|m'|m']; [lia| |lia].
    assert (Zpos (digits2_pos m') = Zpos (digits2_pos M) - (f - e)) as Hd.
    { apply digits_unique.
      assert (f - e < Zpos (digits2_pos M)) as Hlt.
      { apply (Z.pow_lt_mono_r_iff 2); [lia|lia|]. nia. }
      assert (2 ^ (Zpos (digits2_pos M) - 1)
              = 2 ^ (Zpos (digits2_pos M) - (f - e) - 1) * 2 ^ (f - e)) as E1
        by (rewrite <- Z.pow_add_r by lia; f_equal; lia).
      assert (2 ^ Zpos (digits2_pos M)
              = 2 ^ (Zpos (digits2_pos M) - (f - e)) * 2 ^ (f - e)) as E2
        by (rewrite <- Z.pow_add_r by lia; f_equal; lia).
      rewrite E1 in L. rewrite E2 in U. nia. }
    assert (canonical_mantissa 53 1024 m' f = true) as Hc.
    { unfold canonical_mantissa. apply Z.eqb_eq. rewrite Hd.
      replace (Zpos (digits2_pos M) - (f - e) + f) with (Zpos (digits2_pos M) + e) by lia.
      done. }
    exists m'. split; [|split; [done|right; done]].
    apply round_tail; [|done|done].
    unfold shr_fexp. cbn [Zdigits2 shr_record_of_loc]. fold f.
    unfold shr. destruct (f - e) as [|n|n] eqn:E; [lia| |lia].
    rewrite Hk, shr_iter_exact. f_equal. lia.
Qed.

Lemma two_neq_0 : ~ (2 # 1 == 0)%Q.
Proof. done. Qed.

Lemma inject_pow2 n : 0 <= n -> (inject_Z (2 ^ n) == (2 # 1) ^ n)%Q.
Proof. intros H. by rewrite Zpower_Qpower. Qed.

(** What an exact rounding denotes. *)
Lemma exact_value M e m' f :
  (f <= e /\ Zpos m' = Zpos M * 2 ^ (e - f)) \/
  (e < f /\ Zpos M = Zpos m' * 2 ^ (f - e)) ->
  (inject_Z (Zpos m') * (2 # 1) ^ f == inject_Z (Zpos M) * (2 # 1) ^ e)%Q.
Proof.
  intros [[H ->]|[H ->]]; rewrite inject_Z_mult, inject_pow2 by lia.
  - rewrite <- Qmult_assoc, <- Qpower_plus by apply two_neq_0.
    by replace (e - f + f) with e by lia.
  - rewrite <- Qmult_assoc, <- Qpower_plus by apply two_neq_0.
    by replace (f - e + e) with f by lia.
Qed.

Lemma SFleb_finite_inv m1 e1 m2 e2 :
  SFleb (S754_finite false m1 e1) (S754_finite false m2 e2) = true ->
  e1 < e2 \/ (e1 = e2 /\ Zpos m1 <= Zpos m2).
Proof.
  unfold SFleb, SFcompare. destruct (Z.compare_spec e1 e2) as [->|H|H].
  - change (Pos.compare_cont Eq m1 m2) with (Pos.compare m1 m2).
    destruct (Pos.compare_spec m1 m2); intros; try done; right; split; lia.
  - by left.
  - done.
Qed.

Lemma SFltb_finite_inv m1 e1 m2 e2 :
  SFltb (S754_finite false m1 e1) (S754_finite false m2 e2) = true ->
  e1 < e2 \/ (e1 = e2 /\ Zpos m1 < Zpos m2).
Proof.
  unfold SFltb, SFcompare. destruct (Z.compare_spec e1 e2) as [->|H|H].
  - change (Pos.compare_cont Eq m1 m2) with (Pos.compare m1 m2).
    destruct (Pos.compare_spec m1 m2); intros; try done; right; split; lia.
  - by left.
  - done.
Qed.

Lemma B64_sub_half_exact mx ex :
  valid_binary 53 1024 (S754_finite false mx ex) = true ->
  SFleb B64.half (S754_finite false mx ex) = true ->
  SFleb (S754_finite false mx ex) (S754_finite false 4503599627370496 0) = true ->
  let r := SFsub 53 1024 (S754_finite false mx ex) B64.half in
  (r = S754_zero false \/
   exists m e, r = S754_finite false m e /\
     SFleb r (S754_finite false mx ex) = true) /\
  valid_binary 53 1024 r = true /\
  (B64.value r == inject_Z (Zpos mx) * (2 # 1) ^ ex - (1 # 2))%Q.
Proof.
  intros Hv Hlo Hhi r.
  cbn [valid_binary] in Hv. unfold bounded in Hv. apply andb_prop in Hv as [Hc _].
  apply canonical_exponent in Hc.
  apply SFleb_finite_inv in Hlo. apply SFleb_finite_inv in Hhi.
  assert (-53 <= ex <= 0) as Hex by lia.
  assert (Zpos (digits2_pos mx) = 53) as Hd by lia.
  destruct (digits_bounds mx) as [L U]. rewrite Hd in L, U.
  change (2 ^ (53 - 1)) with 4503599627370496 in L.
  change (2 ^ 53) with 9007199254740992 in U.
  assert ((inject_Z (Zpos mx * 2 ^ (ex + 53) - 4503599627370496) * (2 # 1) ^ (-53)
           == inject_Z (Zpos mx) * (2 # 1) ^ ex - (1 # 2))%Q) as HQ.
  { unfold Z.sub at 1. rewrite inject_Z_plus, inject_Z_mult, inject_pow2 by lia.
    rewrite Qmult_plus_distr_l, <- Qmult_assoc, <- Qpower_plus by apply two_neq_0.
    replace (ex + 53 + -53) with ex by lia. unfold Qminus. apply Qplus_comp; [reflexivity|].
    reflexivity. }
  subst r. unfold SFsub, B64.half. cbv zeta. cbn [cond_Zopp].
  replace (Z.min ex (-53)) with (-53) by lia.
  rewrite shl_align_spec by lia.
  rewrite (shl_align_id 4503599627370496 (-53) (-53)) by lia. cbn [fst].
  replace (ex - -53) with (ex + 53) by lia.
  assert (1 <= 2 ^ (ex + 53)) as Hp by (pose proof (Z.pow_pos_nonneg 2 (ex + 53)); lia).
  destruct (Zpos mx * 2 ^ (ex + 53) - 4503599627370496) as [|M|M] eqn:EM; [| |nia].
  - cbn [binary_normalize]. split; [by left|]. split; [done|].
    rewrite <- HQ. reflexivity.
  - cbn [binary_normalize].
    destruct (digits_bounds M) as [LM UM].
    assert (Zpos M < 2 ^ (53 + (ex + 53))) as B1.
    { rewrite Z.pow_add_r by lia. change (2 ^ 53) with 9007199254740992. nia. }
    assert (Zpos (digits2_pos M) <= 53 + (ex + 53) /\ Zpos (digits2_pos M) <= 105) as [D1 D2].
    { assert (Zpos M < 2 ^ 105) as B2.
      { destruct (Z.eq_dec ex 0) as [->|Hne].
        - assert (Zpos mx = 4503599627370496) as Hmx by lia.
          rewrite Hmx in EM. vm_compute in EM. injection EM as <-. done.
        - apply Z.lt_le_trans with (2 ^ (53 + (ex + 53))); [done|].
          apply Z.pow_le_mono_r; lia. }
      assert (Zpos (digits2_pos M) - 1 < 53 + (ex + 53))
        by (apply (Z.pow_lt_mono_r_iff 2); lia).
      assert (Zpos (digits2_pos M) - 1 < 105)
        by (apply (Z.pow_lt_mono_r_iff 2); lia).
      lia. }
    destruct (binary_round_exact false M (-53)) as (m' & Hr & Hcan & Hm).
    + rewrite fexp64_eq. lia.
    + rewrite fexp64_eq. intros Hlt.
      set (n := Z.max (Zpos (digits2_pos M) + -53 - 53) (-1074) - -53) in *.
      assert (0 < n <= ex + 53 /\ n <= 52) as (N1 & N2) by (unfold n in *; lia).
      exists (Zpos mx * 2 ^ (ex + 53 - n) - 2 ^ (52 - n)).
      rewrite <- EM, Z.mul_sub_distr_r, <- Z.mul_assoc, <- !Z.pow_add_r by lia.
      replace (ex + 53 - n + n) with (ex + 53) by lia.
      by replace (52 - n + n) with 52 by lia.
    + rewrite Hr. rewrite fexp64_eq in Hm, Hcan |- *.
      set (f := Z.max (Zpos (digits2_pos M) + -53 - 53) (-1074)) in *.
      assert (f <= ex) as Hfe by (unfold f; lia).
      split; [right; do 2 eexists; split; [done|]|split].
      * apply SFleb_finite. destruct (Z.eq_dec f ex) as [Hfx|Hfx]; [right|left; lia].
        split; [done|].
        destruct Hm as [[Hle Hm]|[Hlt Hm]].
        -- replace (-53 - f) with 0 in Hm by lia. change (2 ^ 0) with 1 in Hm.
           replace (ex + 53) with 0 in EM by lia. change (2 ^ 0) with 1 in EM. lia.
        -- replace (f - -53) with (ex + 53) in Hm by lia.
           assert (Zpos m' * 2 ^ (ex + 53) < Zpos mx * 2 ^ (ex + 53)) as Hlt' by lia.
           apply Z.mul_lt_mono_pos_r in Hlt'; lia.
      * cbn [valid_binary]. unfold bounded. rewrite Hcan. cbn [andb].
        apply Z.leb_le. change (1024 - 53) with 971. lia.
      * cbn [B64.value cond_Zopp]. rewrite (exact_value _ _ _ _ Hm). exact HQ.
Qed.

Lemma shr_nonneg mrs e n : 0 <= shr_m mrs -> 0 <= shr_m (fst (shr mrs e n)).
Proof.
  intros H. unfold shr. destruct n as [|p|p]; cbn [fst]; try done.
  rewrite shr_iter_m by done. by apply Z.shiftr_nonneg.
Qed.

Lemma binary_round_aux_signed s m e l :
  0 <= m -> B64.signed s (binary_round_aux 53 1024 s m e l).
Proof.
  intros Hm. unfold binary_round_aux.
  pose proof (shr_nonneg (shr_record_of_loc m l) e
                (fexp 53 1024 (Zdigits2 m + e) - e)) as H1.
  rewrite shr_m_of_loc in H1. specialize (H1 Hm).
  change (shr (shr_record_of_loc m l) e (fexp 53 1024 (Zdigits2 m + e) - e))
    with (shr_fexp 53 1024 m e l) in H1.
  destruct (shr_fexp 53 1024 m e l) as [mrs1 e1]. cbn [fst] in H1.
  pose proof (round_nearest_even_ge (shr_m mrs1) (loc_of_shr_record mrs1)) as R.
  set (m2 := round_nearest_even (shr_m mrs1) (loc_of_shr_record mrs1)) in *.
  pose proof (shr_nonneg (shr_record_of_loc m2 loc_Exact) e1
                (fexp 53 1024 (Zdigits2 m2 + e1) - e1)) as H2.
  rewrite shr_m_of_loc in H2. specialize (H2 ltac:(lia)).
  change (shr (shr_record_of_loc m2 loc_Exact) e1 (fexp 53 1024 (Zdigits2 m2 + e1) - e1))
    with (shr_fexp 53 1024 m2 e1 loc_Exact) in H2.
  destruct (shr_fexp 53 1024 m2 e1 loc_Exact) as [mrs2 e2]. cbn [fst] in H2.
  destruct (shr_m mrs2) as [|p|p]; [done| |lia].
  by destruct (e2 <=? 1024 - 53).
Qed.

Lemma binary_round_signed s m e : B64.signed s (binary_round 53 1024 s m e).
Proof.
  unfold binary_round. destruct (shl_align m e _) as [mz ez].
  by apply binary_round_aux_signed.
Qed.

Lemma B64_Math_max_0_negative r : B64.signed true r -> B64.Math_max B64.zero r = B64.zero.
Proof. by destruct r as [[]|[]| |[] m e]. Qed.

Lemma B64_Math_max_0_positive r :
  r = S754_zero false \/ (exists m e, r = S754_finite false m e) ->
  B64.Math_max B64.zero r = r.
Proof. by intros [->|(m & e & ->)]. Qed.

Lemma B64_sub_half_negative x :
  valid_binary 53 1024 x = true -> SFltb x B64.half = true ->
  B64.signed true (SFsub 53 1024 x B64.half).
Proof.
  intros Hv Hlt. destruct x as [s|[]| |[] mx ex]; try done.
  - unfold SFsub, B64.half. cbv zeta. cbn [cond_Zopp].
    change (- Zpos ?a - Zpos ?b) with (Zneg (a + b)). cbn [binary_normalize].
    apply binary_round_signed.
  - cbn [valid_binary] in Hv. unfold bounded in Hv. apply andb_prop in Hv as [Hc _].
    apply canonical_exponent in Hc.
    apply SFltb_finite_inv in Hlt.
    destruct (digits_bounds mx) as [_ U].
    assert (Zpos mx < 2 ^ 53) as Hmx.
    { apply Z.lt_le_trans with (1 := U). apply Z.pow_le_mono_r; lia. }
    change (2 ^ 53) with 9007199254740992 in Hmx.
    unfold SFsub, B64.half. cbv zeta. cbn [cond_Zopp].
    replace (Z.min ex (-53)) with ex by lia.
    rewrite (shl_align_id mx ex ex) by lia.
    rewrite (shl_align_spec 4503599627370496 (-53) ex) by lia. cbn [fst].
    assert (Zpos mx - 4503599627370496 * 2 ^ (-53 - ex) < 0) as Hneg.
    { destruct Hlt as [Hlt|[-> Hlt]].
      - assert (2 ^ 1 <= 2 ^ (-53 - ex)) by (apply Z.pow_le_mono_r; lia).
        change (2 ^ 1) with 2 in *. lia.
      - change (2 ^ (-53 - -53)) with 1. lia. }
    destruct (Zpos mx - 4503599627370496 * 2 ^ (-53 - ex)) as [|M|M]; [lia|lia|].
    cbn [binary_normalize]. apply binary_round_signed.
Qed.

(** ** Rounding from above *)

Lemma digits_le_of_lt (M : positive) a :
  0 <= a → Zpos M < 2 ^ a → Zpos (digits2_pos M) <= a.
Proof.
  intros Ha H. destruct (digits_bounds M) as [L _].
  assert (Zpos (digits2_pos M) - 1 < a) by (apply (Z.pow_lt_mono_r_iff 2); lia).
  lia.
Qed.

(** The second half of [binary_round_aux], on a rounded mantissa of at most
    54 digits. *)
Lemma binary_round_aux_finish s m e l mrs1 f :
  shr_fexp 53 1024 m e l = (mrs1, f) →
  let m2 := round_nearest_even (shr_m mrs1) (loc_of_shr_record mrs1) in
  -1074 <= f → f <= 971 → 0 <= m2 <= 2 ^ 53 →
  (m2 = 0 ∧ binary_round_aux 53 1024 s m e l = S754_zero s) ∨
  (∃ p, m2 = Zpos p ∧ Zpos p < 2 ^ 53 ∧
        binary_round_aux 53 1024 s m e l = S754_finite s p f) ∨
  (m2 = 2 ^ 53 ∧
   binary_round_aux 53 1024 s m e l =
     if f + 1 <=? 971 then S754_finite s 4503599627370496 (f + 1)
     else S754_infinity s).
Proof.
  intros E1 m2 Hf1 Hf2 Hm. unfold binary_round_aux. rewrite E1. fold m2.
  destruct m2 as [|p|p] eqn:Em2; [left|right|lia].
  - split; [done|]. unfold shr_fexp. cbn [Zdigits2 shr_record_of_loc].
    rewrite fexp64_eq.
    assert (Z.max (0 + f - 53) (-1074) - f <= 0) as Hn by lia.
    unfold shr. destruct (Z.max (0 + f - 53) (-1074) - f); [done|lia|done].
  - destruct (Z.eq_dec (Zpos p) (2 ^ 53)) as [Hp|Hp]; [right|left].
    + split; [done|]. change (2 ^ 53) with (Zpos 9007199254740992) in Hp.
      injection Hp as ->. unfold shr_fexp. cbn [Zdigits2].
      change (Zpos (digits2_pos 9007199254740992)) with 54.
      rewrite fexp64_eq. replace (Z.max (54 + f - 53) (-1074) - f) with 1 by lia.
      cbn [shr shr_record_of_loc SpecFloat.iter_pos shr_1 shr_m].
      change (1024 - 53) with 971. done.
    + exists p. split; [done|]. split; [lia|].
      assert (Zpos (digits2_pos p) <= 53) as Hd by (apply digits_le_of_lt; lia).
      unfold shr_fexp. cbn [Zdigits2]. rewrite fexp64_eq.
      assert (Z.max (Zpos (digits2_pos p) + f - 53) (-1074) - f <= 0) as Hn by lia.
      unfold shr.
      destruct (Z.max (Zpos (digits2_pos p) + f - 53) (-1074) - f) as [|n|n]; [|lia|];
        cbn [shr_record_of_loc shr_m]; change (1024 - 53) with 971;
        apply Z.leb_le in Hf2; by rewrite Hf2.
Qed.

Lemma round_nearest_even_le m l : round_nearest_even m l <= m + 1.
Proof. destruct l as [|[]]; cbn; try lia. destruct (Z.even m); lia. Qed.

(** Rounding a magnitude that is not above a number of the format gives a
    result that is not above it. *)
Lemma binary_round_le s mx ex M e :
  canonical_mantissa 53 1024 mx ex = true → ex <= 971 → e <= ex →
  Zpos M <= Zpos mx * 2 ^ (ex - e) →
  binary_round 53 1024 s M e = S754_zero s ∨
  ∃ m' e', binary_round 53 1024 s M e = S754_finite s m' e' ∧
           (e' < ex ∨ (e' = ex ∧ Zpos m' <= Zpos mx)).
Proof.
  intros Hc Hex He HM. apply canonical_exponent in Hc.
  destruct (digits_bounds mx) as [Lx Ux].
  assert (Zpos mx < 2 ^ 53) as Hmx.
  { apply Z.lt_le_trans with (1 := Ux). apply Z.pow_le_mono_r; lia. }
  assert (Zpos (digits2_pos M) <= Zpos (digits2_pos mx) + (ex - e)) as Hd.
  { apply digits_le_of_lt; [lia|]. rewrite Z.pow_add_r by lia.
    assert (0 < 2 ^ (ex - e)) by (apply Z.pow_pos_nonneg; lia). nia. }
  set (f := fexp 53 1024 (Zpos (digits2_pos M) + e)).
  assert (f = Z.max (Zpos (digits2_pos M) + e - 53) (-1074)) as Ef by apply fexp64_eq.
  assert (-1074 <= f <= ex) as Hf by lia.
  destruct (Z.le_gt_cases f e) as [Hle|Hgt].
  - destruct (binary_round_exact s M e) as (m' & Hr & _ & Hm); fold f; [lia|lia|].
    fold f in Hr, Hm. right. exists m', f. split; [done|].
    destruct Hm as [[_ Hm]|[? _]]; [|lia].
    destruct (Z.eq_dec f ex) as [Hfx|Hfx]; [right|left; lia].
    split; [done|]. replace (e - f) with 0 in Hm by lia.
    replace (ex - e) with 0 in HM by lia. rewrite Z.pow_0_r in Hm, HM. lia.
  - unfold binary_round. fold f. rewrite shl_align_id by lia.
    destruct (shr_m_spec {| shr_m := Zpos M; shr_r := false; shr_s := false |} e (f - e))
      as [H1 H2]; [cbn; lia|lia|].
    assert (shr_fexp 53 1024 (Zpos M) e loc_Exact
            = shr {| shr_m := Zpos M; shr_r := false; shr_s := false |} e (f - e)) as E0
      by done.
    rewrite <- E0 in H1, H2.
    destruct (shr_fexp 53 1024 (Zpos M) e loc_Exact) as [mrs1 e1] eqn:E1.
    cbn [fst snd shr_m] in H1, H2. replace (e + (f - e)) with f in H2 by lia. subst e1.
    rewrite Z.shiftr_div_pow2 in H1 by lia.
    assert (0 < 2 ^ (f - e)) as Hp by (apply Z.pow_pos_nonneg; lia).
    assert (0 <= shr_m mrs1 < 2 ^ 53) as Hm1.
    { rewrite H1. split; [apply Z.div_pos; lia|].
      apply Z.div_lt_upper_bound; [done|]. rewrite <- Z.pow_add_r by lia.
      destruct (digits_bounds M) as [_ UM].
      apply Z.lt_le_trans with (1 := UM). apply Z.pow_le_mono_r; lia. }
    pose proof (round_nearest_even_ge (shr_m mrs1) (loc_of_shr_record mrs1)) as R1.
    pose proof (round_nearest_even_le (shr_m mrs1) (loc_of_shr_record mrs1)) as R2.
    assert (f = ex → round_nearest_even (shr_m mrs1) (loc_of_shr_record mrs1) <= Zpos mx)
      as Hfx.
    { intros ->. destruct (Z.eq_dec (Zpos M) (Zpos mx * 2 ^ (ex - e))) as [HeqM|HneM].
      - unfold shr in E0.
        destruct (ex - e) as [|n|n] eqn:En; [lia| |lia].
        rewrite HeqM, shr_iter_exact in E0. injection E0 as -> _. cbn. lia.
      - assert (shr_m mrs1 < Zpos mx); [|lia].
        rewrite H1. apply Z.div_lt_upper_bound; [done|]. lia. }
    destruct (binary_round_aux_finish s (Zpos M) e loc_Exact mrs1 f E1)
      as [[_ Hr]|[(p & Hp2 & Hlt & Hr)|[H53 Hr]]]; [lia|lia|lia| | |].
    + by left.
    + right. exists p, f. split; [done|].
      destruct (Z.eq_dec f ex) as [Q|Q]; [right|left; lia].
      split; [done|]. rewrite <- Hp2. by apply Hfx.
    + right. assert (f < ex) as Hlt.
      { destruct (Z.eq_dec f ex) as [Q|Q]; [|lia]. specialize (Hfx Q). lia. }
      assert ((f + 1 <=? 971) = true) as Hb by (apply Z.leb_le; lia).
      rewrite Hb in Hr. exists 4503599627370496%positive, (f + 1). split; [done|].
      destruct (Z.eq_dec (f + 1) ex) as [Q|Q]; [right|left; lia].
      split; [done|].
      assert (Zpos (digits2_pos mx) = 53) as Hdx by lia.
      rewrite Hdx in Lx. change (2 ^ (53 - 1)) with 4503599627370496 in Lx. lia.
Qed.

Lemma SFleb_refl_finite_neg m e :
  SFleb (S754_finite true m e) (S754_finite true m e) = true.
Proof.
  unfold SFleb, SFcompare. rewrite Z.compare_refl.
  change (Pos.compare_cont Eq m m) with (Pos.compare m m). by rewrite Pos.compare_refl.
Qed.

Lemma SFleb_finite_neg mx ex m' e' :
  e' < ex ∨ (e' = ex ∧ Zpos m' <= Zpos mx) →
  SFleb (S754_finite true mx ex) (S754_finite true m' e') = true.
Proof.
  intros [H|[-> H]]; unfold SFleb, SFcompare.
  - apply Z.compare_gt_iff in H. by rewrite H.
  - rewrite Z.compare_refl. change (Pos.compare_cont Eq mx m') with (Pos.compare mx m').
    destruct (Pos.compare mx m') eqn:E; try reflexivity.
    change ((mx < m')%positive) in E. lia.
Qed.

(** Adding a non-negative number to a number above minus infinity does not
    lower it. *)
Lemma B64_add_monotone_any x y :
  B64.valid x = true → B64.ltb B64.neg_infinity x = true →
  B64.leb B64.zero y = true → B64.leb x (B64.add x y) = true.
Proof.
  intros Hv Hx Hy.
  destruct x as [sx|[]| |[] mx ex]; try discriminate Hx.
  - apply B64_add_monotone; [done| |done]. by destruct sx.
  - by apply B64_add_monotone.
  - destruct y as [sy|[]| |[] my ey]; try discriminate Hy;
      [apply SFleb_refl_finite_neg|done|].
    cbn [B64.valid valid_binary] in Hv. unfold bounded in Hv.
    apply andb_prop in Hv as [Hc Hb]. apply Z.leb_le in Hb.
    change (1024 - 53) with 971 in Hb.
    unfold B64.leb, B64.add, SFadd. cbv zeta. cbn [cond_Zopp].
    pose proof (shl_align_spec mx ex (Z.min ex ey) ltac:(lia)) as Ex.
    pose proof (shl_align_spec my ey (Z.min ex ey) ltac:(lia)) as Ey.
    assert (0 < 2 ^ (ey - Z.min ex ey)) by (apply Z.pow_pos_nonneg; lia).
    destruct (- Zpos (fst (shl_align mx ex (Z.min ex ey)))
              + Zpos (fst (shl_align my ey (Z.min ex ey)))) as [|M|M] eqn:EM;
      cbn [binary_normalize].
    + done.
    + pose proof (binary_round_signed false M (Z.min ex ey)) as Hs.
      by destruct (binary_round 53 1024 false M (Z.min ex ey)) as [[]|[]| |[] m e].
    + destruct (binary_round_le true mx ex M (Z.min ex ey) Hc Hb ltac:(lia))
        as [->|(m' & e' & -> & Hle)]; [lia|done|].
      by apply SFleb_finite_neg.
  - by apply B64_add_monotone.
Qed.

(** ** Sums, products and the step of one half *)

Lemma B64_signed_false_nonneg r : B64.signed false r → B64.leb B64.zero r = true.
Proof. destruct r as [[]|[]| |[] m e]; cbn; done. Qed.

Lemma B64_add_nonneg a b :
  B64.leb B64.zero a = true → B64.leb B64.zero b = true →
  B64.leb B64.zero (B64.add a b) = true.
Proof.
  intros Ha Hb.
  destruct a as [sa|[]| |[] ma ea]; try discriminate Ha;
  destruct b as [sb|[]| |[] mb eb]; try discriminate Hb;
    try reflexivity; try (destruct sa; reflexivity);
    try (destruct sa, sb; reflexivity).
  apply B64_signed_false_nonneg. unfold B64.add, SFadd. cbv zeta. cbn [cond_Zopp].
  change (Zpos ?a + Zpos ?b) with (Zpos (a + b)). cbn [binary_normalize].
  apply binary_round_signed.
Qed.

Lemma B64_mul_nonneg a b :
  B64.leb B64.zero a = true → B64.leb B64.zero b = true →
  B64.mul a b = S754_nan ∨ B64.leb B64.zero (B64.mul a b) = true.
Proof.
  intros Ha Hb.
  destruct a as [sa|[]| |[] ma ea]; try discriminate Ha;
  destruct b as [sb|[]| |[] mb eb]; try discriminate Hb;
    try (by left); try (by right); try (destruct sa; by right);
    try (destruct sb; by right); try (destruct sa, sb; by right).
  right. apply B64_signed_false_nonneg. unfold B64.mul, SFmul. cbn [xorb].
  by apply binary_round_aux_signed.
Qed.

Lemma B64_total_intensity_nonneg ps members :
  (∀ pid p, pid ∈ members → ps !! pid = Some p →
     B64.leb B64.zero (B64.to_number (B64.p_shakeIntensity p)) = true) →
  B64.leb B64.zero (B64.total_intensity ps members) = true.
Proof.
  unfold B64.total_intensity.
  assert (∀ acc, B64.leb B64.zero acc = true →
            (∀ pid p, pid ∈ members → ps !! pid = Some p →
               B64.leb B64.zero (B64.to_number (B64.p_shakeIntensity p)) = true) →
            B64.leb B64.zero
              (fold_left (fun acc pid =>
                            match ps !! pid with
                            | Some p => B64.add acc (B64.to_number (B64.p_shakeIntensity p))
                            | None => acc
                            end) members acc) = true) as H.
  { induction members as [|pid members IH]; intros acc Hacc Hall; [done|].
    cbn [fold_left]. apply IH.
    - destruct (ps !! pid) as [p|] eqn:E; [|done].
      apply B64_add_nonneg; [done|]. apply (Hall pid p); [apply list_elem_of_here|done].
    - intros pid' p' Hin. apply Hall. by apply list_elem_of_further. }
  intros Hall. by apply H.
Qed.

(** With non-negative intensities and coefficients the increment of a team is
    non-negative, or NaN (an infinite aggregate times a zero coefficient). *)
Lemma B64_increment_nonneg st total :
  B64.leb B64.zero total = true →
  B64.leb B64.zero (B64.speedCoef st) = true →
  B64.leb B64.zero (B64.baseSpeed st) = true →
  B64.increment st total = S754_nan ∨
  B64.leb B64.zero (B64.increment st total) = true.
Proof.
  intros Ht Hc Hb. unfold B64.increment.
  destruct (B64_mul_nonneg total (B64.speedCoef st) Ht Hc) as [->|H1]; [by left|].
  destruct (B64_mul_nonneg _ (B64.baseSpeed st) H1 Hb) as [->|H2]; [by left|].
  by apply B64_mul_nonneg.
Qed.

(** The decay of a stored intensity, case by case. *)
Lemma B64_decayed_exact x :
  B64.valid x = true → B64.leb B64.half x = true →
  B64.leb x B64.exact_bound = true →
  (B64.value (B64.decayed (B64.JNum x)) == B64.value x - (1 # 2))%Q ∧
  B64.valid (B64.decayed (B64.JNum x)) = true ∧
  B64.leb B64.zero (B64.decayed (B64.JNum x)) = true ∧
  B64.leb (B64.decayed (B64.JNum x)) x = true ∧
  (B64.decayed (B64.JNum x) = B64.zero ∨
   ∃ m e, B64.decayed (B64.JNum x) = S754_finite false m e).
Proof.
  intros Hv Hlo Hhi.
  destruct x as [s|[]| |[] mx ex]; try discriminate Hlo; try discriminate Hhi.
  destruct (B64_sub_half_exact mx ex Hv Hlo Hhi) as (Hshape & Hval & HQ).
  cbv zeta in Hshape, Hval, HQ.
  unfold B64.decayed, B64.to_number, B64.sub.
  rewrite B64_Math_max_0_positive.
  - split; [exact HQ|]. split; [exact Hval|].
    destruct Hshape as [->|(m & e & -> & Hle)].
    + split; [done|]. split; [done|]. by left.
    + split; [done|]. split; [exact Hle|]. right. by do 2 eexists.
  - destruct Hshape as [->|(m & e & -> & _)]; [by left|right; by do 2 eexists].
Qed.

Lemma B64_decayed_small x :
  B64.valid x = true → B64.ltb x B64.half = true →
  B64.decayed (B64.JNum x) = B64.zero.
Proof.
  intros Hv Hlt. unfold B64.decayed, B64.to_number, B64.sub.
  apply B64_Math_max_0_negative. by apply B64_sub_half_negative.
Qed.

(** ** Positions in the game loop *)

Lemma B64_tick_objs now g : B64.objs (fst (B64.tick now g)) = B64.objs (fst (B64.race g)).
Proof. unfold B64.tick. by destruct (B64.race g). Qed.

(** A racing tick advances every team with members, once. *)
Lemma B64_tick_advance now g r t :
  B64.gameStatus g = racing → NoDup (B64.team_values g) →
  r ∈ B64.team_values g → B64.objs g !! r = Some t → B64.t_players t ≠ [] →
  B64.objs (fst (B64.tick now g)) !! r =
    Some (B64.advance (B64.settings g)
            (B64.total_intensity (B64.players g) (B64.t_players t)) t).
Proof.
  intros Hs Hnd Hin Hr Hne. rewrite B64_tick_objs. unfold B64.race. rewrite Hs.
  pose proof (B64_race_fold_advance r t (B64.active_teams g) g false
                (B64_active_teams_NoDup g Hnd)
                (B64_active_teams_elem g r t Hin Hr Hne) Hr) as H.
  by destruct (fold_left B64.race_team (B64.active_teams g) (g, false)).
Qed.

(** A tick leaves a team alone outside a race, and when it has no member. *)
Lemma B64_tick_untouched now g r :
  B64.gameStatus g ≠ racing ∨ B64.has_members (B64.objs g) r = false →
  B64.objs (fst (B64.tick now g)) !! r = B64.objs g !! r.
Proof.
  intros H. rewrite B64_tick_objs. unfold B64.race.
  destruct (B64.gameStatus g) eqn:Hs; try done.
  destruct H as [H|H]; [done|].
  pose proof (B64_race_fold_untouched r (B64.active_teams g) g false) as U.
  destruct (fold_left B64.race_team (B64.active_teams g) (g, false)).
  apply U. intros Hin. apply list_elem_of_In, filter_In in Hin as [_ Hin]. congruence.
Qed.

(** C4, as amended. In a racing tick the position of a team with members
    becomes [position + increment], both operations rounded to binary64,
    where the increment is the aggregate of its members' stored intensities
    times [speedCoef] times [baseSpeed] times 0.05. The new position is not
    below the old one whenever the increment is a non-negative number and
    the old position is a number above minus infinity; the increment is
    non-negative, or NaN, whenever those intensities, [speedCoef] and
    [baseSpeed] are non-negative numbers. A tick moves no team outside a race, nor a team
    without members. A tick that sets a winner leaves the status [finished];
    and while the status is not [racing] no tick, and no message other than
    [reset_game], [update_settings] or an accepted [start_race], changes the
    keys of the roster or the position of any team object. *)
Theorem position_advances_then_frozen
    (g : B64.GameState) (now : Z) (r : ref) (t : B64.Team)
    (s : Server) (e : Event) (r0 : ref) (t0 : Team) :
  let inc := B64.increment (B64.settings g)
               (B64.total_intensity (B64.players g) (B64.t_players t)) in
  (B64.gameStatus g = racing → NoDup (B64.team_values g) →
   r ∈ B64.team_values g → B64.objs g !! r = Some t → B64.t_players t ≠ [] →
   B64.teams (fst (B64.tick now g)) = B64.teams g ∧
   ∃ t', B64.objs (fst (B64.tick now g)) !! r = Some t' ∧
         B64.t_position t' = B64.add (B64.t_position t) inc ∧
         (B64.valid (B64.t_position t) = true →
          B64.ltb B64.neg_infinity (B64.t_position t) = true →
          B64.leb B64.zero inc = true →
          B64.leb (B64.t_position t) (B64.t_position t') = true) ∧
         ((∀ pid p, pid ∈ B64.t_players t → B64.players g !! pid = Some p →
             B64.leb B64.zero (B64.to_number (B64.p_shakeIntensity p)) = true) →
          B64.leb B64.zero (B64.speedCoef (B64.settings g)) = true →
          B64.leb B64.zero (B64.baseSpeed (B64.settings g)) = true →
          inc = S754_nan ∨ B64.leb B64.zero inc = true)) ∧
  (B64.gameStatus g ≠ racing ∨ B64.has_members (B64.objs g) r = false →
   B64.teams (fst (B64.tick now g)) = B64.teams g ∧
   B64.objs (fst (B64.tick now g)) !! r = B64.objs g !! r) ∧
  (B64.winner g = None → is_Some (B64.winner (fst (B64.tick now g))) →
   B64.gameStatus (fst (B64.tick now g)) = finished) ∧
  (objs (gameState s) !! r0 = Some t0 → gameStatus (gameState s) ≠ racing →
   is_type "reset_game" e = false → is_type "update_settings" e = false →
   accepted_start s e = false →
   teams (gameState (fst (step s e))) = teams (gameState s) ∧
   ∃ t', objs (gameState (fst (step s e))) !! r0 = Some t' ∧
         t_position t' = t_position t0).
Proof.
  intros inc. split; [|split; [|split]].
  - intros Hs Hnd Hin Hr Hne. split; [apply B64_tick_teams|].
    eexists. split; [by apply B64_tick_advance|].
    split; [done|]. split.
    + intros Hv Hp Hi. cbn [B64.advance B64.t_position].
      by apply B64_add_monotone_any.
    + intros Hall Hc Hb. apply B64_increment_nonneg; [|done|done].
      apply B64_total_intensity_nonneg. intros pid p. apply Hall.
  - intros H. split; [apply B64_tick_teams|by apply B64_tick_untouched].
  - apply B64_tick_finish.
  - intros. split; [by apply step_teams_kept|by apply step_position].
Qed.

Lemma position_advances_then_frozen_witness :
  (∃ t', B64.objs (fst (B64.tick 1050
                      (B64.one_player (B64.JNum (B64.of_Z 600)) 1010 B64.zero)))
           !! 0%nat = Some t' ∧
         B64.leb B64.zero (B64.t_position t') = true) ∧
  B64.objs (fst (B64.tick 1050
     (B64.finish 0%nat (B64.one_player (B64.JNum (B64.of_Z 600)) 1010 B64.trackWidth))))
    !! 0%nat
  = B64.objs (B64.finish 0%nat
       (B64.one_player (B64.JNum (B64.of_Z 600)) 1010 B64.trackWidth)) !! 0%nat ∧
  B64.gameStatus (fst (B64.tick 1050
     (B64.one_player (B64.JNum (B64.of_Z 600)) 1010 (B64.of_Z 999)))) = finished ∧
  (∃ t t', objs (gameState (run server0 first_race)) !! 0%nat = Some t ∧
           objs (gameState (fst (step (run server0 first_race) (Interval 1100))))
             !! 0%nat = Some t' ∧
           t_position t' = t_position t).
Proof.
  pose (t0 := default (new_team 0) (objs (gameState (run server0 first_race)) !! 0%nat)).
  assert (Ht0 : objs (gameState (run server0 first_race)) !! 0%nat = Some t0)
    by (vm_compute; reflexivity).
  split; [|split; [|split]].
  - destruct (proj1 (position_advances_then_frozen
                (B64.one_player (B64.JNum (B64.of_Z 600)) 1010 B64.zero) 1050 0%nat
                (B64.mkTeam 1 "Red" ["1000-a"] B64.zero B64.zero)
                (run server0 first_race) (Interval 1100) 0%nat t0))
      as (_ & t' & H1 & _ & H3 & _).
    + reflexivity.
    + vm_compute. repeat constructor. intros H. inversion H.
    + vm_compute. constructor.
    + vm_compute. reflexivity.
    + discriminate.
    + exists t'. split; [exact H1|]. apply H3; vm_compute; reflexivity.
  - apply (proj1 (proj2 (position_advances_then_frozen
                  (B64.finish 0%nat
                     (B64.one_player (B64.JNum (B64.of_Z 600)) 1010 B64.trackWidth))
                  1050 0%nat
                  (B64.mkTeam 1 "Red" ["1000-a"] B64.trackWidth B64.zero)
                  (run server0 first_race) (Interval 1100) 0%nat t0))).
    left. discriminate.
  - apply (proj1 (proj2 (proj2 (position_advances_then_frozen
                  (B64.one_player (B64.JNum (B64.of_Z 600)) 1010 (B64.of_Z 999))
                  1050 0%nat
                  (B64.mkTeam 1 "Red" ["1000-a"] (B64.of_Z 999) B64.zero)
                  (run server0 first_race) (Interval 1100) 0%nat t0)))).
    + reflexivity.
    + eexists. vm_compute. reflexivity.
  - destruct (proj2 (proj2 (proj2 (position_advances_then_frozen
                  (B64.one_player (B64.JNum (B64.of_Z 600)) 1010 B64.zero) 1050 0%nat
                  (B64.mkTeam 1 "Red" ["1000-a"] B64.zero B64.zero)
                  (run server0 first_race) (Interval 1100) 0%nat t0))))
      as (_ & t' & H1 & H2).
    + exact Ht0.
    + vm_compute. congruence.
    + reflexivity.
    + reflexivity.
    + reflexivity.
    + exists t0, t'. split; [exact Ht0|]. split; [exact H1|exact H2].
Defined.

(** ** Decay *)

(** C8, as amended. On every tick, whatever the game status, a player whose
    last input is more than 200 ms old has its intensity replaced by
    [Math.max(0, intensity - 0.5)] as binary64 computes it: exactly one half
    less for a number from 0.5 to 2^52, zero for a number below 0.5, NaN for
    an absent intensity. The result is never negative, and no tick makes a
    non-negative intensity negative; a player within the threshold keeps its
    record unchanged. *)
Theorem decay_rounds_on_every_tick
    (g : B64.GameState) (now : Z) (pid : string) (p : B64.Player) :
  B64.players g !! pid = Some p →
  ∃ p', B64.players (fst (B64.tick now g)) !! pid = Some p' ∧
    B64.p_id p' = B64.p_id p ∧ B64.p_teamId p' = B64.p_teamId p ∧
    B64.p_lastShake p' = B64.p_lastShake p ∧
    (200 < now - B64.p_lastShake p →
       B64.p_shakeIntensity p' =
         B64.JNum (B64.Math_max B64.zero
                     (B64.sub (B64.to_number (B64.p_shakeIntensity p)) B64.half)) ∧
       (∀ x, B64.p_shakeIntensity p = B64.JNum x → B64.valid x = true →
          B64.leb B64.half x = true → B64.leb x B64.exact_bound = true →
          ∃ y, B64.p_shakeIntensity p' = B64.JNum y ∧
               (B64.value y == B64.value x - (1 # 2))%Q) ∧
       (∀ x, B64.p_shakeIntensity p = B64.JNum x → B64.valid x = true →
          B64.ltb x B64.half = true →
          B64.p_shakeIntensity p' = B64.JNum B64.zero) ∧
       (B64.p_shakeIntensity p = B64.JUndefined →
          B64.p_shakeIntensity p' = B64.JNum S754_nan) ∧
       B64.ltb (B64.to_number (B64.p_shakeIntensity p')) B64.zero = false) ∧
    (now - B64.p_lastShake p ≤ 200 → p' = p) ∧
    (B64.ltb (B64.to_number (B64.p_shakeIntensity p)) B64.zero = false →
     B64.ltb (B64.to_number (B64.p_shakeIntensity p')) B64.zero = false).
Proof.
  intros Hp. rewrite B64_tick_players, lookup_fmap, Hp. cbn [fmap option_fmap option_map].
  eexists; split; [reflexivity|].
  unfold B64.decay_player.
  destruct (200 <? now - B64.p_lastShake p) eqn:E;
    cbn [B64.p_id B64.p_teamId B64.p_lastShake B64.p_shakeIntensity B64.to_number].
  - apply Z.ltb_lt in E. do 3 (split; [reflexivity|]). split; [|split].
    + intros _. split; [reflexivity|]. split; [|split; [|split]].
      * intros x Hx Hv Hlo Hhi. eexists. split; [reflexivity|]. rewrite Hx.
        by destruct (B64_decayed_exact x Hv Hlo Hhi) as (H & _).
      * intros x Hx Hv Hlt. rewrite Hx. f_equal. by apply B64_decayed_small.
      * intros Hx. by rewrite Hx.
      * apply B64_Math_max_0_not_negative.
    + lia.
    + intros _. apply B64_Math_max_0_not_negative.
  - apply Z.ltb_ge in E. do 3 (split; [reflexivity|]). split; [lia|].
    split; [reflexivity|]. intros H; exact H.
Qed.

Lemma decay_rounds_on_every_tick_witness :
  ∃ p' y, B64.players (fst (B64.tick 2000
                         (B64.one_player (B64.JNum (B64.of_Z 10)) 1010 B64.zero)))
            !! "1000-a" = Some p' ∧
          B64.p_shakeIntensity p' = B64.JNum y ∧
          (B64.value y == B64.value (B64.of_Z 10) - (1 # 2))%Q.
Proof.
  destruct (decay_rounds_on_every_tick
              (B64.one_player (B64.JNum (B64.of_Z 10)) 1010 B64.zero) 2000
              "1000-a" (B64.mkPlayer "1000-a" 1 (B64.JNum (B64.of_Z 10)) 1010))
    as (p' & H1 & _ & _ & _ & H2 & _); [vm_compute; reflexivity|].
  destruct (H2 ltac:(reflexivity)) as (_ & H3 & _).
  destruct (H3 (B64.of_Z 10)) as (y & H4 & H5);
    [reflexivity|vm_compute; reflexivity|vm_compute; reflexivity
    |vm_compute; reflexivity|].
  exists p', y. split; [exact H1|]. split; [exact H4|exact H5].
Defined.

(** C8, counterexample. An idle player that reported 2^53 keeps that
    intensity through the decay, one that reported 2^52 + 1 loses a whole
    unit, and one whose report carried no intensity ends with NaN. *)
Lemma large_intensity_not_lowered_by_half :
  let start := B64.one_player (B64.JNum B64.zero) 1000 B64.zero in
  let after v :=
    B64.p_shakeIntensity <$>
      B64.players (fst (B64.tick 2000
                          (B64.update_shake (Some "1000-a") v 1010 start)))
        !! "1000-a" in
  after (B64.JNum (B64.of_Z 9007199254740992))
    = Some (B64.JNum (B64.of_Z 9007199254740992)) ∧
  after (B64.JNum (B64.of_Z 4503599627370497))
    = Some (B64.JNum (B64.of_Z 4503599627370496)) ∧
  after B64.JUndefined = Some (B64.JNum S754_nan) ∧
  B64.valid (B64.of_Z 9007199254740992) = true ∧
  B64.valid (B64.of_Z 4503599627370497) = true.
Proof. repeat split; vm_compute; reflexivity. Qed.

(** ** Running down *)











